(** * Dispatch and accounting engine of the distributed task runner

    A shallow embedding of [src/backend/server.js] (first revision of the
    backend, lines 1-1990): the wallet ledger, the payout settler, the
    bucket-config normaliser, the item-result sanitiser and the three
    worker endpoints [next-chunk], [record-progress] and [record-chunk].

    Modelling conventions.
    - Money (a JavaScript number) is an exact rational [Q]; the binary
      rounding of doubles is not modelled.  Where a statement below shows a
      rounding that differs from the specification, its inputs are dyadic
      rationals on which the JavaScript operations are exact.
    - Indices, counts and byte sizes are integers [Z].  A field that the
      code tests with [Number.isFinite] is an [option Z]: [None] stands for
      [undefined], [null] or any other value that fails the test.
    - Timestamps (ISO strings produced by [toISOString]) are milliseconds
      since the epoch, as [Date.parse] reads them back.
    - The collections of the store are lists, in array order.  An object
      that the code reaches through a reference into a collection is
      addressed by its position in that collection. *)

From Stdlib Require Import List String Ascii ZArith QArith Qround Lia Lqa Bool.
From Stdlib Require Import DecimalString Recdef FunInd.
Import ListNotations.
Local Open Scope string_scope.
Local Open Scope Z_scope.

Set Implicit Arguments.

(** ** JavaScript arithmetic on rationals *)

Definition Qltb (x y : Q) : bool := negb (Qle_bool y x).

Definition pow10 (digits : nat) : Z := 10 ^ Z.of_nat digits.

(** [Math.round(x)]: the integer nearest to [x], ties towards +infinity. *)
Definition Math_round (x : Q) : Z := Qfloor (x + (1 # 2))%Q.

(** [Number(x.toFixed(digits))] for [0 <= x]: "let n be an integer for which
    n / 10^digits - x is as close to zero as possible; if there are two such
    n, pick the larger n". *)
Definition toFixed_abs (digits : nat) (x : Q) : Q :=
  (inject_Z (Qfloor (x * inject_Z (pow10 digits) + (1 # 2))) / inject_Z (pow10 digits))%Q.

(** [toFixed] treats a negative [x] by its absolute value and a sign. *)
Definition toFixed (digits : nat) (x : Q) : Q :=
  if Qltb x 0 then (- toFixed_abs digits (- x))%Q else toFixed_abs digits x.


(** [function normalizeCurrencyAmount(value)]; the argument is [None] when
    [Number(value)] is not finite. *)
Definition normalizeCurrencyAmount (value : option Q) : option Q :=
  match value with
  | None => None
  | Some numeric =>
      let rounded := (inject_Z (Math_round (numeric * 100)) / 100)%Q in
      Some (toFixed 2 rounded)
  end.

(** ** Data model *)

Inductive TxType :=
| seed_credit | wallet_deposit | wallet_withdrawal
| chunk_debit | chunk_credit | platform_fee.


(** [meta] of a wallet transaction: [{ taskId, chunkIndex }] for payouts,
    [{ reason }] for manual movements. *)
Record Meta := {
  m_taskId : option string;
  m_chunkIndex : option Z;
  m_reason : option string
}.

Definition chunkMeta (taskId : string) (chunkIndex : Z) : Meta :=
  {| m_taskId := Some taskId; m_chunkIndex := Some chunkIndex; m_reason := None |}.

Definition reasonMeta (reason : string) : Meta :=
  {| m_taskId := None; m_chunkIndex := None; m_reason := Some reason |}.

Record User := {
  u_id : string;
  u_sessionId : string;
  u_walletBalance : Q;
  u_roles : list string;
  u_createdAt : Z;
  u_updatedAt : Z
}.

Record WalletTransaction := {
  tx_id : string;
  tx_userId : string;
  tx_sessionId : string;
  tx_type : TxType;
  tx_amount : Q;
  tx_balanceAfter : Q;
  tx_meta : Meta;
  tx_createdAt : Z
}.

Record BucketConfig := {
  maxBuckets : option Z;
  maxBucketBytes : option Z
}.

Record Task := {
  t_id : string;
  t_status : string;
  t_creatorId : option string;
  t_creatorSessionId : option string;
  t_costPerChunk : option Q;
  t_creditCost : option Q;
  t_maxBillableChunks : option Z;
  t_totalChunks : option Z;
  t_budgetTotal : option Q;
  t_chunksPaid : option Z;
  t_budgetSpent : option Q;
  t_platformFeePercent : option Q;
  t_bucketConfig : option BucketConfig;
  t_maxBucketBytes : option Z;
  t_totalItems : option Z;
  t_processedChunks : Z;
  t_processedItems : Z;
  t_progress : Z;
  t_nextChunkIndex : option Z;
  t_assignedWorkers : option (list string);
  t_revoked : bool
}.

(** One stored per-item record, as [sanitizeItemResults] builds it. *)
Record ItemResult := {
  i_globalIndex : option Z;
  i_localIndex : option Z;
  i_status : string;
  i_inputPreview : string;
  i_output : string;
  i_error : option string
}.

Record ChunkResult := {
  r_id : string;
  r_taskId : string;
  r_chunkIndex : Z;
  r_status : string;
  r_resultText : option string;
  r_createdAt : Z;
  r_updatedAt : Z;
  r_rangeStart : option Z;
  r_rangeEnd : option Z;
  r_itemsCount : option Z;
  r_bytesUsed : option Z;
  r_output : option string;
  r_error : option string;
  r_itemResults : list ItemResult;
  r_itemResultsTotal : option Z;
  r_itemResultsTruncated : bool;
  r_processedItems : option Z;
  r_workerId : option string;
  r_payoutIssued : bool;
  r_payoutAt : option Z
}.

(** A lease.  [a_assignedAt] and [a_expiresAt] are [None] when the field is
    missing. *)
Record Assignment := {
  a_id : string;
  a_taskId : string;
  a_chunkIndex : option Z;
  a_workerId : option string;
  a_assignedAt : option Z;
  a_expiresAt : option Z;
  a_rangeStart : option Z;
  a_rangeEnd : option Z;
  a_itemsCount : option Z;
  a_processedCount : option Z;
  a_progressRangeEnd : option Z;
  a_bytesUsed : option Z;
  a_lastBatchOffset : option Z;
  a_lastBatchSize : option Z;
  a_updatedAt : option Z
}.

(** The store: the six collections of [db.data], and the number of
    identifiers drawn from [nanoid] so far. *)
Record Db := {
  tasks : list Task;
  chunkResults : list ChunkResult;
  chunkAssignments : list Assignment;
  users : list User;
  walletTransactions : list WalletTransaction;
  platformLedger : Q;
  nanoidCount : nat
}.

(** ** Small JavaScript idioms *)

(** Truthiness of a value that is a string when present. *)
Definition truthy (s : option string) : bool :=
  match s with
  | Some v => negb (v =? "")%string
  | None => false
  end.

(** [a || b] on such values. *)
Definition orElse (a b : option string) : option string :=
  if truthy a then a else b.

(** [a ?? b]. *)
Definition nullish {A : Type} (a b : option A) : option A :=
  match a with
  | Some _ => a
  | None => b
  end.

Definition optZ_eqb (a b : option Z) : bool :=
  match a, b with
  | Some x, Some y => x =? y
  | None, None => true
  | _, _ => false
  end.

Definition optString_eqb (a b : option string) : bool :=
  match a, b with
  | Some x, Some y => (x =? y)%string
  | None, None => true
  | _, _ => false
  end.

(** [array.findIndex(p)]; [None] stands for -1. *)
Fixpoint findIndex {A : Type} (p : A -> bool) (l : list A) : option nat :=
  match l with
  | [] => None
  | x :: rest => if p x then Some O else option_map S (findIndex p rest)
  end.

(** [array.find(p)], together with the position of the element found, so
    that the caller can write through the reference. *)
Fixpoint findEntry {A : Type} (p : A -> bool) (l : list A) : option (nat * A) :=
  match l with
  | [] => None
  | x :: rest =>
      if p x then Some (O, x)
      else match findEntry p rest with
           | Some (i, y) => Some (S i, y)
           | None => None
           end
  end.

(** Writing through a reference to the element at position [i]. *)
Fixpoint replaceAt {A : Type} (i : nat) (x : A) (l : list A) : list A :=
  match l, i with
  | [], _ => []
  | _ :: rest, O => x :: rest
  | y :: rest, S j => y :: replaceAt j x rest
  end.

Definition isWhite (c : ascii) : bool :=
  let n := nat_of_ascii c in
  (Nat.eqb n 32 || (Nat.leb 9 n && Nat.leb n 13))%bool.

Fixpoint trimStart (s : string) : string :=
  match s with
  | EmptyString => EmptyString
  | String c rest => if isWhite c then trimStart rest else s
  end.

Fixpoint trimEnd (s : string) : string :=
  match s with
  | EmptyString => EmptyString
  | String c rest =>
      let rest' := trimEnd rest in
      if (isWhite c && (rest' =? "")%string)%bool then EmptyString else String c rest'
  end.

(** [s.trim()] on strings of one-byte characters. *)
Definition trim (s : string) : string := trimEnd (trimStart s).

(** Decimal rendering of an integer inside a template literal. *)
Definition Number_toString (z : Z) : string :=
  NilZero.string_of_int (Z.to_int z).

Section Server.

(** [nanoid()]: the [n]-th identifier handed out. *)
Variable nanoid : nat -> string.

(** Process environment: [DISABLE_BUDGET_CHECKS], [PLATFORM_FEE_PERCENT]
    and [WALLET_SANDBOX_ENABLED]. *)
Variable DISABLE_BUDGET_CHECKS : bool.
Variable PLATFORM_FEE_PERCENT : Q.
Variable SANDBOX_WALLET_ENABLED : bool.

Definition drawId (db : Db) : string * Db :=
  (nanoid (nanoidCount db),
   {| tasks := tasks db; chunkResults := chunkResults db;
      chunkAssignments := chunkAssignments db; users := users db;
      walletTransactions := walletTransactions db;
      platformLedger := platformLedger db;
      nanoidCount := S (nanoidCount db) |}).

Definition setUsers (db : Db) (us : list User) : Db :=
  {| tasks := tasks db; chunkResults := chunkResults db;
     chunkAssignments := chunkAssignments db; users := us;
     walletTransactions := walletTransactions db;
     platformLedger := platformLedger db; nanoidCount := nanoidCount db |}.

Definition setPlatformLedger (db : Db) (total : Q) : Db :=
  {| tasks := tasks db; chunkResults := chunkResults db;
     chunkAssignments := chunkAssignments db; users := users db;
     walletTransactions := walletTransactions db;
     platformLedger := total; nanoidCount := nanoidCount db |}.

(** ** Wallet ledger *)

(** [function findUserBySessionId(db, sessionId)]; the result is the
    position of the user found. *)
Definition findUserBySessionId (db : Db) (sessionId : option string) : option nat :=
  match sessionId with
  | Some sid =>
      if truthy sessionId
      then findIndex (fun user => (u_sessionId user =? sid)%string) (users db)
      else None
  | None => None
  end.

(** [function createUser(db, { sessionId, initialBalance, roles })]. *)
Definition createUser (now : Z) (db : Db) (sessionId : option string)
    (initialBalance : Q) (roles : list string) : nat * Db :=
  let (id, db1) := drawId db in
  let (sid, db2) :=
    match sessionId with
    | Some s => if truthy sessionId then (s, db1) else drawId db1
    | None => drawId db1
    end in
  let user := {| u_id := id; u_sessionId := sid; u_walletBalance := initialBalance;
                 u_roles := roles; u_createdAt := now; u_updatedAt := now |} in
  (List.length (users db2), setUsers db2 (users db2 ++ [user])%list).

(** [function ensureWorkerUser(db, workerId)]. *)
Definition ensureWorkerUser (now : Z) (db : Db) (workerId : option string)
    : option nat * Db :=
  if negb (truthy workerId) then (None, db)
  else match findUserBySessionId db workerId with
       | Some user => (Some user, db)
       | None =>
           let (user, db') := createUser now db workerId 0%Q ["worker"] in
           (Some user, db')
       end.

(** [function pushWalletTransaction(db, payload)]. *)
Definition pushWalletTransaction (db : Db) (payload : WalletTransaction) : Db :=
  {| tasks := tasks db; chunkResults := chunkResults db;
     chunkAssignments := chunkAssignments db; users := users db;
     walletTransactions := (walletTransactions db ++ [payload])%list;
     platformLedger := platformLedger db; nanoidCount := nanoidCount db |}.

(** [function adjustUserBalance(db, user, delta, type, meta)]; [user] is a
    position in [users], and a position outside the collection plays the
    part of the [null] user. *)
Definition adjustUserBalance (now : Z) (db : Db) (user : nat) (delta : Q)
    (type : TxType) (meta : Meta) : option WalletTransaction * Db :=
  match nth_error (users db) user with
  | None => (None, db)
  | Some u =>
      let amount := delta in
      let balance := (u_walletBalance u + amount)%Q in
      let u' := {| u_id := u_id u; u_sessionId := u_sessionId u;
                   u_walletBalance := balance; u_roles := u_roles u;
                   u_createdAt := u_createdAt u; u_updatedAt := now |} in
      let db1 := setUsers db (replaceAt user u' (users db)) in
      let (id, db2) := drawId db1 in
      let transaction :=
        {| tx_id := id; tx_userId := u_id u; tx_sessionId := u_sessionId u;
           tx_type := type; tx_amount := amount; tx_balanceAfter := balance;
           tx_meta := meta; tx_createdAt := now |} in
      (Some transaction, pushWalletTransaction db2 transaction)
  end.

(** [function recordPlatformEarning(db, amount, meta)]. *)
Definition recordPlatformEarning (now : Z) (db : Db) (amount : Q) (meta : Meta) : Db :=
  let totalEarnings := (platformLedger db + amount)%Q in
  let db1 := setPlatformLedger db totalEarnings in
  let (id, db2) := drawId db1 in
  pushWalletTransaction db2
    {| tx_id := id; tx_userId := "platform"; tx_sessionId := "platform";
       tx_type := platform_fee; tx_amount := amount;
       tx_balanceAfter := totalEarnings; tx_meta := meta; tx_createdAt := now |}.

Record TaskBudget := {
  b_costPerChunk : Q;
  b_maxBillableChunks : Z;
  b_budgetTotal : Q;
  b_chunksPaid : Z;
  b_budgetSpent : Q
}.

(** [function resolveTaskBudget(task)]. *)
Definition resolveTaskBudget (task : Task) : TaskBudget :=
  let costPerChunk :=
    match t_costPerChunk task with
    | Some c =>
        if Qltb 0 c then c
        else match t_creditCost task with
             | Some k => if Qeq_bool k 0 then 1%Q else k
             | None => 1%Q
             end
    | None =>
        match t_creditCost task with
        | Some k => if Qeq_bool k 0 then 1%Q else k
        | None => 1%Q
        end
    end in
  let maxBillableChunks :=
    match t_maxBillableChunks task with
    | Some m => m
    | None => match t_totalChunks task with
              | Some c => c
              | None => 1
              end
    end in
  let budgetTotal :=
    match t_budgetTotal task with
    | Some b => b
    | None => (costPerChunk * inject_Z maxBillableChunks)%Q
    end in
  let chunksPaid :=
    match t_chunksPaid task with
    | Some p => p
    | None => 0
    end in
  let budgetSpent :=
    match t_budgetSpent task with
    | Some s => s
    | None => (costPerChunk * inject_Z chunksPaid)%Q
    end in
  {| b_costPerChunk := costPerChunk; b_maxBillableChunks := maxBillableChunks;
     b_budgetTotal := budgetTotal; b_chunksPaid := chunksPaid;
     b_budgetSpent := budgetSpent |}.

(** ** Payout settler *)

(** The two shares, lines 177-182 of [issueChunkPayout]. *)
Definition platformShareOf (total feePercent : Q) : Q :=
  toFixed 6 ((total * feePercent) / 100)%Q.

Definition workerShareOf (total platformShare : Q) : Q :=
  toFixed 6 (total - platformShare)%Q.

Definition paidTask (task : Task) (total : Q) : Task :=
  {| t_id := t_id task; t_status := t_status task;
     t_creatorId := t_creatorId task;
     t_creatorSessionId := t_creatorSessionId task;
     t_costPerChunk := t_costPerChunk task; t_creditCost := t_creditCost task;
     t_maxBillableChunks := t_maxBillableChunks task;
     t_totalChunks := t_totalChunks task; t_budgetTotal := t_budgetTotal task;
     t_chunksPaid :=
       Some (match t_chunksPaid task with Some p => p | None => 0 end + 1);
     t_budgetSpent :=
       Some (match t_budgetSpent task with Some s => s | None => 0%Q end + total)%Q;
     t_platformFeePercent := t_platformFeePercent task;
     t_bucketConfig := t_bucketConfig task;
     t_maxBucketBytes := t_maxBucketBytes task;
     t_totalItems := t_totalItems task;
     t_processedChunks := t_processedChunks task;
     t_processedItems := t_processedItems task; t_progress := t_progress task;
     t_nextChunkIndex := t_nextChunkIndex task;
     t_assignedWorkers := t_assignedWorkers task; t_revoked := t_revoked task |}.

Definition paidResult (now : Z) (r : ChunkResult) (workerId : option string)
    : ChunkResult :=
  {| r_id := r_id r; r_taskId := r_taskId r; r_chunkIndex := r_chunkIndex r;
     r_status := r_status r; r_resultText := r_resultText r;
     r_createdAt := r_createdAt r; r_updatedAt := r_updatedAt r;
     r_rangeStart := r_rangeStart r; r_rangeEnd := r_rangeEnd r;
     r_itemsCount := r_itemsCount r; r_bytesUsed := r_bytesUsed r;
     r_output := r_output r; r_error := r_error r;
     r_itemResults := r_itemResults r;
     r_itemResultsTotal := r_itemResultsTotal r;
     r_itemResultsTruncated := r_itemResultsTruncated r;
     r_processedItems := r_processedItems r;
     r_workerId := orElse workerId (orElse (r_workerId r) None);
     r_payoutIssued := true; r_payoutAt := Some now |}.

(** [function issueChunkPayout(db, task, chunkResult, workerId)].  The task
    and the result are objects of the store; the caller writes the returned
    values back at their positions.  The guard of line 166 concerns [null]
    arguments, which the types exclude. *)
Definition issueChunkPayout (now : Z) (db : Db) (task : Task)
    (chunkResult : ChunkResult) (workerId : option string)
    : bool * Db * Task * ChunkResult :=
  if r_payoutIssued chunkResult then (false, db, task, chunkResult)
  else if negb (r_status chunkResult =? "completed")%string
  then (false, db, task, chunkResult)
  else
    let budget := resolveTaskBudget task in
    if (negb DISABLE_BUDGET_CHECKS
        && (b_maxBillableChunks budget <=? b_chunksPaid budget))%bool
    then (false, db, task, chunkResult)
    else
      let creatorSessionId :=
        orElse (t_creatorId task) (orElse (t_creatorSessionId task) None) in
      match findUserBySessionId db creatorSessionId with
      | None => (false, db, task, chunkResult)
      | Some customerAccount =>
          let (worker, db1) :=
            if truthy workerId then ensureWorkerUser now db workerId
            else (None, db) in
          let total := b_costPerChunk budget in
          let feePercent :=
            match t_platformFeePercent task with
            | Some p => p
            | None => PLATFORM_FEE_PERCENT
            end in
          let platformShare := platformShareOf total feePercent in
          let workerShare := workerShareOf total platformShare in
          let meta := chunkMeta (t_id task) (r_chunkIndex chunkResult) in
          let db2 :=
            snd (adjustUserBalance now db1 customerAccount (- total)%Q
                   chunk_debit meta) in
          let db3 :=
            match worker with
            | Some w => snd (adjustUserBalance now db2 w workerShare chunk_credit meta)
            | None => db2
            end in
          let db4 :=
            if negb (Qeq_bool platformShare 0)
            then recordPlatformEarning now db3 platformShare meta
            else db3 in
          (true, db4, paidTask task total, paidResult now chunkResult workerId)
      end.

(** ** Sandbox wallet endpoints *)

Inductive WalletResponse :=
| WalletError (status : Z) (error : string)
| WalletOk (user : option User) (transaction : option WalletTransaction).

(** [app.post("/api/wallet/deposit")].  [amount] is [None] when
    [Number(amount)] is not finite; [reason] is [None] when it is not a
    string.  The session middleware has resolved [req.currentUser] from
    [sessionId]. *)
Definition walletDeposit (now : Z) (db : Db) (sessionId : option string)
    (amount : option Q) (reason : option string) : WalletResponse * Db :=
  match normalizeCurrencyAmount amount with
  | None => (WalletError 400 "Deposit amount must be greater than zero", db)
  | Some normalized =>
      if Qle_bool normalized 0
      then (WalletError 400 "Deposit amount must be greater than zero", db)
      else if Qltb 1000000 normalized
      then (WalletError 400 "Deposit amount exceeds limit", db)
      else if negb SANDBOX_WALLET_ENABLED
      then (WalletError 403
              "Manual wallet deposits are disabled. Configure Stripe to add funds.", db)
      else
        match findUserBySessionId db sessionId with
        | None => (WalletError 500 "User session not found", db)
        | Some sessionUser =>
            let meta :=
              reasonMeta
                match reason with
                | Some text => if (trim text =? "")%string then "manual-deposit"
                               else trim text
                | None => "manual-deposit"
                end in
            let (transaction, db') :=
              adjustUserBalance now db sessionUser normalized wallet_deposit meta in
            (WalletOk (nth_error (users db') sessionUser) transaction, db')
        end
  end.

(** [app.post("/api/wallet/withdraw")]. *)
Definition walletWithdraw (now : Z) (db : Db) (sessionId : option string)
    (amount : option Q) (reason : option string) : WalletResponse * Db :=
  match normalizeCurrencyAmount amount with
  | None => (WalletError 400 "Withdrawal amount must be greater than zero", db)
  | Some normalized =>
      if Qle_bool normalized 0
      then (WalletError 400 "Withdrawal amount must be greater than zero", db)
      else if Qltb 1000000 normalized
      then (WalletError 400 "Withdrawal amount exceeds limit", db)
      else if negb SANDBOX_WALLET_ENABLED
      then (WalletError 403 "Manual withdrawals are disabled. Contact support.", db)
      else
        match findUserBySessionId db sessionId with
        | None => (WalletError 500 "User session not found", db)
        | Some sessionUser =>
            let currentBalance :=
              match nth_error (users db) sessionUser with
              | Some u => u_walletBalance u
              | None => 0%Q
              end in
            if Qltb currentBalance normalized
            then (WalletError 400 "Insufficient wallet balance", db)
            else
              let meta :=
                reasonMeta
                  match reason with
                  | Some text => if (trim text =? "")%string then "manual-withdrawal"
                                 else trim text
                  | None => "manual-withdrawal"
                  end in
              let (transaction, db') :=
                adjustUserBalance now db sessionUser (- normalized)%Q
                  wallet_withdrawal meta in
              (WalletOk (nth_error (users db') sessionUser) transaction, db')
        end
  end.

End Server.

(** ** Bucket planner: configuration *)

Definition DEFAULT_MAX_BUCKETS : Z := 10.
Definition DEFAULT_BUCKET_BYTES : Z := 1024 * 1024.
Definition BUCKET_TIMEOUT_MS : Z := 20 * 60 * 1000.
Definition ITEM_PREVIEW_LIMIT : nat := 240.
Definition MAX_ITEM_RESULTS_STORED : nat := 200.

(** The state of the two [while] loops of lines 634-638 and 831-835:
    [cfg.maxBuckets], [cfg.maxBucketBytes] and the flag the body sets. *)
Record FitState := {
  f_maxBuckets : Z;
  f_maxBucketBytes : Z;
  f_changed : bool
}.

(** One turn of the loop body. *)
Definition halveStep (s : FitState) : FitState :=
  {| f_maxBuckets := Z.max 1 (f_maxBuckets s / 2);
     f_maxBucketBytes := f_maxBucketBytes s * 2;
     f_changed := true |}.

(** The loop guard [cfg.maxBuckets > 1 && size > cfg.maxBucketBytes]. *)
Definition mustHalve (size : Z) (s : FitState) : bool :=
  ((1 <? f_maxBuckets s) && (f_maxBucketBytes s <? size))%bool.

(** The [while] loop itself.  Each turn at least halves [maxBuckets], which
    is above 1 when the guard holds, so the loop ends. *)
Function halveLoop (size : Z) (s : FitState)
    {measure (fun s => Z.to_nat (f_maxBuckets s)) s} : FitState :=
  if mustHalve size s then halveLoop size (halveStep s) else s.
Proof.
  intros size s H.
  unfold mustHalve in H. apply andb_prop in H. destruct H as [H _].
  apply Z.ltb_lt in H.
  unfold halveStep; cbn [f_maxBuckets].
  assert (f_maxBuckets s / 2 < f_maxBuckets s) by (apply Z.div_lt; lia).
  lia.
Defined.

(** The statement after the loop, lines 639-642 and 836-839. *)
Definition growToFit (size : Z) (s : FitState) : FitState :=
  if f_maxBucketBytes s <? size
  then {| f_maxBuckets := f_maxBuckets s;
          f_maxBucketBytes := Z.max (f_maxBucketBytes s) (size * 2);
          f_changed := true |}
  else s.

(** [ensureItemFits(size)], the closure of [calculateBucket] over [cfg];
    the result carries the new configuration and the returned flag. *)
Definition ensureItemFits (maxBuckets maxBucketBytes size : Z) : FitState :=
  growToFit size
    (halveLoop size
       {| f_maxBuckets := maxBuckets; f_maxBucketBytes := maxBucketBytes;
          f_changed := false |}).

Section Planner.

(** The items of a task and their serialised size
    [Buffer.byteLength(JSON.stringify(item))]; [None] when serialising
    throws. *)
Variable Item : Type.
Variable byteLength : Item -> option Z.

(** Lines 625-633 of [ensureBucketConfig]. *)
Definition largestItemBytes (items : list Item) : Z :=
  fold_left
    (fun largest item =>
       match byteLength item with
       | Some len => if largest <? len then len else largest
       | None => largest
       end)
    items 0.

Definition setBucketConfig (task : Task) (cfg : BucketConfig)
    (totalChunks maxBytes : option Z) : Task :=
  {| t_id := t_id task; t_status := t_status task;
     t_creatorId := t_creatorId task;
     t_creatorSessionId := t_creatorSessionId task;
     t_costPerChunk := t_costPerChunk task; t_creditCost := t_creditCost task;
     t_maxBillableChunks := t_maxBillableChunks task;
     t_totalChunks := totalChunks; t_budgetTotal := t_budgetTotal task;
     t_chunksPaid := t_chunksPaid task; t_budgetSpent := t_budgetSpent task;
     t_platformFeePercent := t_platformFeePercent task;
     t_bucketConfig := Some cfg;
     t_maxBucketBytes := maxBytes;
     t_totalItems := t_totalItems task;
     t_processedChunks := t_processedChunks task;
     t_processedItems := t_processedItems task; t_progress := t_progress task;
     t_nextChunkIndex := t_nextChunkIndex task;
     t_assignedWorkers := t_assignedWorkers task; t_revoked := t_revoked task |}.

(** [task.bucketConfig || {}]. *)
Definition bucketConfigOf (task : Task) : BucketConfig :=
  match t_bucketConfig task with
  | Some cfg => cfg
  | None => {| maxBuckets := None; maxBucketBytes := None |}
  end.

(** [desiredMaxBuckets], lines 607-615. *)
Definition desiredMaxBuckets (task : Task) : Z :=
  let existingMaxBuckets :=
    match maxBuckets (bucketConfigOf task) with
    | Some n => if 0 <? n then Some (Z.max 1 n) else None
    | None => None
    end in
  let configuredTotalChunks :=
    match t_totalChunks task with
    | Some n => if 0 <? n then Some (Z.max 1 n) else None
    | None => None
    end in
  match nullish existingMaxBuckets configuredTotalChunks with
  | Some n => n
  | None => DEFAULT_MAX_BUCKETS
  end.

(** The byte capacity after lines 620-624. *)
Definition initialBucketBytes (task : Task) : Z * bool :=
  match maxBucketBytes (bucketConfigOf task) with
  | Some b =>
      if 0 <? b then (b, false)
      else
        let fallbackBytes :=
          match t_maxBucketBytes task with
          | Some m => if (negb (m =? 0) && (0 <? m))%bool then m else DEFAULT_BUCKET_BYTES
          | None => DEFAULT_BUCKET_BYTES
          end in
        (Z.max 1024 fallbackBytes, true)
  | None =>
      let fallbackBytes :=
        match t_maxBucketBytes task with
        | Some m => if (negb (m =? 0) && (0 <? m))%bool then m else DEFAULT_BUCKET_BYTES
        | None => DEFAULT_BUCKET_BYTES
        end in
      (Z.max 1024 fallbackBytes, true)
  end.

(** Lines 604-642 of [ensureBucketConfig]: [cfg] and [mutated] after the
    loop and the statement that follows it. *)
Definition fitBucketConfig (task : Task) (items : list Item) : FitState :=
  let cfg := bucketConfigOf task in
  let desired := desiredMaxBuckets task in
  let mutated1 :=
    match maxBuckets cfg with
    | Some n => ((n <=? 0) || negb (n =? desired))%bool
    | None => true
    end in
  let (bytes0, mutated2) := initialBucketBytes task in
  let largest := largestItemBytes items in
  growToFit largest
    (halveLoop largest
       {| f_maxBuckets := desired; f_maxBucketBytes := bytes0;
          f_changed := (mutated1 || mutated2)%bool |}).

(** [function ensureBucketConfig(task, items)]: the returned flag
    [mutated] and the task as the function leaves it. *)
Definition ensureBucketConfig (task : Task) (items : list Item) : bool * Task :=
  let fitted := fitBucketConfig task items in
  let mutated3 := negb (optZ_eqb (t_totalChunks task) (Some (f_maxBuckets fitted))) in
  let mutated4 :=
    negb (optZ_eqb (t_maxBucketBytes task) (Some (f_maxBucketBytes fitted))) in
  ((f_changed fitted || mutated3 || mutated4)%bool,
   setBucketConfig task
     {| maxBuckets := Some (f_maxBuckets fitted);
        maxBucketBytes := Some (f_maxBucketBytes fitted) |}
     (Some (f_maxBuckets fitted)) (Some (f_maxBucketBytes fitted))).

End Planner.

(** ** Values of a request body *)

(** A value read from a JSON body.  [JObject] stands for an object or an
    array and carries its [JSON.stringify] text; [JUndefined] is a missing
    property. *)
Inductive jsval :=
| JUndefined
| JNull
| JBool (b : bool)
| JNum (n : Z)
| JStr (s : string)
| JObject (json : string).

Definition js_truthy (v : jsval) : bool :=
  match v with
  | JUndefined | JNull => false
  | JBool b => b
  | JNum n => negb (n =? 0)
  | JStr s => negb (s =? "")%string
  | JObject _ => true
  end.

(** [a || b] and [a ?? b] on values. *)
Definition js_or (a b : jsval) : jsval := if js_truthy a then a else b.

Definition js_nullish (a b : jsval) : jsval :=
  match a with
  | JUndefined | JNull => b
  | _ => a
  end.

(** [Number.isFinite(v) ? v : ...]. *)
Definition finite (v : jsval) : option Z :=
  match v with
  | JNum n => Some n
  | _ => None
  end.

(** [v === s] for a string literal [s]. *)
Definition js_is (v : jsval) (s : string) : bool :=
  match v with
  | JStr t => (t =? s)%string
  | _ => false
  end.

(** [function safeStringify(input)].  No caller passes [undefined]. *)
Definition safeStringify (input : jsval) : string :=
  match input with
  | JStr s => s
  | JUndefined => ""
  | JNull => "null"
  | JBool true => "true"
  | JBool false => "false"
  | JNum n => Number_toString n
  | JObject json => json
  end.

(** [value.slice(0, limit)]. *)
Fixpoint slice0 (limit : nat) (value : string) : string :=
  match limit, value with
  | O, _ => EmptyString
  | _, EmptyString => EmptyString
  | S k, String c rest => String c (slice0 k rest)
  end.

(** [function truncateText(value, limit = ITEM_PREVIEW_LIMIT)] on a string. *)
Definition truncateText (value : string) : string :=
  if (String.length value <=? ITEM_PREVIEW_LIMIT)%nat then value
  else (slice0 ITEM_PREVIEW_LIMIT value ++ "... (+"
        ++ Number_toString (Z.of_nat (String.length value - ITEM_PREVIEW_LIMIT))
        ++ " chars)")%string.

(** The properties of a submitted item result that the server reads. *)
Record ItemFields := {
  f_globalIndex : jsval;
  f_localIndex : jsval;
  f_status : jsval;
  f_inputPreview : jsval;
  f_input : jsval;
  f_inputValue : jsval;
  f_output : jsval;
  f_error : jsval
}.

(** An element of a submitted array: an object, or a value without
    properties of interest ([null], a number, a string, ...). *)
Inductive RawItem :=
| ItemObject (fields : ItemFields)
| ItemPrimitive (v : jsval).

(** [item?.prop]. *)
Definition prop (get : ItemFields -> jsval) (item : RawItem) : jsval :=
  match item with
  | ItemObject fields => get fields
  | ItemPrimitive _ => JUndefined
  end.

Record SanitizedItems := {
  s_items : list ItemResult;
  s_total : nat;
  s_truncated : bool
}.

(** The status stored for a submitted status, line 732. *)
Definition coerceStatus (status : jsval) : string :=
  if js_is status "failed" then "failed"
  else if js_is status "skipped" then "skipped"
  else "completed".

(** The callback of [limited.map] in [sanitizeItemResults]. *)
Definition sanitizeItem (idx : nat) (item : RawItem) : ItemResult :=
  let globalIndex := finite (prop f_globalIndex item) in
  let localIndex :=
    match finite (prop f_localIndex item) with
    | Some n => n
    | None => Z.of_nat idx
    end in
  let status := coerceStatus (prop f_status item) in
  let inputPreviewSource :=
    match prop f_inputPreview item with
    | JStr s =>
        if (0 <? String.length (trim s))%nat then s
        else safeStringify
               (js_nullish (prop f_input item)
                  (js_nullish (prop f_inputValue item) JNull))
    | _ => safeStringify
             (js_nullish (prop f_input item)
                (js_nullish (prop f_inputValue item) JNull))
    end in
  let outputSource :=
    match prop f_output item with
    | JStr s => s
    | other => safeStringify (js_nullish other JNull)
    end in
  let errorSource :=
    match prop f_error item with
    | JStr s => Some s
    | _ => None
    end in
  {| i_globalIndex := globalIndex;
     i_localIndex := Some localIndex;
     i_status := status;
     i_inputPreview := truncateText inputPreviewSource;
     i_output := truncateText outputSource;
     i_error :=
       match errorSource with
       | Some e => if (e =? "")%string then None else Some (truncateText e)
       | None => None
       end |}.

(** [array.map((item, idx) => ...)]. *)
Fixpoint mapi_from {A B : Type} (f : nat -> A -> B) (start : nat) (l : list A)
    : list B :=
  match l with
  | [] => []
  | x :: rest => f start x :: mapi_from f (S start) rest
  end.

Definition mapi {A B : Type} (f : nat -> A -> B) (l : list A) : list B :=
  mapi_from f O l.

(** [function sanitizeItemResults(raw)]; [raw] is [None] when it is not an
    array. *)
Definition sanitizeItemResults (raw : option (list RawItem)) : SanitizedItems :=
  match raw with
  | None | Some [] => {| s_items := []; s_total := 0; s_truncated := false |}
  | Some raw =>
      let limited := firstn MAX_ITEM_RESULTS_STORED raw in
      let items := mapi sanitizeItem limited in
      {| s_items := items;
         s_total := List.length raw;
         s_truncated := (List.length items <? List.length raw)%nat |}
  end.

(** The [fallbacks] argument of [sanitizeSingleItem]. *)
Record Fallbacks := {
  fb_localIndex : jsval;
  fb_globalIndex : jsval;
  fb_status : jsval
}.

(** [function sanitizeSingleItem(raw, fallbacks)]. *)
Definition sanitizeSingleItem (raw : RawItem) (fallbacks : Fallbacks)
    : option ItemResult :=
  match raw with
  | ItemPrimitive _ => None
  | ItemObject fields =>
      let safe :=
        sanitizeItemResults
          (Some
             [ItemObject
                {| f_globalIndex :=
                     match finite (f_globalIndex fields) with
                     | Some _ => f_globalIndex fields
                     | None => js_nullish (fb_globalIndex fallbacks) JNull
                     end;
                   f_localIndex :=
                     match finite (f_localIndex fields) with
                     | Some _ => f_localIndex fields
                     | None => js_nullish (fb_localIndex fallbacks) JNull
                     end;
                   f_status :=
                     js_or (f_status fields)
                       (js_or (fb_status fallbacks) (JStr "completed"));
                   f_inputPreview :=
                     js_nullish (f_inputPreview fields)
                       (js_nullish (f_input fields)
                          (js_nullish (f_inputValue fields) JNull));
                   f_input := JUndefined;
                   f_inputValue := JUndefined;
                   f_output := js_nullish (f_output fields) JNull;
                   f_error := js_nullish (f_error fields) JNull |}]) in
      nth_error (s_items safe) 0
  end.

(** ** Ranges, leases and progress *)

(** [function normalizeRange(entry, fallbackIndex)], on the three fields of
    [entry] that it reads. *)
Definition normalizeRange (rangeStart rangeEnd itemsCount fallbackIndex : option Z)
    : option (Z * Z) :=
  let fallback :=
    match fallbackIndex with
    | Some index =>
        let count := match itemsCount with
                     | Some c => Z.max 1 c
                     | None => 1
                     end in
        Some (index, index + count)
    | None => None
    end in
  match rangeStart, rangeEnd with
  | Some start, Some stop => if start <? stop then Some (start, stop) else fallback
  | _, _ => fallback
  end.

Definition assignmentRange (entry : Assignment) : option (Z * Z) :=
  normalizeRange (a_rangeStart entry) (a_rangeEnd entry) (a_itemsCount entry)
    (a_chunkIndex entry).

Definition resultRange (r : ChunkResult) : option (Z * Z) :=
  normalizeRange (r_rangeStart r) (r_rangeEnd r) (r_itemsCount r)
    (Some (r_chunkIndex r)).

Definition setTasks (db : Db) (ts : list Task) : Db :=
  {| tasks := ts; chunkResults := chunkResults db;
     chunkAssignments := chunkAssignments db; users := users db;
     walletTransactions := walletTransactions db;
     platformLedger := platformLedger db; nanoidCount := nanoidCount db |}.

Definition setChunkResults (db : Db) (rs : list ChunkResult) : Db :=
  {| tasks := tasks db; chunkResults := rs;
     chunkAssignments := chunkAssignments db; users := users db;
     walletTransactions := walletTransactions db;
     platformLedger := platformLedger db; nanoidCount := nanoidCount db |}.

Definition setChunkAssignments (db : Db) (leases : list Assignment) : Db :=
  {| tasks := tasks db; chunkResults := chunkResults db;
     chunkAssignments := leases; users := users db;
     walletTransactions := walletTransactions db;
     platformLedger := platformLedger db; nanoidCount := nanoidCount db |}.

(** [function sweepExpiredAssignments(db, taskId)]: the backward loop with
    [splice] keeps, in order, the entries it does not remove. *)
Definition expired (now : Z) (entry : Assignment) : bool :=
  let assignedAt := match a_assignedAt entry with
                    | Some t => t
                    | None => 0
                    end in
  let expiresAt := match a_expiresAt entry with
                   | Some t => t
                   | None => assignedAt + BUCKET_TIMEOUT_MS
                   end in
  expiresAt <? now.

Definition sweepExpiredAssignments (now : Z) (db : Db) (taskId : string) : Db :=
  setChunkAssignments db
    (filter
       (fun entry => negb ((a_taskId entry =? taskId)%string && expired now entry))
       (chunkAssignments db)).

Definition finishedStatus (status : string) : bool :=
  ((status =? "completed") || (status =? "failed") || (status =? "skipped"))%string.

Definition setProgress (task : Task) (processedChunks processedItems progress : Z)
    (status : string) : Task :=
  {| t_id := t_id task; t_status := status;
     t_creatorId := t_creatorId task;
     t_creatorSessionId := t_creatorSessionId task;
     t_costPerChunk := t_costPerChunk task; t_creditCost := t_creditCost task;
     t_maxBillableChunks := t_maxBillableChunks task;
     t_totalChunks := t_totalChunks task; t_budgetTotal := t_budgetTotal task;
     t_chunksPaid := t_chunksPaid task; t_budgetSpent := t_budgetSpent task;
     t_platformFeePercent := t_platformFeePercent task;
     t_bucketConfig := t_bucketConfig task;
     t_maxBucketBytes := t_maxBucketBytes task;
     t_totalItems := t_totalItems task;
     t_processedChunks := processedChunks;
     t_processedItems := processedItems; t_progress := progress;
     t_nextChunkIndex := t_nextChunkIndex task;
     t_assignedWorkers := t_assignedWorkers task; t_revoked := t_revoked task |}.

Definition setStatus (task : Task) (status : string) : Task :=
  setProgress task (t_processedChunks task) (t_processedItems task)
    (t_progress task) status.

(** [function computeProgress(task, db)]. *)
Definition computeProgress (task : Task) (db : Db) : Task :=
  let step (acc : Z * Z) (result : ChunkResult) : Z * Z :=
    let (processedChunks, processedItems) := acc in
    if negb (r_taskId result =? t_id task)%string then acc
    else
      let totalFromRange :=
        option_map (fun range => Z.max 0 (snd range - fst range)) (resultRange result) in
      let totalFromCount := option_map (Z.max 0) (r_itemsCount result) in
      let processedHint := option_map (Z.max 0) (r_processedItems result) in
      let totalFallback := option_map (Z.max 0) (r_itemResultsTotal result) in
      let zero := Some 0 in
      if finishedStatus (r_status result) then
        (processedChunks + 1,
         processedItems +
         match nullish totalFromRange
                 (nullish totalFromCount (nullish processedHint
                    (nullish totalFallback zero))) with
         | Some n => n
         | None => 0
         end)
      else if (r_status result =? "processing")%string then
        (processedChunks,
         processedItems +
         match nullish processedHint
                 (nullish totalFromRange (nullish totalFallback zero)) with
         | Some n => n
         | None => 0
         end)
      else (processedChunks, processedItems + 0) in
  let (processedChunks, processedItems) := fold_left step (chunkResults db) (0, 0) in
  let chunkGoal := nullish (t_totalChunks task) (t_maxBillableChunks task) in
  let ratio (done goal : Z) : Z :=
    Z.min 100 (Math_round ((inject_Z done / inject_Z goal) * 100)%Q) in
  let progress :=
    match t_totalItems task with
    | Some totalItems =>
        if 0 <? totalItems then ratio processedItems totalItems
        else match chunkGoal with
             | Some goal => if 0 <? goal then ratio processedChunks goal
                            else t_progress task
             | None => t_progress task
             end
    | None =>
        match chunkGoal with
        | Some goal => if 0 <? goal then ratio processedChunks goal
                       else t_progress task
        | None => t_progress task
        end
    end in
  setProgress task processedChunks processedItems progress
    (if ((progress =? 100) && negb (t_status task =? "completed")%string)%bool
     then "completed" else t_status task).

Definition nl : string := String (ascii_of_nat 10) EmptyString.

(** [lines.join("\n")]. *)
Fixpoint joinLines (lines : list string) : string :=
  match lines with
  | [] => ""
  | [line] => line
  | line :: rest => (line ++ nl ++ joinLines rest)%string
  end.

Definition itemLabel (item : ItemResult) : string :=
  match i_globalIndex item with
  | Some g => ("#" ++ Number_toString g)%string
  | None => ("item " ++ match i_localIndex item with
                        | Some l => Number_toString l
                        | None => "null"
                        end)%string
  end.

(** [function buildResultTextFromItems(items, status)]. *)
Definition buildResultTextFromItems (items : list ItemResult) (status : string)
    : string :=
  match items with
  | [] => ("[input]" ++ nl ++ "none" ++ nl ++ "[output]" ++ nl ++ "status: " ++ status)%string
  | _ =>
      let previewLimit := 20%nat in
      let limited := firstn previewLimit items in
      let inputLines :=
        map (fun item => trim (itemLabel item ++ ": " ++ i_inputPreview item)%string)
          limited in
      let outputLines :=
        map (fun item =>
               let base :=
                 if (i_status item =? "failed")%string
                 then match orElse (i_error item) (Some (i_output item)) with
                      | Some text => if (text =? "")%string then "failed" else text
                      | None => "failed"
                      end
                 else if (i_output item =? "")%string then "completed"
                      else i_output item in
               trim (itemLabel item ++ ": " ++ base)%string)
          limited in
      let more :=
        if (previewLimit <? List.length items)%nat
        then [("...(and "
               ++ Number_toString (Z.of_nat (List.length items - previewLimit))
               ++ " more)")%string]
        else [] in
      ("[input]" ++ nl ++ joinLines (inputLines ++ more)%list ++ nl
       ++ "[output]" ++ nl ++ joinLines (outputLines ++ more)%list)%string
  end.

(** ** Terminal bucket result: [record-chunk] *)

Section Endpoints.

Variable nanoid : nat -> string.
Variable DISABLE_BUDGET_CHECKS : bool.
Variable PLATFORM_FEE_PERCENT : Q.

(** The body of a [record-chunk] request.  A numeric field is [Some] when
    it is a finite number, a string field when it is a string. *)
Record RecordChunkReq := {
  q_taskId : option string;
  q_chunkIndex : option Z;
  q_status : option string;
  q_resultText : option string;
  q_rangeStart : option Z;
  q_rangeEnd : option Z;
  q_itemsCount : option Z;
  q_bytesUsed : option Z;
  q_output : jsval;
  q_error : jsval;
  q_itemResults : option (list RawItem);
  q_workerId : option string
}.

Inductive RecordChunkReply :=
| ChunkRejected (status : Z) (error : string)
| ChunkRecorded (payout : bool)
| ChunkThrew (error : string).

(** The test of the backward loop of lines 1618-1631: the lease is spliced
    out. *)
Definition releasedOnResult (taskId : string) (chunkIndex : Z)
    (rangeStart rangeEnd : option Z) (entry : Assignment) : bool :=
  if negb (a_taskId entry =? taskId)%string then false
  else if optZ_eqb (a_chunkIndex entry) (Some chunkIndex) then true
  else
    match rangeStart, rangeEnd with
    | Some rs, Some re =>
        match assignmentRange entry with
        | Some (start, stop) => ((start =? rs) && (stop =? re))%bool
        | None => false
        end
    | _, _ => false
    end.

(** The test of the backward loop of lines 1653-1664: the result is spliced
    out. *)
Definition overlapsOther (taskId : string) (chunkIndex : Z) (range : option (Z * Z))
    (r : ChunkResult) : bool :=
  if negb (r_taskId r =? taskId)%string then false
  else if r_chunkIndex r =? chunkIndex then false
  else
    match range, resultRange r with
    | Some (start, stop), Some (rStart, rStop) =>
        0 <? Z.max 0 (Z.min stop rStop - Z.max start rStart)
    | _, _ => false
    end.

(** [resolvedItemsCount], lines 1638-1644. *)
Definition resolvedItemsCount (itemsCount rangeStart rangeEnd : option Z)
    (sanitizedItems : list ItemResult) : option Z :=
  match itemsCount with
  | Some n => Some n
  | None =>
      match rangeStart, rangeEnd with
      | Some rs, Some re => Some (re - rs)
      | _, _ =>
          match sanitizedItems with
          | [] => None
          | _ => Some (Z.of_nat (List.length sanitizedItems))
          end
      end
  end.

(** [safeError], line 1650. *)
Definition safeErrorOf (error : jsval) : option string :=
  match error with
  | JStr s => Some s
  | _ => if js_truthy error then Some (safeStringify error) else None
  end.

(** The assignments to [existing], lines 1671-1692. *)
Definition overwriteResult (now : Z) (existing : ChunkResult) (req : RecordChunkReq)
    (status safeResultText safeOutput : string) (safeError : option string)
    (resolved : option Z) (sanitized : SanitizedItems)
    (resolvedWorkerId : option string) : ChunkResult :=
  {| r_id := r_id existing; r_taskId := r_taskId existing;
     r_chunkIndex := r_chunkIndex existing;
     r_status := status;
     r_resultText :=
       if (safeResultText =? "")%string then r_resultText existing
       else Some safeResultText;
     r_createdAt := r_createdAt existing;
     r_updatedAt := now;
     r_rangeStart := match q_rangeStart req with
                     | Some rs => Some rs
                     | None => r_rangeStart existing
                     end;
     r_rangeEnd := match q_rangeEnd req with
                   | Some re => Some re
                   | None => r_rangeEnd existing
                   end;
     r_itemsCount := match resolved with
                     | Some n => Some n
                     | None => r_itemsCount existing
                     end;
     r_bytesUsed := match q_bytesUsed req with
                    | Some b => Some b
                    | None => r_bytesUsed existing
                    end;
     r_output :=
       match q_output req with
       | JUndefined =>
           if (negb (safeOutput =? "")%string
               && negb (optString_eqb (Some safeOutput) (r_output existing)))%bool
           then Some safeOutput else r_output existing
       | _ => Some safeOutput
       end;
     r_error :=
       match safeError, q_error req with
       | Some e, _ => Some e
       | None, JNull => None
       | None, _ => r_error existing
       end;
     r_itemResults := s_items sanitized;
     r_itemResultsTotal := Some (Z.of_nat (s_total sanitized));
     r_itemResultsTruncated := s_truncated sanitized;
     r_processedItems :=
       match resolved with
       | Some n => Some n
       | None => Some (Z.of_nat (List.length (s_items sanitized)))
       end;
     r_workerId := if truthy resolvedWorkerId then resolvedWorkerId
                   else r_workerId existing;
     r_payoutIssued := r_payoutIssued existing;
     r_payoutAt := r_payoutAt existing |}.

(** [app.post("/api/worker/record-chunk")].  When no result is stored for
    the bucket, the object literal of lines 1694-1713 reads the identifier
    [itemResultsTotal] (line 1709), which no scope declares: evaluation
    stops there with a [ReferenceError], after [nanoid()] has been called
    for the [id] property, and the handler neither stores a result nor
    answers. *)
Definition recordChunk (now : Z) (db : Db) (req : RecordChunkReq)
    : RecordChunkReply * Db :=
  match q_taskId req, q_chunkIndex req, q_status req with
  | Some taskId, Some chunkIndex, Some status =>
      if (negb (truthy (Some taskId)) || negb (truthy (Some status)))%bool
      then (ChunkRejected 400 "Missing fields", db)
      else
        match findEntry (fun t => (t_id t =? taskId)%string) (tasks db) with
        | None => (ChunkRejected 404 "Task not found", db)
        | Some (taskPos, task0) =>
                let task1 := if (t_status task0 =? "queued")%string
                             then setStatus task0 "processing" else task0 in
                let assignments := chunkAssignments db in
                let matchedAssignment :=
                  find (fun entry =>
                          ((a_taskId entry =? taskId)%string
                           && optZ_eqb (a_chunkIndex entry) (Some chunkIndex))%bool)
                    assignments in
                let assignments' :=
                  filter (fun entry =>
                            negb (releasedOnResult taskId chunkIndex
                                    (q_rangeStart req) (q_rangeEnd req) entry))
                    assignments in
                let range :=
                  normalizeRange (q_rangeStart req) (q_rangeEnd req)
                    (q_itemsCount req) (Some chunkIndex) in
                let sanitized := sanitizeItemResults (q_itemResults req) in
                let sanitizedItems := s_items sanitized in
                let resolved :=
                  resolvedItemsCount (q_itemsCount req) (q_rangeStart req)
                    (q_rangeEnd req) sanitizedItems in
                let safeResultText :=
                  match q_resultText req with
                  | Some text =>
                      if (0 <? String.length (trim text))%nat then text
                      else buildResultTextFromItems sanitizedItems status
                  | None => buildResultTextFromItems sanitizedItems status
                  end in
                let rawOutput :=
                  match q_output req with
                  | JStr s => s
                  | other => safeStringify (js_nullish other (JStr ""))
                  end in
                let safeOutput := truncateText rawOutput in
                let safeError := safeErrorOf (q_error req) in
                let resultsArr :=
                  filter (fun r => negb (overlapsOther taskId chunkIndex range r))
                    (chunkResults db) in
                let db1 :=
                  setChunkResults
                    (setChunkAssignments
                       (setTasks db (replaceAt taskPos task1 (tasks db)))
                       assignments')
                    resultsArr in
                let sameBucket (r : ChunkResult) :=
                  ((r_taskId r =? taskId)%string && (r_chunkIndex r =? chunkIndex))%bool in
                match findEntry sameBucket resultsArr with
                | None =>
                    (ChunkThrew "ReferenceError: itemResultsTotal is not defined",
                     snd (drawId nanoid db1))
                | Some (resultPos, existing) =>
                        let resolvedWorkerId :=
                          orElse (q_workerId req)
                            (orElse (match matchedAssignment with
                                     | Some entry => a_workerId entry
                                     | None => None
                                     end)
                               (orElse (r_workerId existing) None)) in
                        let target :=
                          overwriteResult now existing req status safeResultText
                            safeOutput safeError resolved sanitized resolvedWorkerId in
                        let '(payoutApplied, db2, task2, target') :=
                          issueChunkPayout nanoid DISABLE_BUDGET_CHECKS
                            PLATFORM_FEE_PERCENT now db1 task1 target
                            resolvedWorkerId in
                        let db3 :=
                          setChunkResults db2 (replaceAt resultPos target' resultsArr) in
                        let task3 := computeProgress task2 db3 in
                        (ChunkRecorded payoutApplied,
                         setTasks db3 (replaceAt taskPos task3 (tasks db3)))
                end
        end
  | _, _, _ => (ChunkRejected 400 "Missing fields", db)
  end.

(** ** Progress batch: [record-progress] *)

Record RecordProgressReq := {
  p_taskId : option string;
  p_chunkIndex : option Z;
  p_workerId : option string;
  p_rangeStart : option Z;
  p_itemsProcessed : option Z;
  p_totalItems : option Z;
  p_bytesUsed : option Z;
  p_item : option RawItem;
  p_items : option (list RawItem);
  p_batchOffset : option Z;
  p_batchSize : option Z
}.

Inductive RecordProgressReply :=
| ProgressRejected (status : Z) (error : string)
| ProgressRecorded (processed : Z) (total : option Z).

(** The sort key of line 1901; [Number.MAX_SAFE_INTEGER] for an entry
    without a finite [localIndex]. *)
Definition localKey (item : ItemResult) : Z :=
  match i_localIndex item with
  | Some l => l
  | None => 2 ^ 53 - 1
  end.

Fixpoint insertByLocal (x : ItemResult) (sorted : list ItemResult) : list ItemResult :=
  match sorted with
  | [] => [x]
  | y :: rest => if localKey x <? localKey y then x :: sorted
                 else y :: insertByLocal x rest
  end.

(** [itemResults.sort((a, b) => aIndex - bIndex)]; the sort is stable. *)
Definition sortByLocal (items : list ItemResult) : list ItemResult :=
  fold_left (fun sorted x => insertByLocal x sorted) items [].

(** The [fallbacks] that the batch loop passes, lines 1876-1888. *)
Definition progressFallbacks (rangeStart batchOffset : option Z) (processed : Z)
    (batchLength : nat) (idx : nat) (rawItem : RawItem) : Fallbacks :=
  let fallbackLocal :=
    match batchOffset with
    | Some baseLocal => baseLocal + Z.of_nat idx
    | None => Z.max 0 (processed - Z.of_nat batchLength + Z.of_nat idx)
    end in
  let fallbackGlobal :=
    match rangeStart with
    | Some rs => JNum (rs + fallbackLocal)
    | None => JNull
    end in
  {| fb_localIndex :=
       match finite (prop f_localIndex rawItem) with
       | Some _ => prop f_localIndex rawItem
       | None => JNum fallbackLocal
       end;
     fb_globalIndex :=
       match finite (prop f_globalIndex rawItem) with
       | Some _ => prop f_globalIndex rawItem
       | None => fallbackGlobal
       end;
     fb_status := js_or (prop f_status rawItem) (JStr "completed") |}.

(** One turn of [rawBatch.forEach], lines 1875-1898. *)
Definition upsertItem (rangeStart batchOffset : option Z) (processed : Z)
    (batchLength : nat) (stored : list ItemResult) (idx : nat) (rawItem : RawItem)
    : list ItemResult :=
  match sanitizeSingleItem rawItem
          (progressFallbacks rangeStart batchOffset processed batchLength idx rawItem) with
  | None => stored
  | Some sanitized =>
      let others :=
        match i_localIndex sanitized with
        | Some localIdx =>
            filter (fun existing =>
                      match i_localIndex existing with
                      | Some l => negb (l =? localIdx)
                      | None => true
                      end)
              stored
        | None => stored
        end in
      (others ++ [sanitized])%list
  end.

Fixpoint upsertBatch (rangeStart batchOffset : option Z) (processed : Z)
    (batchLength : nat) (stored : list ItemResult) (idx : nat) (batch : list RawItem)
    : list ItemResult :=
  match batch with
  | [] => stored
  | rawItem :: rest =>
      upsertBatch rangeStart batchOffset processed batchLength
        (upsertItem rangeStart batchOffset processed batchLength stored idx rawItem)
        (S idx) rest
  end.

(** Lines 1871-1909: the stored item list after the batch. *)
Definition mergeBatch (rangeStart batchOffset : option Z) (processed : Z)
    (stored : list ItemResult) (rawBatch : list RawItem) : list ItemResult :=
  match rawBatch with
  | [] => stored
  | _ =>
      let merged :=
        sortByLocal
          (upsertBatch rangeStart batchOffset processed (List.length rawBatch)
             stored O rawBatch) in
      if (MAX_ITEM_RESULTS_STORED <? List.length merged)%nat
      then skipn (List.length merged - MAX_ITEM_RESULTS_STORED) merged
      else merged
  end.

(** The lease after lines 1796-1811. *)
Definition touchAssignment (now : Z) (req : RecordProgressReq) (processed : Z)
    (entry : Assignment) : Assignment :=
  {| a_id := a_id entry; a_taskId := a_taskId entry;
     a_chunkIndex := a_chunkIndex entry;
     a_workerId := if truthy (p_workerId req) then p_workerId req
                   else a_workerId entry;
     a_assignedAt := a_assignedAt entry;
     a_expiresAt := Some (now + BUCKET_TIMEOUT_MS);
     a_rangeStart := a_rangeStart entry; a_rangeEnd := a_rangeEnd entry;
     a_itemsCount := a_itemsCount entry;
     a_processedCount := Some processed;
     a_progressRangeEnd := match p_rangeStart req with
                           | Some rs => Some (rs + processed)
                           | None => a_progressRangeEnd entry
                           end;
     a_bytesUsed := match p_bytesUsed req with
                    | Some b => Some b
                    | None => a_bytesUsed entry
                    end;
     a_lastBatchOffset := match p_batchOffset req with
                          | Some o => Some (Z.max 0 o)
                          | None => a_lastBatchOffset entry
                          end;
     a_lastBatchSize := match p_batchSize req with
                        | Some n => Some (Z.max 0 n)
                        | None => a_lastBatchSize entry
                        end;
     a_updatedAt := Some now |}.

(** The result created when the bucket has none, lines 1817-1835. *)
Definition freshResult (now : Z) (id taskId : string) (chunkIndex : Z)
    (req : RecordProgressReq) (processed : Z) (total : option Z) : ChunkResult :=
  {| r_id := id; r_taskId := taskId; r_chunkIndex := chunkIndex;
     r_status := "processing"; r_resultText := None;
     r_createdAt := now; r_updatedAt := now;
     r_rangeStart := p_rangeStart req; r_rangeEnd := p_rangeStart req;
     r_itemsCount := total; r_bytesUsed := p_bytesUsed req;
     r_output := None; r_error := None;
     r_itemResults := []; r_itemResultsTotal := Some 0;
     r_itemResultsTruncated := false;
     r_processedItems := Some processed;
     r_workerId := None; r_payoutIssued := false; r_payoutAt := None |}.

(** The assignments to [resultEntry], lines 1839-1923. *)
Definition mergeProgress (now : Z) (req : RecordProgressReq) (processed : Z)
    (total : option Z) (entry : ChunkResult) : ChunkResult :=
  let rawBatch :=
    match p_items req with
    | Some (x :: rest) => x :: rest
    | _ => match p_item req with
           | Some item => [item]
           | None => []
           end
    end in
  let itemResults :=
    mergeBatch (p_rangeStart req) (option_map (Z.max 0) (p_batchOffset req))
      processed (r_itemResults entry) rawBatch in
  let itemResultsTotal :=
    let currentTotal := match r_itemResultsTotal entry with
                        | Some n => n
                        | None => 0
                        end in
    if currentTotal <? processed then Some processed else r_itemResultsTotal entry in
  {| r_id := r_id entry; r_taskId := r_taskId entry;
     r_chunkIndex := r_chunkIndex entry;
     r_status :=
       if (negb (r_status entry =? "completed")%string
           && negb (r_status entry =? "failed")%string)%bool
       then "processing" else r_status entry;
     r_resultText := r_resultText entry;
     r_createdAt := r_createdAt entry;
     r_updatedAt := now;
     r_rangeStart :=
       match p_rangeStart req with
       | Some rs => match r_rangeStart entry with
                    | Some old => Some (Z.min old rs)
                    | None => Some rs
                    end
       | None => r_rangeStart entry
       end;
     r_rangeEnd :=
       match p_rangeStart req with
       | Some rs =>
           let candidateEnd := rs + processed in
           match r_rangeEnd entry with
           | Some old => if old <? candidateEnd then Some candidateEnd else Some old
           | None => Some candidateEnd
           end
       | None => r_rangeEnd entry
       end;
     r_itemsCount :=
       match total with
       | Some t =>
           let currentTotal := match r_itemsCount entry with
                               | Some n => n
                               | None => 0
                               end in
           if currentTotal <? t then Some t else r_itemsCount entry
       | None => r_itemsCount entry
       end;
     r_bytesUsed := match p_bytesUsed req with
                    | Some b => Some b
                    | None => r_bytesUsed entry
                    end;
     r_output :=
       Some match total with
            | Some t => ("Processing " ++ Number_toString (Z.min processed t) ++ " / "
                         ++ Number_toString t ++ " item(s)")%string
            | None => ("Processing " ++ Number_toString processed ++ " item(s)")%string
            end;
     r_error := r_error entry;
     r_itemResults := itemResults;
     r_itemResultsTotal := itemResultsTotal;
     r_itemResultsTruncated :=
       Z.of_nat (List.length itemResults)
       <? match itemResultsTotal with
          | Some n => n
          | None => 0
          end;
     r_processedItems :=
       let currentProcessed := match r_processedItems entry with
                               | Some n => n
                               | None => 0
                               end in
       if currentProcessed <? processed then Some processed
       else r_processedItems entry;
     r_workerId := r_workerId entry;
     r_payoutIssued := r_payoutIssued entry;
     r_payoutAt := r_payoutAt entry |}.

(** [app.post("/api/worker/record-progress")].  After the validation of
    line 1781 [itemsProcessed] is a finite number, so [processed] is never
    [null]. *)
Definition recordProgress (now : Z) (db : Db) (req : RecordProgressReq)
    : RecordProgressReply * Db :=
  match p_taskId req, p_chunkIndex req, p_itemsProcessed req with
  | Some taskId, Some chunkIndex, Some itemsProcessed =>
      if negb (truthy (Some taskId))
      then (ProgressRejected 400 "taskId, chunkIndex, and itemsProcessed are required", db)
      else
        match findEntry (fun t => (t_id t =? taskId)%string) (tasks db) with
        | None => (ProgressRejected 404 "Task not found", db)
        | Some (taskPos, task) =>
            let sameBucket (entry : Assignment) :=
              ((a_taskId entry =? taskId)%string
               && optZ_eqb (a_chunkIndex entry) (Some chunkIndex))%bool in
            let total := option_map (Z.max 0) (p_totalItems req) in
            let processedRaw := Z.max 0 itemsProcessed in
            let processed := match total with
                             | Some t => Z.min processedRaw t
                             | None => processedRaw
                             end in
            let assignments :=
              match findEntry sameBucket (chunkAssignments db) with
              | Some (pos, assignment) =>
                  replaceAt pos (touchAssignment now req processed assignment)
                    (chunkAssignments db)
              | None => chunkAssignments db
              end in
            let db1 := setChunkAssignments db assignments in
            let sameResult (r : ChunkResult) :=
              ((r_taskId r =? taskId)%string && (r_chunkIndex r =? chunkIndex))%bool in
            let '(resultPos, resultEntry, db2) :=
              match findEntry sameResult (chunkResults db1) with
              | Some (pos, entry) => (pos, entry, db1)
              | None =>
                  let (id, db') := drawId nanoid db1 in
                  let entry := freshResult now id taskId chunkIndex req processed total in
                  (List.length (chunkResults db'), entry,
                   setChunkResults db' (chunkResults db' ++ [entry])%list)
              end in
            let merged := mergeProgress now req processed total resultEntry in
            let db3 :=
              setChunkResults db2 (replaceAt resultPos merged (chunkResults db2)) in
            let task' := computeProgress task db3 in
            (ProgressRecorded processed total,
             setTasks db3 (replaceAt taskPos task' (tasks db3)))
        end
  | _, _, _ =>
      (ProgressRejected 400 "taskId, chunkIndex, and itemsProcessed are required", db)
  end.

End Endpoints.

(** ** Bucket planner: selection *)

(** [function indexCovered(index, ranges)]. *)
Definition indexCovered (index : Z) (ranges : list (Z * Z)) : bool :=
  existsb (fun range => ((fst range <=? index) && (index <? snd range))%bool) ranges.

(** [function collectRanges(entries)], given how an entry's range is
    normalised. *)
Definition collectRanges {A : Type} (rangeOf : A -> option (Z * Z))
    (entries : list A) : list (Z * Z) :=
  flat_map (fun entry => match rangeOf entry with
                         | Some range => [range]
                         | None => []
                         end)
    entries.

(** The variables of the [while] loop of [calculateBucket]. *)
Record BucketScan := {
  k_maxBuckets : Z;
  k_maxBucketBytes : Z;
  k_configChanged : bool;
  k_limit : Z;
  k_bytesUsed : Z;
  k_end : Z
}.

Record Bucket := {
  bk_rangeStart : Z;
  bk_rangeEnd : Z;
  bk_bytesUsed : Z
}.

(** Lines 863-890; [sizes] are the sizes of the items from position
    [k_end] on, so the loop guard [end < total] is [sizes] being non-empty. *)
Fixpoint scanBucket (covered : Z -> bool) (start : Z) (sizes : list Z)
    (st : BucketScan) : BucketScan :=
  match sizes with
  | [] => st
  | size :: rest =>
      if covered (k_end st) then st
      else
        let st1 :=
          if k_limit st <? size then
            let fit := ensureItemFits (k_maxBuckets st) (k_maxBucketBytes st) size in
            if f_changed fit
            then {| k_maxBuckets := f_maxBuckets fit;
                    k_maxBucketBytes := f_maxBucketBytes fit;
                    k_configChanged := true;
                    k_limit := f_maxBucketBytes fit;
                    k_bytesUsed := k_bytesUsed st; k_end := k_end st |}
            else st
          else st in
        if k_limit st1 <? size then
          if k_end st1 =? start
          then {| k_maxBuckets := k_maxBuckets st1;
                  k_maxBucketBytes := k_maxBucketBytes st1;
                  k_configChanged := k_configChanged st1;
                  k_limit := k_limit st1;
                  k_bytesUsed := size; k_end := start + 1 |}
          else st1
        else if ((0 <? k_bytesUsed st1)
                 && (k_limit st1 <? k_bytesUsed st1 + size))%bool
        then st1
        else
          let st2 := {| k_maxBuckets := k_maxBuckets st1;
                        k_maxBucketBytes := k_maxBucketBytes st1;
                        k_configChanged := k_configChanged st1;
                        k_limit := k_limit st1;
                        k_bytesUsed := k_bytesUsed st1 + size;
                        k_end := k_end st1 + 1 |} in
          if k_limit st2 <=? k_bytesUsed st2 then st2
          else scanBucket covered start rest st2
  end.

(** [function calculateBucket(task, items, finishedRanges, assignedRanges)]
    on the item sizes; [maxBuckets] and [maxBucketBytes] are the fields of
    [task.bucketConfig], which [ensureBucketConfig] has filled in.  The
    result carries the configuration as the function leaves it. *)
Definition calculateBucket (maxBuckets0 maxBucketBytes0 : Z) (itemSizes : list Z)
    (finishedRanges assignedRanges : list (Z * Z)) : option (Bucket * FitState) :=
  let total := Z.of_nat (List.length itemSizes) in
  let covered (i : Z) :=
    (indexCovered i finishedRanges || indexCovered i assignedRanges)%bool in
  match find (fun i => negb (covered (Z.of_nat i))) (seq 0 (List.length itemSizes)) with
  | None => None
  | Some startPos =>
      let start := Z.of_nat startPos in
      let firstSize := nth startPos itemSizes 0 in
      let fit := ensureItemFits maxBuckets0 maxBucketBytes0 firstSize in
      let st :=
        scanBucket covered start (skipn startPos itemSizes)
          {| k_maxBuckets := f_maxBuckets fit;
             k_maxBucketBytes := f_maxBucketBytes fit;
             k_configChanged := f_changed fit;
             k_limit := f_maxBucketBytes fit;
             k_bytesUsed := 0; k_end := start |} in
      let '(bytesUsed, stop) :=
        if k_end st =? start then (firstSize, start + 1)
        else (k_bytesUsed st, k_end st) in
      Some ({| bk_rangeStart := start; bk_rangeEnd := Z.min stop total;
               bk_bytesUsed := bytesUsed |},
            {| f_maxBuckets := k_maxBuckets st;
               f_maxBucketBytes := k_maxBucketBytes st;
               f_changed := k_configChanged st |})
  end.

(** ** Assignment allocator: [next-chunk] *)

Section Allocator.

Variable nanoid : nat -> string.
Variable DISABLE_BUDGET_CHECKS : bool.
Variable Item : Type.
Variable byteLength : Item -> option Z.

Record NextChunkReq := {
  n_taskId : option string;
  n_workerId : option string
}.

Record Grant := {
  g_chunkIndex : Z;
  g_chunkData : list Item;
  g_rangeStart : Z;
  g_rangeEnd : Z;
  g_totalItems : Z;
  g_bucketBytes : option Z;
  g_maxBucketBytes : Z;
  g_resume : bool;
  g_processedCount : option Z
}.

Inductive NextChunkReply :=
| NextRejected (status : Z) (error : string)
| NextRefused (message : string)
| NextGranted (grant : Grant).

(** [entry.assignedAt ? Date.parse(entry.assignedAt) : 0]. *)
Definition assignedTime (entry : Assignment) : Z :=
  match a_assignedAt entry with
  | Some t => t
  | None => 0
  end.

(** The backward loop of lines 1422-1442.  The entries after [entry] are
    visited first; the result is the collection as the loop leaves it and
    [existingResumeAssignment], with its position in that collection. *)
Fixpoint resumeScan (taskId workerId : string) (finishedResults : list ChunkResult)
    (assignments : list Assignment) : list Assignment * option (nat * Assignment) :=
  match assignments with
  | [] => ([], None)
  | entry :: rest =>
      let (kept, existing) := resumeScan taskId workerId finishedResults rest in
      let skip :=
        (entry :: kept,
         match existing with
         | Some (pos, e) => Some (S pos, e)
         | None => None
         end) in
      if negb (a_taskId entry =? taskId)%string then skip
      else if negb (optString_eqb (a_workerId entry) (Some workerId)) then skip
      else
        let relatedResult :=
          find (fun result =>
                  ((r_taskId result =? taskId)%string
                   && optZ_eqb (Some (r_chunkIndex result)) (a_chunkIndex entry))%bool)
            finishedResults in
        let finished := match relatedResult with
                        | Some result => finishedStatus (r_status result)
                        | None => false
                        end in
        if finished then (kept, existing)
        else
          match existing with
          | None => (entry :: kept, Some (O, entry))
          | Some (pos, e) =>
              if assignedTime entry <? assignedTime e
              then (entry :: kept, Some (O, entry))
              else (entry :: kept, Some (S pos, e))
          end
  end.

(** [dataItems.slice(start, stop)]. *)
Definition slice {A : Type} (start stop : Z) (l : list A) : list A :=
  firstn (Z.to_nat (stop - start)) (skipn (Z.to_nat start) l).

(** The lease as lines 1466-1468 leave it. *)
Definition refreshLease (now : Z) (workerId : string) (entry : Assignment)
    : Assignment :=
  {| a_id := a_id entry; a_taskId := a_taskId entry;
     a_chunkIndex := a_chunkIndex entry;
     a_workerId := if truthy (a_workerId entry) then a_workerId entry
                   else Some workerId;
     a_assignedAt := a_assignedAt entry;
     a_expiresAt := Some (now + BUCKET_TIMEOUT_MS);
     a_rangeStart := a_rangeStart entry; a_rangeEnd := a_rangeEnd entry;
     a_itemsCount := a_itemsCount entry;
     a_processedCount := a_processedCount entry;
     a_progressRangeEnd := a_progressRangeEnd entry;
     a_bytesUsed := a_bytesUsed entry;
     a_lastBatchOffset := a_lastBatchOffset entry;
     a_lastBatchSize := a_lastBatchSize entry;
     a_updatedAt := Some now |}.

(** The range that a resumed lease is answered with, lines 1453-1463. *)
Definition resumeBounds (total : Z) (entry : Assignment) : Z * Z :=
  let resumeRange := assignmentRange entry in
  let resumeStart :=
    match nullish (option_map fst resumeRange)
            (nullish (a_rangeStart entry) (nullish (a_chunkIndex entry) (Some 0))) with
    | Some v => v
    | None => 0
    end in
  let resumeEnd :=
    match nullish (option_map snd resumeRange)
            (nullish (a_rangeEnd entry) (Some resumeStart)) with
    | Some v => v
    | None => resumeStart
    end in
  let safeStart := Z.max 0 (Z.min resumeStart total) in
  let safeEnd := Z.max safeStart (Z.min resumeEnd total) in
  if safeEnd <=? safeStart then
    let fallbackCount := match a_itemsCount entry with
                         | Some c => Z.max 1 c
                         | None => 1
                         end in
    (safeStart, Z.min total (safeStart + fallbackCount))
  else (safeStart, safeEnd).

Definition setTotalItems (task : Task) (totalItems : Z) : Task :=
  {| t_id := t_id task; t_status := t_status task;
     t_creatorId := t_creatorId task;
     t_creatorSessionId := t_creatorSessionId task;
     t_costPerChunk := t_costPerChunk task; t_creditCost := t_creditCost task;
     t_maxBillableChunks := t_maxBillableChunks task;
     t_totalChunks := t_totalChunks task; t_budgetTotal := t_budgetTotal task;
     t_chunksPaid := t_chunksPaid task; t_budgetSpent := t_budgetSpent task;
     t_platformFeePercent := t_platformFeePercent task;
     t_bucketConfig := t_bucketConfig task;
     t_maxBucketBytes := t_maxBucketBytes task;
     t_totalItems := Some totalItems;
     t_processedChunks := t_processedChunks task;
     t_processedItems := t_processedItems task; t_progress := t_progress task;
     t_nextChunkIndex := t_nextChunkIndex task;
     t_assignedWorkers := t_assignedWorkers task; t_revoked := t_revoked task |}.

(** The task after [calculateBucket] and lines 1509-1532. *)
Definition leasedTask (task : Task) (cfg : FitState) (nextChunkIndex : Z)
    (workers : list string) : Task :=
  {| t_id := t_id task; t_status := "processing";
     t_creatorId := t_creatorId task;
     t_creatorSessionId := t_creatorSessionId task;
     t_costPerChunk := t_costPerChunk task; t_creditCost := t_creditCost task;
     t_maxBillableChunks := t_maxBillableChunks task;
     t_totalChunks := if f_changed cfg then Some (f_maxBuckets cfg)
                      else t_totalChunks task;
     t_budgetTotal := t_budgetTotal task;
     t_chunksPaid := t_chunksPaid task; t_budgetSpent := t_budgetSpent task;
     t_platformFeePercent := t_platformFeePercent task;
     t_bucketConfig := Some {| maxBuckets := Some (f_maxBuckets cfg);
                               maxBucketBytes := Some (f_maxBucketBytes cfg) |};
     t_maxBucketBytes := if f_changed cfg then Some (f_maxBucketBytes cfg)
                         else t_maxBucketBytes task;
     t_totalItems := t_totalItems task;
     t_processedChunks := t_processedChunks task;
     t_processedItems := t_processedItems task; t_progress := t_progress task;
     t_nextChunkIndex := Some nextChunkIndex;
     t_assignedWorkers := Some workers; t_revoked := t_revoked task |}.

(** [app.post('/api/worker/next-chunk')]; [dataItems] is what
    [readTaskItems(task)] reads from the task's data file. *)
Definition nextChunk (now : Z) (db : Db) (dataItems : list Item)
    (req : NextChunkReq) : NextChunkReply * Db :=
  match n_taskId req, n_workerId req with
  | Some taskId, Some workerId =>
      if (negb (truthy (Some taskId)) || negb (truthy (Some workerId)))%bool
      then (NextRejected 400 "taskId and workerId required", db)
      else
        match findEntry (fun t => (t_id t =? taskId)%string) (tasks db) with
        | None => (NextRejected 404 "Task not found", db)
        | Some (taskPos, task) =>
            let assignedWorkers := match t_assignedWorkers task with
                                   | Some ws => ws
                                   | None => []
                                   end in
            if t_revoked task then (NextRefused "revoked", db)
            else if negb (existsb (fun w => (w =? workerId)%string) assignedWorkers)
            then (NextRefused "not-assigned", db)
            else
              let budgetInfo := resolveTaskBudget task in
              let db1 := sweepExpiredAssignments now db (t_id task) in
              let (kept, existingResumeAssignment) :=
                resumeScan taskId workerId (chunkResults db1) (chunkAssignments db1) in
              let db2 := setChunkAssignments db1 kept in
              let activeAssignments :=
                filter (fun a => (a_taskId a =? taskId)%string) kept in
              match dataItems with
              | [] => (NextRejected 400 "No data items available for task", db2)
              | _ =>
                  let total := Z.of_nat (List.length dataItems) in
                  let task1 := setTotalItems task total in
                  let cfg := fitBucketConfig byteLength task1 dataItems in
                  let task2 := snd (ensureBucketConfig byteLength task1 dataItems) in
                  match existingResumeAssignment with
                  | Some (pos, existing) =>
                      let (safeStart, safeEnd) := resumeBounds total existing in
                      let chunkData := slice safeStart safeEnd dataItems in
                      let refreshed := refreshLease now workerId existing in
                      (NextGranted
                         {| g_chunkIndex := match a_chunkIndex existing with
                                            | Some c => c
                                            | None => safeStart
                                            end;
                            g_chunkData := chunkData;
                            g_rangeStart := safeStart;
                            g_rangeEnd := safeEnd;
                            g_totalItems := total;
                            g_bucketBytes :=
                              match a_bytesUsed existing with
                              | Some b => if b =? 0 then None else Some b
                              | None => None
                              end;
                            g_maxBucketBytes := f_maxBucketBytes cfg;
                            g_resume := true;
                            g_processedCount := a_processedCount existing |},
                       setTasks
                         (setChunkAssignments db2 (replaceAt pos refreshed kept))
                         (replaceAt taskPos task2 (tasks db2)))
                  | None =>
                      let dbT := setTasks db2 (replaceAt taskPos task2 (tasks db2)) in
                      let taskCustomer :=
                        findUserBySessionId db (orElse (t_creatorId task) None) in
                      if (negb DISABLE_BUDGET_CHECKS
                          && (0 <? b_maxBillableChunks budgetInfo)
                          && (b_maxBillableChunks budgetInfo
                              <=? b_chunksPaid budgetInfo
                                  + Z.of_nat (List.length activeAssignments)))%bool
                      then (NextRefused "budget-exhausted", dbT)
                      else if (negb DISABLE_BUDGET_CHECKS
                               && match taskCustomer with
                                  | Some c =>
                                      match nth_error (users db) c with
                                      | Some u => Qltb (u_walletBalance u)
                                                    (b_costPerChunk budgetInfo)
                                      | None => false
                                      end
                                  | None => false
                                  end)%bool
                      then (NextRefused "insufficient-funds", dbT)
                      else
                        let finishedRanges :=
                          collectRanges resultRange
                            (filter (fun r => (r_taskId r =? taskId)%string)
                               (chunkResults db2)) in
                        let assignedRanges :=
                          collectRanges assignmentRange activeAssignments in
                        let itemSizes :=
                          map (fun item => match byteLength item with
                                           | Some len => len
                                           | None => 0
                                           end)
                            dataItems in
                        match calculateBucket (f_maxBuckets cfg) (f_maxBucketBytes cfg)
                                itemSizes finishedRanges assignedRanges with
                        | None => (NextRefused "no-chunk", dbT)
                        | Some (bucket, cfg') =>
                            let chunkIndex := match t_nextChunkIndex task2 with
                                              | Some n => n
                                              | None => 0
                                              end in
                            let (id, db3) := drawId nanoid dbT in
                            let lease :=
                              {| a_id := id; a_taskId := taskId;
                                 a_chunkIndex := Some chunkIndex;
                                 a_workerId := Some workerId;
                                 a_assignedAt := Some now;
                                 a_expiresAt := Some (now + BUCKET_TIMEOUT_MS);
                                 a_rangeStart := Some (bk_rangeStart bucket);
                                 a_rangeEnd := Some (bk_rangeEnd bucket);
                                 a_itemsCount :=
                                   Some (bk_rangeEnd bucket - bk_rangeStart bucket);
                                 a_processedCount := Some 0;
                                 a_progressRangeEnd := Some (bk_rangeStart bucket);
                                 a_bytesUsed := Some (bk_bytesUsed bucket);
                                 a_lastBatchOffset := Some 0;
                                 a_lastBatchSize := Some 0;
                                 a_updatedAt := Some now |} in
                            let task3 :=
                              leasedTask task2 cfg' (chunkIndex + 1) assignedWorkers in
                            (NextGranted
                               {| g_chunkIndex := chunkIndex;
                                  g_chunkData :=
                                    slice (bk_rangeStart bucket) (bk_rangeEnd bucket)
                                      dataItems;
                                  g_rangeStart := bk_rangeStart bucket;
                                  g_rangeEnd := bk_rangeEnd bucket;
                                  g_totalItems := total;
                                  g_bucketBytes := Some (bk_bytesUsed bucket);
                                  g_maxBucketBytes := f_maxBucketBytes cfg';
                                  g_resume := false;
                                  g_processedCount := None |},
                             setTasks
                               (setChunkAssignments db3 (kept ++ [lease])%list)
                               (replaceAt taskPos task3 (tasks db3)))
                        end
                  end
              end
        end
  | _, _ => (NextRejected 400 "taskId and workerId required", db)
  end.

End Allocator.

(** ** Vocabulary of the statements below *)







(** The part of the store that holds money. *)
Definition ledgerOf (db : Db) : list User * list WalletTransaction * Q :=
  (users db, walletTransactions db, platformLedger db).

(** An amount that the wallet endpoints refuse for its size or sign. *)
Definition outOfRange (amount : option Q) : Prop :=
  match normalizeCurrencyAmount amount with
  | None => True
  | Some normalized => (normalized <= 0)%Q \/ (1000000 < normalized)%Q
  end.

(** The result stored for a bucket, and its [processedItems] read the way
    line 1862 reads it. *)
Definition storedResult (db : Db) (taskId : string) (chunkIndex : Z)
    : option ChunkResult :=
  find (fun r => ((r_taskId r =? taskId)%string && (r_chunkIndex r =? chunkIndex))%bool)
    (chunkResults db).

Definition storedProcessed (db : Db) (taskId : string) (chunkIndex : Z) : Z :=
  match storedResult db taskId chunkIndex with
  | Some r => match r_processedItems r with
              | Some n => n
              | None => 0
              end
  | None => 0
  end.

(** The count that a terminal result installs as [processedItems]. *)
Definition terminalCount (req : RecordChunkReq) : Z :=
  let sanitizedItems := s_items (sanitizeItemResults (q_itemResults req)) in
  match resolvedItemsCount (q_itemsCount req) (q_rangeStart req) (q_rangeEnd req)
          sanitizedItems with
  | Some n => n
  | None => Z.of_nat (List.length sanitizedItems)
  end.

(** A sequence of progress batches, each with the time of its arrival. *)
Definition runProgress (nanoid : nat -> string) (db : Db)
    (batches : list (Z * RecordProgressReq)) : Db :=
  fold_left (fun db batch => snd (recordProgress nanoid (fst batch) db (snd batch)))
    batches db.

(** The status that the worker runner of the repository sends with a
    terminal result, from the counts it keeps per item status. *)
Definition statusToSend (failedCount completedCount : nat) : string :=
  if (0 <? failedCount)%nat then "failed"
  else if (0 <? completedCount)%nat then "completed"
  else "skipped".

Definition countStatus (status : string) (items : list ItemFields) : nat :=
  List.length (filter (fun item => js_is (f_status item) status) items).

(** A lease of the pair, and a lease whose bucket already has a terminal
    result. *)
Definition isPair (taskId workerId : string) (entry : Assignment) : bool :=
  ((a_taskId entry =? taskId)%string
   && optString_eqb (a_workerId entry) (Some workerId))%bool.

Definition hasTerminalResult (taskId : string) (results : list ChunkResult)
    (entry : Assignment) : bool :=
  match find (fun result =>
                ((r_taskId result =? taskId)%string
                 && optZ_eqb (Some (r_chunkIndex result)) (a_chunkIndex entry))%bool)
          results with
  | Some result => finishedStatus (r_status result)
  | None => false
  end.

(** ** Sample stores and requests

    A customer with 20 credits and one task over the items 1 to 10, in
    buckets of at most 2 bytes, claimed by the workers [w1] and [w2]; the
    cost per bucket and the fee percentage vary. *)

Definition sampleNanoid (n : nat) : string :=
  ("id-" ++ Number_toString (Z.of_nat n))%string.

Definition sampleCustomer : User :=
  {| u_id := "u-customer"; u_sessionId := "customer"; u_walletBalance := 20%Q;
     u_roles := ["customer"; "worker"]; u_createdAt := 0; u_updatedAt := 0 |}.

Definition sampleTask (cost feePercent : Q) : Task :=
  {| t_id := "task-1"; t_status := "processing";
     t_creatorId := Some "customer"; t_creatorSessionId := None;
     t_costPerChunk := Some cost; t_creditCost := Some cost;
     t_maxBillableChunks := Some 5; t_totalChunks := Some 5;
     t_budgetTotal := Some (cost * 5)%Q; t_chunksPaid := Some 0;
     t_budgetSpent := Some 0%Q; t_platformFeePercent := Some feePercent;
     t_bucketConfig := Some {| maxBuckets := Some 5; maxBucketBytes := Some 2 |};
     t_maxBucketBytes := Some 2; t_totalItems := Some 10;
     t_processedChunks := 0; t_processedItems := 0; t_progress := 0;
     t_nextChunkIndex := Some 0; t_assignedWorkers := Some ["w1"; "w2"];
     t_revoked := false |}.

Definition sampleDb (cost feePercent : Q) : Db :=
  {| tasks := [sampleTask cost feePercent]; chunkResults := [];
     chunkAssignments := []; users := [sampleCustomer];
     walletTransactions := []; platformLedger := 0%Q; nanoidCount := 0 |}.

(** A stored result of bucket 0 of the sample task. *)
Definition sampleResult (status : string) (paid : bool) : ChunkResult :=
  {| r_id := "r-0"; r_taskId := "task-1"; r_chunkIndex := 0;
     r_status := status; r_resultText := None;
     r_createdAt := 0; r_updatedAt := 0;
     r_rangeStart := Some 0; r_rangeEnd := Some 2; r_itemsCount := Some 2;
     r_bytesUsed := None; r_output := None; r_error := None;
     r_itemResults := []; r_itemResultsTotal := Some 0;
     r_itemResultsTruncated := false; r_processedItems := Some 2;
     r_workerId := None; r_payoutIssued := paid; r_payoutAt := None |}.

(** A progress batch for bucket [chunkIndex] over [rangeStart ..]. *)
Definition sampleProgress (chunkIndex rangeStart itemsProcessed totalItems : Z)
    : RecordProgressReq :=
  {| p_taskId := Some "task-1"; p_chunkIndex := Some chunkIndex;
     p_workerId := Some "w1"; p_rangeStart := Some rangeStart;
     p_itemsProcessed := Some itemsProcessed; p_totalItems := Some totalItems;
     p_bytesUsed := None; p_item := None; p_items := None;
     p_batchOffset := None; p_batchSize := None |}.

Definition sampleItem (localIndex : Z) (status : string) : RawItem :=
  ItemObject
    {| f_globalIndex := JUndefined; f_localIndex := JNum localIndex;
       f_status := JStr status; f_inputPreview := JStr "in";
       f_input := JUndefined; f_inputValue := JUndefined;
       f_output := JStr "out"; f_error := JUndefined |}.

(** A terminal result for bucket [chunkIndex] over [rangeStart, rangeEnd). *)
Definition sampleChunk (chunkIndex : Z) (status : string)
    (rangeStart rangeEnd itemsCount : option Z) (items : list RawItem)
    : RecordChunkReq :=
  {| q_taskId := Some "task-1"; q_chunkIndex := Some chunkIndex;
     q_status := Some status; q_resultText := None;
     q_rangeStart := rangeStart; q_rangeEnd := rangeEnd;
     q_itemsCount := itemsCount; q_bytesUsed := None;
     q_output := JUndefined; q_error := JUndefined;
     q_itemResults := Some items; q_workerId := Some "w1" |}.

Definition sampleLease (id : string) (chunkIndex : Z) (workerId : string)
    (assignedAt rangeStart rangeEnd : Z) : Assignment :=
  {| a_id := id; a_taskId := "task-1"; a_chunkIndex := Some chunkIndex;
     a_workerId := Some workerId; a_assignedAt := Some assignedAt;
     a_expiresAt := Some (assignedAt + BUCKET_TIMEOUT_MS);
     a_rangeStart := Some rangeStart; a_rangeEnd := Some rangeEnd;
     a_itemsCount := Some (rangeEnd - rangeStart); a_processedCount := Some 0;
     a_progressRangeEnd := Some rangeStart; a_bytesUsed := Some 2;
     a_lastBatchOffset := Some 0; a_lastBatchSize := Some 0;
     a_updatedAt := Some assignedAt |}.

Definition withLeases (db : Db) (leases : list Assignment) : Db :=
  setChunkAssignments db leases.

(** The ten items of the sample task; a number is serialised as its
    decimal digits. *)
Definition sampleItems : list Z := [1; 2; 3; 4; 5; 6; 7; 8; 9; 10].

Definition sampleByteLength (item : Z) : option Z :=
  Some (Z.of_nat (String.length (Number_toString item))).

Definition sampleNext (workerId : string) : NextChunkReq :=
  {| n_taskId := Some "task-1"; n_workerId := Some workerId |}.

(** The sample store after worker [w1] has streamed the two items of
    bucket 0 and recorded it as [completed]. *)
Definition sampleSettled (cost feePercent : Q) : Db :=
  snd (recordChunk sampleNanoid true 10 2000
         (snd (recordProgress sampleNanoid 1000 (sampleDb cost feePercent)
                 (sampleProgress 0 0 2 2)))
         (sampleChunk 0 "completed" (Some 0) (Some 2) (Some 2)
            [sampleItem 0 "completed"; sampleItem 1 "completed"])).

(** The sample store after [w1] has streamed bucket 0 and then recorded it
    with the given request. *)
Definition sampleRecorded (req : RecordChunkReq) : Db :=
  snd (recordChunk sampleNanoid true 10 2000
         (snd (recordProgress sampleNanoid 1000 (sampleDb 2 10)
                 (sampleProgress 0 0 2 2)))
         req).

(** The sample store after [w1] has streamed four items of bucket 0. *)
Definition sampleStreamed : Db :=
  snd (recordProgress sampleNanoid 1000 (sampleDb 2 10) (sampleProgress 0 0 4 4)).


(** [w1] is granted bucket 0, [w2] is granted bucket 1, then [w1] posts a
    progress batch for bucket 1, which hands that lease to [w1]. *)
Definition sampleTwoLeases : Db :=
  snd (recordProgress sampleNanoid 1200
         (snd (nextChunk sampleNanoid true sampleByteLength 1100
                 (snd (nextChunk sampleNanoid true sampleByteLength 1000
                         (sampleDb 2 10) sampleItems (sampleNext "w1")))
                 sampleItems (sampleNext "w2")))
         (sampleProgress 1 2 0 2)).

From Stdlib Require Import Sorted Permutation.

(** ** Task lifecycle: [claim], [drop], [revoke], [reinvoke], [DELETE] *)

(** The task after a handler has written [status], [assignedWorkers] and
    [revoked]. *)
Definition setParticipation (task : Task) (status : string)
    (workers : option (list string)) (revoked : bool) : Task :=
  {| t_id := t_id task; t_status := status;
     t_creatorId := t_creatorId task;
     t_creatorSessionId := t_creatorSessionId task;
     t_costPerChunk := t_costPerChunk task; t_creditCost := t_creditCost task;
     t_maxBillableChunks := t_maxBillableChunks task;
     t_totalChunks := t_totalChunks task; t_budgetTotal := t_budgetTotal task;
     t_chunksPaid := t_chunksPaid task; t_budgetSpent := t_budgetSpent task;
     t_platformFeePercent := t_platformFeePercent task;
     t_bucketConfig := t_bucketConfig task;
     t_maxBucketBytes := t_maxBucketBytes task;
     t_totalItems := t_totalItems task;
     t_processedChunks := t_processedChunks task;
     t_processedItems := t_processedItems task; t_progress := t_progress task;
     t_nextChunkIndex := t_nextChunkIndex task;
     t_assignedWorkers := workers; t_revoked := revoked |}.

(** [array.splice(i, 1)]. *)
Fixpoint removeAt {A : Type} (i : nat) (l : list A) : list A :=
  match l, i with
  | [], _ => []
  | _ :: rest, O => rest
  | x :: rest, S j => x :: removeAt j rest
  end.

(** What the lifecycle handlers answer: an error status, [{ ok: false,
    message }], [{ task }] (claim), [{ ok: true, task }] or [{ ok: true }]
    (delete).  The task is carried as stored. *)
Inductive TaskReply :=
| TaskRejected (status : Z) (error : string)
| TaskRefused (message : string)
| TaskClaimed (task : Task)
| TaskOk (task : Task)
| TaskDeleted.

Section Lifecycle.

Variable nanoid : nat -> string.

(** [app.post("/api/tasks/:taskId/claim")]; [workerId] is [None] when the
    body has none. *)
Definition claimTask (now : Z) (db : Db) (taskId : string)
    (workerId : option string) : TaskReply * Db :=
  match findEntry (fun t => (t_id t =? taskId)%string) (tasks db) with
  | None => (TaskRejected 404 "Task not found", db)
  | Some (taskPos, task) =>
      if t_revoked task then (TaskRefused "revoked", db)
      else
        let workers := match t_assignedWorkers task with
                       | Some ws => ws
                       | None => []
                       end in
        let '(workers', db1) :=
          match workerId with
          | Some w =>
              if (truthy workerId
                  && negb (existsb (fun x => (x =? w)%string) workers))%bool
              then ((workers ++ [w])%list,
                    snd (ensureWorkerUser nanoid now db workerId))
              else (workers, db)
          | None => (workers, db)
          end in
        let task' :=
          setParticipation task
            (if (t_status task =? "queued")%string then "processing"
             else t_status task)
            (Some workers') (t_revoked task) in
        (TaskClaimed task', setTasks db1 (replaceAt taskPos task' (tasks db1)))
  end.

(** [app.post('/api/tasks/:taskId/drop')]. *)
Definition dropTask (db : Db) (taskId : string) (workerId : option string)
    : TaskReply * Db :=
  match workerId with
  | Some w =>
      if negb (truthy workerId) then (TaskRejected 400 "workerId required", db)
      else
        match findEntry (fun t => (t_id t =? taskId)%string) (tasks db) with
        | None => (TaskRejected 404 "Task not found", db)
        | Some (taskPos, task) =>
            let workers :=
              match t_assignedWorkers task with
              | Some ws => filter (fun x => negb (x =? w)%string) ws
              | None => []
              end in
            let task' :=
              setParticipation task (t_status task) (Some workers)
                (t_revoked task) in
            let assignments :=
              filter (fun a =>
                        negb ((a_taskId a =? t_id task)%string
                              && optString_eqb (a_workerId a) (Some w)))
                (chunkAssignments db) in
            (TaskOk task',
             setChunkAssignments
               (setTasks db (replaceAt taskPos task' (tasks db))) assignments)
        end
  | None => (TaskRejected 400 "workerId required", db)
  end.

(** [app.post('/api/tasks/:taskId/revoke')]. *)
Definition revokeTask (db : Db) (taskId : string) : TaskReply * Db :=
  match findEntry (fun t => (t_id t =? taskId)%string) (tasks db) with
  | None => (TaskRejected 404 "Task not found", db)
  | Some (taskPos, task) =>
      let task' := setParticipation task (t_status task) (Some []) true in
      let assignments :=
        filter (fun a => negb (a_taskId a =? t_id task)%string)
          (chunkAssignments db) in
      (TaskOk task',
       setChunkAssignments
         (setTasks db (replaceAt taskPos task' (tasks db))) assignments)
  end.

(** [app.post('/api/tasks/:taskId/reinvoke')]. *)
Definition reinvokeTask (db : Db) (taskId : string) : TaskReply * Db :=
  match findEntry (fun t => (t_id t =? taskId)%string) (tasks db) with
  | None => (TaskRejected 404 "Task not found", db)
  | Some (taskPos, task) =>
      let task' :=
        setParticipation task (t_status task) (t_assignedWorkers task) false in
      (TaskOk task', setTasks db (replaceAt taskPos task' (tasks db)))
  end.

(** [app.delete('/api/tasks/:taskId')], on the store; the removal of the
    task's storage folder touches the file system only. *)
Definition deleteTask (db : Db) (taskId : string) : TaskReply * Db :=
  match findIndex (fun t => (t_id t =? taskId)%string) (tasks db) with
  | None => (TaskRejected 404 "Task not found", db)
  | Some taskIndex =>
      (TaskDeleted,
       setChunkAssignments
         (setChunkResults
            (setTasks db (removeAt taskIndex (tasks db)))
            (filter (fun r => negb (r_taskId r =? taskId)%string)
               (chunkResults db)))
         (filter (fun a => negb (a_taskId a =? taskId)%string)
            (chunkAssignments db)))
  end.

End Lifecycle.

(** ** Worker liveness: [heartbeat], [online] and the periodic sweep *)

Definition WORKER_TIMEOUT_MS : Z := 20 * 60 * 1000.

(** [workerHeartbeats], a [Map] from worker id to the time of the last
    heartbeat, as its entries in insertion order. *)
Definition Heartbeats := list (string * Z).

(** [map.get(key)], [map.set(key, value)] and [map.delete(key)]. *)
Definition Map_get (m : Heartbeats) (key : string) : option Z :=
  option_map snd (find (fun e => (fst e =? key)%string) m).

Definition Map_set (m : Heartbeats) (key : string) (value : Z) : Heartbeats :=
  if existsb (fun e => (fst e =? key)%string) m
  then map (fun e => if (fst e =? key)%string then (key, value) else e) m
  else (m ++ [(key, value)])%list.

Definition Map_delete (m : Heartbeats) (key : string) : Heartbeats :=
  filter (fun e => negb (fst e =? key)%string) m.

Inductive HeartbeatReply :=
| HeartbeatRejected (status : Z) (error : string)
| HeartbeatOk (serverTime : Z).

(** [app.post('/api/worker/heartbeat')]. *)
Definition workerHeartbeat (now : Z) (hb : Heartbeats) (workerId : option string)
    : HeartbeatReply * Heartbeats :=
  match workerId with
  | Some w =>
      if negb (truthy workerId)
      then (HeartbeatRejected 400 "workerId required", hb)
      else (HeartbeatOk now, Map_set hb w now)
  | None => (HeartbeatRejected 400 "workerId required", hb)
  end.

Inductive OnlineReply :=
| OnlineRejected (status : Z) (error : string)
| Offline
| Online (lastHeartbeat ageMs : Z).

(** [app.get('/api/worker/online/:workerId')]. *)
Definition workerOnline (now : Z) (hb : Heartbeats) (workerId : string)
    : OnlineReply * Heartbeats :=
  if (workerId =? "")%string then (OnlineRejected 400 "workerId required", hb)
  else
    match Map_get hb workerId with
    | None => (Offline, hb)
    | Some ts =>
        if ts =? 0 then (Offline, hb)
        else
          let delta := now - ts in
          if WORKER_TIMEOUT_MS <? delta
          then (Offline, Map_delete hb workerId)
          else (Online ts delta, hb)
    end.

(** The callback of [setInterval], lines 209-216. *)
Definition sweepHeartbeats (now : Z) (hb : Heartbeats) : Heartbeats :=
  let cutoff := now - WORKER_TIMEOUT_MS * 2 in
  filter (fun e => negb (snd e <? cutoff)) hb.

(** ** Second revision of the backend: the bucket plan

    [server.js] carries a second revision of the backend after the first.
    It plans all buckets of a task at once, [computeBucketPlan], instead of
    choosing one bucket per request. *)

Module Revision2.

(** An entry of [plan.buckets]: the items [start, end) and their bytes. *)
Record PlanBucket := {
  b_start : Z;
  b_end : Z;
  b_byteSize : Z
}.

Record BucketPlan := {
  bucketSizeBytes : Z;
  allowedBuckets : Z;
  buckets : list PlanBucket
}.

(** The largest of the item sizes, the bound of the first loop. *)
Definition largestSize (itemSizes : list Z) : Z := fold_right Z.max 0 itemSizes.

Section Plan.

(** The sizes [itemSizes] of lines 2121-2127. *)
Variable itemSizes : list Z.

(** The first [while (true)] loop, lines 2130-2141: as long as some item is
    larger than [bucketSize], halve [allowedBuckets] and double
    [bucketSize].  [bucketSize] is at least 256 when the loop is entered
    (line 2105), so it is kept as a positive number; each turn brings it
    closer to the largest item by at least its own value. *)
Function fitLoop (allowedBuckets : Z) (bucketSize : positive)
    {measure (fun b => Z.to_nat (largestSize itemSizes - Z.pos b)) bucketSize}
    : Z * positive :=
  if existsb (fun size => Z.pos bucketSize <? size) itemSizes
  then fitLoop (Z.max 1 (allowedBuckets / 2)) (bucketSize * 2)%positive
  else (allowedBuckets, bucketSize).
Proof.
  intros allowedBuckets bucketSize H.
  apply existsb_exists in H. destruct H as [size [Hin Hlt]].
  apply Z.ltb_lt in Hlt.
  assert (Hbound : size <= largestSize itemSizes).
  { clear Hlt. induction itemSizes as [|s rest IH]; [destruct Hin|].
    cbn [largestSize fold_right]. destruct Hin as [->|Hin]; [apply Z.le_max_l|].
    specialize (IH Hin). unfold largestSize in IH. lia. }
  rewrite Pos2Z.inj_mul. lia.
Defined.

(** The [for] loop of lines 2147-2155 from item [i] on, followed by the
    [push] of line 2156; [buckets] is returned in the order of the pushes. *)
Fixpoint packFrom (bucketSize : Z) (i : Z) (sizes : list Z)
    (currentStart currentBytes : Z) : list PlanBucket :=
  match sizes with
  | [] => [{| b_start := currentStart; b_end := i; b_byteSize := currentBytes |}]
  | size :: rest =>
      if ((0 <? currentBytes) && (bucketSize <? currentBytes + size))%bool
      then {| b_start := currentStart; b_end := i; b_byteSize := currentBytes |}
           :: packFrom bucketSize (i + 1) rest i (0 + size)
      else packFrom bucketSize (i + 1) rest currentStart (currentBytes + size)
  end.

(** The second [while (true)] loop, lines 2143-2168. *)
Function planLoop (allowedBuckets : Z) (bucketSize : Z)
    {measure Z.to_nat allowedBuckets} : BucketPlan :=
  if ((Z.of_nat (List.length (packFrom bucketSize 0 itemSizes 0 0)) <=? allowedBuckets)
      || (allowedBuckets <=? 1))%bool
  then {| bucketSizeBytes := bucketSize; allowedBuckets := allowedBuckets;
          buckets := packFrom bucketSize 0 itemSizes 0 0 |}
  else planLoop (Z.max 1 (allowedBuckets / 2)) (bucketSize * 2).
Proof.
  intros allowedBuckets bucketSize H.
  apply orb_false_elim in H. destruct H as [_ H]. apply Z.leb_gt in H.
  assert (allowedBuckets / 2 < allowedBuckets) by (apply Z.div_lt; lia).
  lia.
Defined.

End Plan.

Section Config.

(** [DEFAULT_MAX_BUCKETS] and [DEFAULT_BUCKET_SIZE_BYTES] are read from the
    environment, lines 2001-2002; they are taken to be whole numbers. *)
Variable DEFAULT_MAX_BUCKETS : Z.
Variable DEFAULT_BUCKET_SIZE_BYTES : Z.

(** [Number.isFinite(v) && v > 0 ? Math.floor(v) : fallback]; [None] is a
    value that is not a finite number. *)
Definition positiveOr (v : option Q) (fallback : Z) : Z :=
  match v with
  | Some q => if Qltb 0 q then Qfloor q else fallback
  | None => fallback
  end.

(** [function computeBucketPlan(items, maxBuckets, initialSize)], on the
    sizes [Buffer.byteLength(JSON.stringify(item ?? null))] of the items. *)
Definition computeBucketPlan (itemSizes : list Z) (maxBuckets initialSize : option Q)
    : BucketPlan :=
  let sanitizedMax := Z.max 1 (positiveOr maxBuckets DEFAULT_MAX_BUCKETS) in
  let bucketSize := Z.max 256 (positiveOr initialSize DEFAULT_BUCKET_SIZE_BYTES) in
  match itemSizes with
  | [] =>
      {| bucketSizeBytes := bucketSize; allowedBuckets := sanitizedMax;
         buckets := [{| b_start := 0; b_end := 0; b_byteSize := 0 |}] |}
  | _ =>
      let (allowed, fitted) := fitLoop itemSizes sanitizedMax (Z.to_pos bucketSize) in
      planLoop itemSizes allowed (Z.pos fitted)
  end.

End Config.

(** [buckets] cover [from, to) without gap or overlap, in order. *)
Fixpoint tiles (from to : Z) (buckets : list PlanBucket) : Prop :=
  match buckets with
  | [] => False
  | [bucket] => b_start bucket = from /\ b_end bucket = to
  | bucket :: rest => b_start bucket = from /\ tiles (b_end bucket) to rest
  end.

(** *** Dispatch by index

    The second revision hands out chunk indexes, [next-chunk] at lines
    2385-2449.  Its records carry fewer fields than those of the first
    revision; [totalChunks] is taken to be a whole number. *)

Record IndexTask := {
  id : string;
  status : string;
  totalChunks : option Z;
  assignedWorkers : option (list string)
}.

Record IndexResult := {
  r_taskId : string;
  r_chunkIndex : Z;
  r_status : string
}.

Record IndexLease := {
  l_taskId : string;
  l_chunkIndex : Z;
  l_workerId : string;
  l_assignedAt : Z
}.

Record IndexStore := {
  tasks : list IndexTask;
  chunkResults : list IndexResult;
  chunkAssignments : list IndexLease
}.

(** The loop of lines 2414-2417 over the two sets of lines 2411-2412. *)
Definition firstFree (completed assigned : list Z) (totalChunks : Z) : option Z :=
  find (fun i => (negb (existsb (Z.eqb i) completed)
                  && negb (existsb (Z.eqb i) assigned))%bool)
    (map Z.of_nat (seq 0 (Z.to_nat totalChunks))).

(** [start] and [end] of lines 2437-2438 for [total] items. *)
Definition sliceBounds (chosen total totalChunks : Z) : Z * Z :=
  ((chosen * total) / totalChunks, ((chosen + 1) * total) / totalChunks).

Section Dispatch.

Variable Item : Type.

Inductive NextReply :=
| NextRejected (status : Z) (error : string)
| NoChunk
| Chunk (chunkIndex : Z) (chunkData : option (list Item)).

(** Lines 2391-2405: a task without [totalChunks] takes the number of
    items of its data file. *)
Definition learnTotalChunks (task : IndexTask) (dataItems : option (list Item))
    : IndexTask :=
  let known :=
    match totalChunks task with
    | Some n => negb (n =? 0)
    | None => false
    end in
  match dataItems with
  | Some parsed =>
      if known then task
      else {| id := id task; status := status task;
              totalChunks := Some (Z.of_nat (List.length parsed));
              assignedWorkers := assignedWorkers task |}
  | None => task
  end.

(** [app.post('/api/worker/next-chunk')] of the second revision.
    [dataItems] is the array parsed from the data file of the task, [None]
    when the task has no data file or the file does not hold an array. *)
Definition nextChunk (now : Z) (store : IndexStore) (dataItems : option (list Item))
    (taskId workerId : option string) : NextReply * IndexStore :=
  match taskId, workerId with
  | Some tid, Some wid =>
      if (negb (truthy taskId) || negb (truthy workerId))%bool
      then (NextRejected 400 "taskId and workerId required", store)
      else
        match findEntry (fun t => (id t =? tid)%string) (tasks store) with
        | None => (NextRejected 404 "Task not found", store)
        | Some (pos, task) =>
            let task1 := learnTotalChunks task dataItems in
            let store1 :=
              {| tasks := replaceAt pos task1 (tasks store);
                 chunkResults := chunkResults store;
                 chunkAssignments := chunkAssignments store |} in
            match totalChunks task1 with
            | None => (NextRejected 400 "totalChunks not available for task", store1)
            | Some total =>
                if ((total =? 0) || (total <=? 0))%bool
                then (NextRejected 400 "totalChunks not available for task", store1)
                else
                  let completed :=
                    map r_chunkIndex
                      (filter (fun r => ((r_taskId r =? tid)%string
                                         && finishedStatus (r_status r))%bool)
                         (chunkResults store)) in
                  let assigned :=
                    map l_chunkIndex
                      (filter (fun a => (l_taskId a =? tid)%string)
                         (chunkAssignments store)) in
                  match firstFree completed assigned total with
                  | None => (NoChunk, store1)
                  | Some chosen =>
                      let lease := {| l_taskId := tid; l_chunkIndex := chosen;
                                      l_workerId := wid; l_assignedAt := now |} in
                      let workers := match assignedWorkers task1 with
                                     | Some ws => ws
                                     | None => []
                                     end in
                      let workers' :=
                        if existsb (String.eqb wid) workers then workers
                        else (workers ++ [wid])%list in
                      let task2 := {| id := id task1; status := "processing";
                                      totalChunks := totalChunks task1;
                                      assignedWorkers := Some workers' |} in
                      let chunkData :=
                        match dataItems with
                        | Some parsed =>
                            let bounds :=
                              sliceBounds chosen (Z.of_nat (List.length parsed)) total in
                            Some (slice (fst bounds) (snd bounds) parsed)
                        | None => None
                        end in
                      (Chunk chosen chunkData,
                       {| tasks := replaceAt pos task2 (tasks store);
                          chunkResults := chunkResults store;
                          chunkAssignments := (chunkAssignments store ++ [lease])%list |})
                  end
            end
        end
  | _, _ => (NextRejected 400 "taskId and workerId required", store)
  end.

End Dispatch.

End Revision2.

(** ** Session middleware *)

(** What the middleware hands to the handlers: [req.sessionId],
    [req.currentUser] as a position in [users], whether a [Set-Cookie]
    header is sent and whether the store is saved. *)
Record SessionInit := {
  si_sessionId : string;
  si_user : nat;
  si_setCookie : bool;
  si_persisted : bool
}.

Inductive SessionReply :=
| SessionFailed (status : Z) (error : string)
| SessionReady (init : SessionInit).

Definition withRoles (now : Z) (u : User) (roles : list string) : User :=
  {| u_id := u_id u; u_sessionId := u_sessionId u;
     u_walletBalance := u_walletBalance u; u_roles := roles;
     u_createdAt := u_createdAt u; u_updatedAt := now |}.

Section Session.

Variable nanoid : nat -> string.

(** [DEV_DEFAULT_WALLET], lines 23-25: the credits a new session starts
    with. *)
Variable DEV_DEFAULT_WALLET : Q.

(** The transaction of lines 443-452. *)
Definition seedTransaction (id : string) (user : User) : WalletTransaction :=
  {| tx_id := id; tx_userId := u_id user; tx_sessionId := u_sessionId user;
     tx_type := seed_credit; tx_amount := u_walletBalance user;
     tx_balanceAfter := u_walletBalance user;
     tx_meta := reasonMeta "dev-auto-fund"; tx_createdAt := u_createdAt user |}.

(** Lines 436-458: the user of the session, created and funded when the
    session has none.  A user is a position in [users]; reading through a
    position that is not there stands for the exception that the [catch]
    turns into a 500. *)
Definition sessionUser (now : Z) (db0 : Db) (sessionId : string)
    (shouldPersist setCookie : bool) : SessionReply * Db :=
  match findUserBySessionId db0 (Some sessionId) with
  | None =>
      let (user, db1) :=
        createUser nanoid now db0 (Some sessionId) DEV_DEFAULT_WALLET
          ["customer"; "worker"] in
      match nth_error (users db1) user with
      | None => (SessionFailed 500 "Failed to initialize session", db1)
      | Some u =>
          let (id, db2) := drawId nanoid db1 in
          (SessionReady {| si_sessionId := sessionId; si_user := user;
                           si_setCookie := setCookie; si_persisted := true |},
           pushWalletTransaction db2 (seedTransaction id u))
      end
  | Some user =>
      match nth_error (users db0) user with
      | None => (SessionFailed 500 "Failed to initialize session", db0)
      | Some u =>
          match u_roles u with
          | [] =>
              (SessionReady {| si_sessionId := sessionId; si_user := user;
                               si_setCookie := setCookie; si_persisted := true |},
               setUsers db0
                 (replaceAt user (withRoles now u ["customer"; "worker"]) (users db0)))
          | _ :: _ =>
              (SessionReady {| si_sessionId := sessionId; si_user := user;
                               si_setCookie := setCookie;
                               si_persisted := shouldPersist |},
               db0)
          end
      end
  end.


End Session.

(** ** Stripe webhook *)







Section Stripe.

Variable nanoid : nat -> string.

(** [stripeClient && stripeWebhookSecret], lines 1052-1054. *)
Variable stripeConfigured : bool.



End Stripe.

(** ** Sequences of dispatch operations *)

Section Engine.

Variable nanoid : nat -> string.
Variable DISABLE_BUDGET_CHECKS : bool.
Variable Item : Type.
Variable byteLength : Item -> option Z.

(** A request to one of the handlers that dispatch work and follow it:
    the lifecycle of a task, [next-chunk] and [record-progress]. *)
Inductive EngineOp :=
| OpClaim (taskId : string) (workerId : option string)
| OpDrop (taskId : string) (workerId : option string)
| OpRevoke (taskId : string)
| OpReinvoke (taskId : string)
| OpDelete (taskId : string)
| OpNextChunk (dataItems : list Item) (req : NextChunkReq)
| OpProgress (req : RecordProgressReq).

(** The store after the handler has answered the request at time [now]. *)
Definition runOp (now : Z) (db : Db) (op : EngineOp) : Db :=
  match op with
  | OpClaim taskId workerId => snd (claimTask nanoid now db taskId workerId)
  | OpDrop taskId workerId => snd (dropTask db taskId workerId)
  | OpRevoke taskId => snd (revokeTask db taskId)
  | OpReinvoke taskId => snd (reinvokeTask db taskId)
  | OpDelete taskId => snd (deleteTask db taskId)
  | OpNextChunk dataItems req =>
      snd (nextChunk nanoid DISABLE_BUDGET_CHECKS byteLength now db dataItems req)
  | OpProgress req => snd (recordProgress nanoid now db req)
  end.

(** Requests answered one after the other, each with its time. *)
Definition runOps (db : Db) (ops : list (Z * EngineOp)) : Db :=
  fold_left (fun db op => runOp (fst op) db (snd op)) ops db.

End Engine.

(** ** Further vocabulary *)

(** The configuration step of one turn of the loop of [calculateBucket],
    lines 867-875: the scan state after [ensureItemFits(size)] when the
    item is larger than [limit]. *)
Definition fitForItem (st : BucketScan) (size : Z) : BucketScan :=
  if k_limit st <? size then
    let fit := ensureItemFits (k_maxBuckets st) (k_maxBucketBytes st) size in
    if f_changed fit
    then {| k_maxBuckets := f_maxBuckets fit;
            k_maxBucketBytes := f_maxBucketBytes fit;
            k_configChanged := true;
            k_limit := f_maxBucketBytes fit;
            k_bytesUsed := k_bytesUsed st; k_end := k_end st |}
    else st
  else st.

(** An index that a stored result or a lease of the task already covers. *)
Definition coveredBy (finishedRanges assignedRanges : list (Z * Z)) (i : Z) : bool :=
  (indexCovered i finishedRanges || indexCovered i assignedRanges)%bool.

Definition sumZ (l : list Z) : Z := fold_right Z.add 0 l.

(** The serialised size that [calculateBucket] gives an item, line 822. *)
Definition itemSize {Item : Type} (byteLength : Item -> option Z) (item : Item) : Z :=
  match byteLength item with
  | Some len => len
  | None => 0
  end.

(** The credits held by the users, and by users and platform together. *)
Definition totalBalance (us : list User) : Q :=
  fold_right (fun u acc => (u_walletBalance u + acc)%Q) 0%Q us.

Definition moneyInSystem (db : Db) : Q :=
  (totalBalance (users db) + platformLedger db)%Q.

(** The leases and the stored results of a task. *)
Definition leasesOf (taskId : string) (db : Db) : list Assignment :=
  filter (fun a => (a_taskId a =? taskId)%string) (chunkAssignments db).

Definition resultsOf (taskId : string) (db : Db) : list ChunkResult :=
  filter (fun r => (r_taskId r =? taskId)%string) (chunkResults db).

(** The task stored under an id. *)
Definition storedTask (db : Db) (taskId : string) : option Task :=
  find (fun t => (t_id t =? taskId)%string) (tasks db).








(** The statuses that an item result is stored with. *)
Definition itemStatus (status : string) : Prop :=
  status = "completed" \/ status = "failed" \/ status = "skipped".

(** The lease of a bucket, as [record-progress] looks it up, line 1790. *)
Definition leaseOfBucket (taskId : string) (chunkIndex : Z) (entry : Assignment) : bool :=
  ((a_taskId entry =? taskId)%string && optZ_eqb (a_chunkIndex entry) (Some chunkIndex))%bool.

(** The status that a progress batch leaves on a result, lines 1839-1841. *)
Definition statusAfterProgress (previous : option ChunkResult) : string :=
  match previous with
  | Some entry =>
      if ((r_status entry =? "completed") || (r_status entry =? "failed"))%string
      then r_status entry else "processing"
  | None => "processing"
  end.

(** The sample store after [w1] has streamed bucket 0 over [0, 2) and a
    second worker bucket 1 over [1, 3). *)
Definition sampleOverlappingResults : Db :=
  snd (recordProgress sampleNanoid 1100
         (snd (recordProgress sampleNanoid 1000 (sampleDb 2 10)
                 (sampleProgress 0 0 2 2)))
         (sampleProgress 1 1 2 2)).


(** A task of the second revision in three chunks: chunk 0 is finished and
    chunk 1 is leased to [w1]. *)
Definition sampleIndexStore : Revision2.IndexStore :=
  {| Revision2.tasks :=
       [{| Revision2.id := "task-1"; Revision2.status := "queued";
           Revision2.totalChunks := Some 3; Revision2.assignedWorkers := None |}];
     Revision2.chunkResults :=
       [{| Revision2.r_taskId := "task-1"; Revision2.r_chunkIndex := 0;
           Revision2.r_status := "completed" |}];
     Revision2.chunkAssignments :=
       [{| Revision2.l_taskId := "task-1"; Revision2.l_chunkIndex := 1;
           Revision2.l_workerId := "w1"; Revision2.l_assignedAt := 1000 |}] |}.

(** * Properties *)

(** ** Rounding *)

Lemma Qltb_lt (x y : Q) : Qltb x y = true <-> (x < y)%Q.
Proof.
  unfold Qltb. rewrite negb_true_iff.
  split; intros H.
  - apply Qnot_le_lt. intros Hle. apply Qle_bool_iff in Hle. congruence.
  - destruct (Qle_bool y x) eqn:E; [|reflexivity].
    apply Qle_bool_iff in E. exfalso. apply (Qlt_not_le _ _ H E).
Qed.

Lemma Qltb_ge (x y : Q) : Qltb x y = false <-> (y <= x)%Q.
Proof.
  unfold Qltb. rewrite negb_false_iff. apply Qle_bool_iff.
Qed.








(** ** Positions in a collection *)

Lemma findIndex_Some {A : Type} (p : A -> bool) (l : list A) (i : nat) :
  findIndex p l = Some i ->
  exists x, nth_error l i = Some x /\ p x = true.
Proof.
  revert i. induction l as [|y l IH]; intros i H; cbn in H; [discriminate|].
  destruct (p y) eqn:E.
  - inversion H; subst. exists y. split; [reflexivity|exact E].
  - destruct (findIndex p l) as [j|]; [|discriminate].
    inversion H; subst. destruct (IH j eq_refl) as [x [Hx Hp]].
    exists x. split; assumption.
Qed.

Lemma findEntry_Some {A : Type} (p : A -> bool) (l : list A) (i : nat) (x : A) :
  findEntry p l = Some (i, x) ->
  nth_error l i = Some x /\ p x = true /\
  forall j y, (j < i)%nat -> nth_error l j = Some y -> p y = false.
Proof.
  revert i. induction l as [|y l IH]; intros i H; cbn in H; [discriminate|].
  destruct (p y) eqn:E.
  - inversion H; subst. repeat split; [exact E|]. intros j z Hj. lia.
  - destruct (findEntry p l) as [[j z]|]; [|discriminate].
    inversion H; subst. destruct (IH j eq_refl) as [Hx [Hp Hbefore]].
    repeat split; [exact Hx|exact Hp|].
    intros k w Hk Hw. destruct k as [|k]; cbn in Hw.
    + inversion Hw; subst. exact E.
    + apply (Hbefore k w); [lia|exact Hw].
Qed.

Lemma findEntry_None {A : Type} (p : A -> bool) (l : list A) :
  findEntry p l = None -> forall x, In x l -> p x = false.
Proof.
  induction l as [|y l IH]; intros H x Hin; [destruct Hin|].
  cbn in H. destruct (p y) eqn:E; [discriminate|].
  destruct (findEntry p l) as [[j z]|] eqn:F; [discriminate|].
  destruct Hin as [->|Hin]; [exact E|apply IH; [reflexivity|exact Hin]].
Qed.

Lemma findEntry_find {A : Type} (p : A -> bool) (l : list A) :
  find p l = option_map snd (findEntry p l).
Proof.
  induction l as [|y l IH]; cbn; [reflexivity|].
  destruct (p y); [reflexivity|].
  rewrite IH. destruct (findEntry p l) as [[j z]|]; reflexivity.
Qed.

Lemma replaceAt_length {A : Type} (i : nat) (x : A) (l : list A) :
  List.length (replaceAt i x l) = List.length l.
Proof.
  revert i. induction l as [|y l IH]; intros [|i]; cbn; try reflexivity.
  rewrite IH. reflexivity.
Qed.


(** A write through a reference found by [findEntry] is found again. *)
Lemma findEntry_replaceAt {A : Type} (p : A -> bool) (l : list A) (i : nat)
    (x x' : A) :
  findEntry p l = Some (i, x) -> p x' = true ->
  findEntry p (replaceAt i x' l) = Some (i, x').
Proof.
  revert i. induction l as [|y l IH]; intros i H Hp; cbn in H; [discriminate|].
  destruct (p y) eqn:E.
  - inversion H; subst. cbn. rewrite Hp. reflexivity.
  - destruct (findEntry p l) as [[j z]|] eqn:F; [|discriminate].
    inversion H; subst. cbn. rewrite E. rewrite (IH j eq_refl Hp). reflexivity.
Qed.

(** A write to another position leaves an entry where it was. *)
Lemma findEntry_filter {A : Type} (p keep : A -> bool) (l : list A) :
  (forall x, p x = true -> keep x = true) ->
  option_map snd (findEntry p (filter keep l)) = option_map snd (findEntry p l).
Proof.
  intros Hk. induction l as [|y l IH]; cbn; [reflexivity|].
  destruct (keep y) eqn:K; cbn.
  - destruct (p y); [reflexivity|].
    destruct (findEntry p (filter keep l)) as [[j z]|];
      destruct (findEntry p l) as [[j' z']|]; cbn in *; congruence.
  - destruct (p y) eqn:P; [rewrite (Hk y P) in K; discriminate|].
    rewrite IH. destruct (findEntry p l) as [[j' z']|]; reflexivity.
Qed.

(** ** The ledger writes of a payout *)


Lemma findUserBySessionId_valid db sessionId user :
  findUserBySessionId db sessionId = Some user ->
  exists u, nth_error (users db) user = Some u.
Proof.
  unfold findUserBySessionId. destruct sessionId as [sid|]; [|discriminate].
  destruct (truthy (Some sid)); [|discriminate].
  intros H. apply findIndex_Some in H. destruct H as [u [Hu _]]. eauto.
Qed.

Lemma ensureWorkerUser_valid nanoid now db workerId :
  truthy workerId = true ->
  exists worker u,
    fst (ensureWorkerUser nanoid now db workerId) = Some worker /\
    let db' := snd (ensureWorkerUser nanoid now db workerId) in
    nth_error (users db') worker = Some u /\
    walletTransactions db' = walletTransactions db /\
    platformLedger db' = platformLedger db /\
    (forall i v, nth_error (users db) i = Some v -> nth_error (users db') i = Some v).
Proof.
  intros Ht. unfold ensureWorkerUser. rewrite Ht. cbn [negb].
  destruct (findUserBySessionId db workerId) as [w|] eqn:F.
  - destruct (findUserBySessionId_valid _ _ F) as [u Hu].
    exists w, u. cbn. repeat split; auto.
  - unfold createUser. cbn.
    destruct workerId as [s|]; [|discriminate]. rewrite Ht. cbn.
    eexists _, _. repeat split.
    + rewrite nth_error_app2; [|apply Nat.le_refl]. rewrite Nat.sub_diag. reflexivity.
    + intros i v Hi. rewrite nth_error_app1; [exact Hi|].
      apply nth_error_Some. congruence.
Qed.



(** ** Payout settler: idempotent and selective *)



(** The range deduplication of lines 1653-1664 never removes the result of
    the bucket that is being recorded. *)
Lemma dedupe_keeps_bucket taskId chunkIndex range (results : list ChunkResult) :
  option_map snd
    (findEntry
       (fun r => ((r_taskId r =? taskId)%string && (r_chunkIndex r =? chunkIndex))%bool)
       (filter (fun r => negb (overlapsOther taskId chunkIndex range r)) results))
  = find (fun r => ((r_taskId r =? taskId)%string && (r_chunkIndex r =? chunkIndex))%bool)
      results.
Proof.
  rewrite findEntry_find. apply findEntry_filter.
  intros r Hr. apply andb_prop in Hr. destruct Hr as [H1 H2].
  unfold overlapsOther. rewrite H1, H2. reflexivity.
Qed.




(** ** Payout settler: the shares *)







(** Scenario: one bucket of the sample task, cost 2 and fee 10 percent.
    The customer goes from 20 to 18, the worker earns 1.8, the platform
    0.2. *)
Example payout_happy_path :
  map (fun u => (u_sessionId u, Qred (u_walletBalance u))) (users (sampleSettled 2 10))
  = [("customer", 18 # 1); ("w1", 9 # 5)] /\
  Qred (platformLedger (sampleSettled 2 10)) = 1 # 5 /\
  map (fun tx => (tx_type tx, Qred (tx_amount tx)))
    (walletTransactions (sampleSettled 2 10))
  = [(chunk_debit, -2 # 1); (chunk_credit, 9 # 5); (platform_fee, 1 # 5)].
Proof. vm_compute. repeat split. Qed.

(** ** Payout settler: the ledger entries of one bucket *)






(** ** Sandbox wallet endpoints *)

(** C9. Deposit and withdrawal answer 400 and leave the store as it was
    for every amount that is not a number, not positive, or, once
    normalised, above 1,000,000; in the last case with the message that
    the amount exceeds the limit. *)
Theorem wallet_rejects_out_of_range nanoid sandbox now db sessionId amount reason :
  outOfRange amount ->
  (exists message,
      walletDeposit nanoid sandbox now db sessionId amount reason
      = (WalletError 400 message, db)) /\
  (exists message,
      walletWithdraw nanoid sandbox now db sessionId amount reason
      = (WalletError 400 message, db)) /\
  (forall normalized,
      normalizeCurrencyAmount amount = Some normalized ->
      (1000000 < normalized)%Q ->
      walletDeposit nanoid sandbox now db sessionId amount reason
      = (WalletError 400 "Deposit amount exceeds limit", db) /\
      walletWithdraw nanoid sandbox now db sessionId amount reason
      = (WalletError 400 "Withdrawal amount exceeds limit", db)).
Proof.
  unfold outOfRange, walletDeposit, walletWithdraw.
  destruct (normalizeCurrencyAmount amount) as [n|].
  - intros H.
    destruct (Qle_bool n 0) eqn:Ele.
    + split; [eexists; reflexivity|]. split; [eexists; reflexivity|].
      intros m Hm Hbig. inversion Hm; subst m.
      apply Qle_bool_iff in Ele. exfalso. lra.
    + assert (Hbig : (1000000 < n)%Q).
      { destruct H as [H|H]; [|exact H].
        apply Qle_bool_iff in H. congruence. }
      apply Qltb_lt in Hbig. rewrite Hbig.
      split; [eexists; reflexivity|]. split; [eexists; reflexivity|].
      intros m Hm _. split; reflexivity.
  - intros _. split; [eexists; reflexivity|]. split; [eexists; reflexivity|].
    intros m Hm. discriminate.
Qed.

Lemma wallet_rejects_out_of_range_witness :
  walletDeposit sampleNanoid true 0 (sampleDb 2 10) (Some "customer")
    (Some (1000001 # 1)) None
  = (WalletError 400 "Deposit amount exceeds limit", sampleDb 2 10).
Proof.
  assert (H : outOfRange (Some (1000001 # 1))).
  { unfold outOfRange. vm_compute. right. reflexivity. }
  destruct (@wallet_rejects_out_of_range sampleNanoid true 0 (sampleDb 2 10)
              (Some "customer") (Some (1000001 # 1)) None H) as [_ [_ Hlimit]].
  refine (proj1 (Hlimit _ eq_refl _)). reflexivity.
Defined.


(** ** Bucket-config normalisation *)


Lemma halveLoop_bounds size s :
  1 <= f_maxBuckets s -> 0 <= f_maxBucketBytes s ->
  1 <= f_maxBuckets (halveLoop size s) <= f_maxBuckets s /\
  f_maxBucketBytes s <= f_maxBucketBytes (halveLoop size s).
Proof.
  functional induction (halveLoop size s) as [s Hguard IH|s Hguard];
    intros Hmb Hbytes; [|lia].
  unfold mustHalve in Hguard. apply andb_prop in Hguard.
  destruct Hguard as [Hguard _]. apply Z.ltb_lt in Hguard.
  assert (f_maxBuckets s / 2 < f_maxBuckets s) by (apply Z.div_lt; lia).
  assert (E1 : f_maxBuckets (halveStep s) = Z.max 1 (f_maxBuckets s / 2))
    by reflexivity.
  assert (E2 : f_maxBucketBytes (halveStep s) = f_maxBucketBytes s * 2)
    by reflexivity.
  rewrite E1, E2 in IH.
  assert (IH' := IH ltac:(lia) ltac:(lia)).
  lia.
Qed.

Lemma growToFit_fits size s :
  0 < f_maxBucketBytes s ->
  f_maxBuckets (growToFit size s) = f_maxBuckets s /\
  f_maxBucketBytes (growToFit size s)
  = (if f_maxBucketBytes s <? size then 2 * size else f_maxBucketBytes s) /\
  f_maxBucketBytes s <= f_maxBucketBytes (growToFit size s) /\
  size <= f_maxBucketBytes (growToFit size s).
Proof.
  intros Hpos. unfold growToFit.
  destruct (f_maxBucketBytes s <? size) eqn:E; cbn [f_maxBuckets f_maxBucketBytes].
  - apply Z.ltb_lt in E. repeat split; lia.
  - apply Z.ltb_ge in E. repeat split; lia.
Qed.

Lemma desiredMaxBuckets_valid task :
  1 <= desiredMaxBuckets task /\
  forall n, maxBuckets (bucketConfigOf task) = Some n -> 1 <= n ->
            desiredMaxBuckets task = n.
Proof.
  unfold desiredMaxBuckets, DEFAULT_MAX_BUCKETS.
  split.
  - destruct (maxBuckets (bucketConfigOf task)) as [n|];
      [destruct (0 <? n) eqn:E; cbn; [lia|]|];
      (destruct (t_totalChunks task) as [c|];
       [destruct (0 <? c) eqn:E'; cbn; lia|cbn; lia]).
  - intros n -> Hn.
    assert (E : (0 <? n) = true) by (apply Z.ltb_lt; lia).
    rewrite E. cbn. lia.
Qed.

Lemma initialBucketBytes_valid task :
  1 <= fst (initialBucketBytes task) /\
  forall b, maxBucketBytes (bucketConfigOf task) = Some b -> 1 <= b ->
            fst (initialBucketBytes task) = b.
Proof.
  unfold initialBucketBytes.
  split.
  - destruct (maxBucketBytes (bucketConfigOf task)) as [b|];
      [destruct (0 <? b) eqn:E; cbn [fst]; [apply Z.ltb_lt in E; lia|lia]|].
    cbn [fst]. lia.
  - intros b -> Hb.
    assert (E : (0 <? b) = true) by (apply Z.ltb_lt; lia).
    rewrite E. reflexivity.
Qed.

Lemma largestItemBytes_bound {Item : Type} (byteLength : Item -> option Z)
    (items : list Item) (item : Item) (len : Z) :
  In item items -> byteLength item = Some len ->
  len <= largestItemBytes byteLength items.
Proof.
  unfold largestItemBytes.
  set (step := fun largest it =>
                 match byteLength it with
                 | Some l => if largest <? l then l else largest
                 | None => largest
                 end).
  assert (Hmono : forall l acc, acc <= fold_left step l acc).
  { induction l as [|x l IH]; intros acc; cbn; [lia|].
    apply Z.le_trans with (step acc x); [|apply IH].
    unfold step. destruct (byteLength x) as [lx|]; [|lia].
    destruct (acc <? lx) eqn:E; [apply Z.ltb_lt in E|]; lia. }
  generalize 0 as acc.
  induction items as [|x items IH]; intros acc Hin Hlen; [destruct Hin|].
  cbn. destruct Hin as [->|Hin].
  - apply Z.le_trans with (step acc item); [|apply Hmono].
    unfold step. rewrite Hlen.
    destruct (acc <? len) eqn:E; [|apply Z.ltb_ge in E]; lia.
  - apply IH; assumption.
Qed.


(** The closure of [calculateBucket] has the same loop and the same
    guarantees for the one size it is given. *)
Lemma ensureItemFits_fits n b size :
  1 <= n -> 1 <= b ->
  1 <= f_maxBuckets (ensureItemFits n b size) <= n /\
  b <= f_maxBucketBytes (ensureItemFits n b size) /\
  size <= f_maxBucketBytes (ensureItemFits n b size).
Proof.
  intros Hn Hb. unfold ensureItemFits.
  set (start := {| f_maxBuckets := n; f_maxBucketBytes := b; f_changed := false |}).
  destruct (halveLoop_bounds size start) as [HN HB]; [exact Hn|cbn; lia|].
  destruct (growToFit_fits size (halveLoop size start)) as [G1 [_ [G3 G4]]];
    [cbn in HB; lia|].
  cbn [f_maxBuckets f_maxBucketBytes start] in HN, HB.
  rewrite G1. repeat split; lia.
Qed.


(** Scenario: one item of 4 MiB against a cap of 1 MiB and eight buckets.
    The loop stops as soon as the item fits. *)
Example ensureItemFits_oversize :
  ensureItemFits 8 (1024 * 1024) (4 * 1024 * 1024)
  = {| f_maxBuckets := 2; f_maxBucketBytes := 4 * 1024 * 1024; f_changed := true |}.
Proof. reflexivity. Qed.

(** ** Item results *)



Lemma nth_error_mapi_from {A B : Type} (f : nat -> A -> B) (l : list A)
    (start i : nat) :
  nth_error (mapi_from f start l) i = option_map (f (start + i)%nat) (nth_error l i).
Proof.
  revert start i. induction l as [|x l IH]; intros start [|i]; cbn; try reflexivity.
  - rewrite Nat.add_0_r. reflexivity.
  - rewrite IH. rewrite Nat.add_succ_r. reflexivity.
Qed.

Lemma nth_error_firstn_lt {A : Type} (n i : nat) (l : list A) :
  (i < n)%nat -> nth_error (firstn n l) i = nth_error l i.
Proof.
  revert i l. induction n as [|n IH]; intros i l Hi; [lia|].
  destruct l as [|x l]; [destruct i; reflexivity|].
  destruct i as [|i]; [reflexivity|]. cbn. apply IH. lia.
Qed.




(** ** Terminal bucket result *)

(** A payout changes nothing of a result but its payout fields and its
    worker. *)
Lemma issueChunkPayout_result nanoid dbc pfp now db task r w :
  let r' := snd (issueChunkPayout nanoid dbc pfp now db task r w) in
  r' = r \/ r' = paidResult now r w.
Proof.
  unfold issueChunkPayout.
  destruct (r_payoutIssued r); [left; reflexivity|].
  destruct (negb (r_status r =? "completed")%string); [left; reflexivity|].
  destruct (negb dbc && _)%bool; [left; reflexivity|].
  destruct (findUserBySessionId db _); [|left; reflexivity].
  destruct (if truthy w then _ else _). right. reflexivity.
Qed.

Lemma issueChunkPayout_fields nanoid dbc pfp now db task r w :
  let r' := snd (issueChunkPayout nanoid dbc pfp now db task r w) in
  r_taskId r' = r_taskId r /\ r_chunkIndex r' = r_chunkIndex r /\
  r_status r' = r_status r /\ r_itemsCount r' = r_itemsCount r /\
  r_processedItems r' = r_processedItems r /\ r_itemResults r' = r_itemResults r.
Proof.
  cbv zeta.
  destruct (issueChunkPayout_result nanoid dbc pfp now db task r w) as [H|H];
    cbv zeta in H; rewrite H; repeat split.
Qed.

(** The collections of tasks, results and leases are out of the reach of
    the ledger. *)
Lemma adjustUserBalance_collections nanoid now db user delta type meta :
  let db' := snd (adjustUserBalance nanoid now db user delta type meta) in
  tasks db' = tasks db /\ chunkResults db' = chunkResults db /\
  chunkAssignments db' = chunkAssignments db.
Proof.
  unfold adjustUserBalance. destruct (nth_error (users db) user); repeat split.
Qed.

Lemma ensureWorkerUser_collections nanoid now db workerId :
  let db' := snd (ensureWorkerUser nanoid now db workerId) in
  tasks db' = tasks db /\ chunkResults db' = chunkResults db /\
  chunkAssignments db' = chunkAssignments db.
Proof.
  unfold ensureWorkerUser.
  destruct (negb (truthy workerId)); [repeat split|].
  destruct (findUserBySessionId db workerId); [repeat split|].
  unfold createUser. cbn.
  destruct workerId as [sid|]; [destruct (truthy (Some sid))|]; cbn; repeat split.
Qed.

Lemma issueChunkPayout_collections nanoid dbc pfp now db task r w :
  let db' := snd (fst (fst (issueChunkPayout nanoid dbc pfp now db task r w))) in
  tasks db' = tasks db /\ chunkResults db' = chunkResults db /\
  chunkAssignments db' = chunkAssignments db.
Proof.
  unfold issueChunkPayout.
  destruct (r_payoutIssued r); [repeat split|].
  destruct (negb (r_status r =? "completed")%string); [repeat split|].
  destruct (negb dbc && _)%bool; [repeat split|].
  destruct (findUserBySessionId db _) as [customer|]; [|repeat split].
  destruct (if truthy w then ensureWorkerUser nanoid now db w else (None, db))
    as [worker db1] eqn:E.
  assert (H1 : tasks db1 = tasks db /\ chunkResults db1 = chunkResults db /\
               chunkAssignments db1 = chunkAssignments db).
  { destruct (truthy w).
    - pose proof (ensureWorkerUser_collections nanoid now db w) as Hc.
      rewrite E in Hc. exact Hc.
    - inversion E; subst. repeat split. }
  destruct H1 as [T1 [R1 A1]].
  cbn [fst snd].
  set (total := b_costPerChunk (resolveTaskBudget task)).
  set (meta := chunkMeta (t_id task) (r_chunkIndex r)).
  destruct (adjustUserBalance_collections nanoid now db1 customer (- total)%Q
              chunk_debit meta) as [T2 [R2 A2]].
  set (db2 := snd (adjustUserBalance nanoid now db1 customer (- total)%Q
                     chunk_debit meta)) in *.
  set (db3 := match worker with
              | Some wk => snd (adjustUserBalance nanoid now db2 wk _ chunk_credit meta)
              | None => db2
              end).
  assert (H3 : tasks db3 = tasks db2 /\ chunkResults db3 = chunkResults db2 /\
               chunkAssignments db3 = chunkAssignments db2).
  { subst db3. destruct worker; [apply adjustUserBalance_collections|repeat split]. }
  destruct H3 as [T3 [R3 A3]].
  destruct (negb (Qeq_bool _ 0)); cbn;
    rewrite ?T3, ?R3, ?A3, ?T2, ?R2, ?A2, ?T1, ?R1, ?A1; repeat split.
Qed.

Lemma truthy_Some (s : string) : s <> "" -> truthy (Some s) = true.
Proof.
  intros H. cbn. destruct (s =? "")%string eqn:E; [|reflexivity].
  apply String.eqb_eq in E. contradiction.
Qed.

(** What a terminal update leaves in the store when the bucket already has
    a result. *)
Lemma recordChunk_recorded nanoid dbc pfp now db req taskId chunkIndex status
    taskPos task0 existing :
  q_taskId req = Some taskId -> q_chunkIndex req = Some chunkIndex ->
  q_status req = Some status -> taskId <> "" -> status <> "" ->
  findEntry (fun t => (t_id t =? taskId)%string) (tasks db) = Some (taskPos, task0) ->
  storedResult db taskId chunkIndex = Some existing ->
  exists payout target,
    fst (recordChunk nanoid dbc pfp now db req) = ChunkRecorded payout /\
    storedResult (snd (recordChunk nanoid dbc pfp now db req)) taskId chunkIndex
    = Some target /\
    r_status target = status /\
    r_itemsCount target
    = match resolvedItemsCount (q_itemsCount req) (q_rangeStart req) (q_rangeEnd req)
              (s_items (sanitizeItemResults (q_itemResults req))) with
      | Some n => Some n
      | None => r_itemsCount existing
      end /\
    r_processedItems target = Some (terminalCount req) /\
    r_itemResults target = s_items (sanitizeItemResults (q_itemResults req)).
Proof.
  intros Ht Hc Hs Htid Hst Htask Hstored.
  unfold recordChunk. rewrite Ht, Hc, Hs.
  rewrite (truthy_Some Htid), (truthy_Some Hst). cbn [negb orb].
  rewrite Htask. cbv zeta.
  set (range := normalizeRange (q_rangeStart req) (q_rangeEnd req)
                  (q_itemsCount req) (Some chunkIndex)).
  set (same := fun r : ChunkResult =>
                 ((r_taskId r =? taskId)%string && (r_chunkIndex r =? chunkIndex))%bool).
  set (resultsArr := filter (fun r => negb (overlapsOther taskId chunkIndex range r))
                       (chunkResults db)).
  assert (Hfound : option_map snd (findEntry same resultsArr) = Some existing).
  { subst resultsArr same. rewrite dedupe_keeps_bucket. exact Hstored. }
  destruct (findEntry same resultsArr) as [[resultPos found]|] eqn:EResult;
    [|discriminate].
  cbn in Hfound. inversion Hfound; subst found. clear Hfound.
  destruct (findEntry_Some _ _ EResult) as [_ [Hsame _]].
  match goal with
  | |- context [issueChunkPayout nanoid dbc pfp now ?d ?t ?r ?w] =>
      pose proof (issueChunkPayout_fields nanoid dbc pfp now d t r w) as Hfields;
      pose proof (issueChunkPayout_collections nanoid dbc pfp now d t r w) as Hcoll;
      destruct (issueChunkPayout nanoid dbc pfp now d t r w)
        as [[[payoutApplied db2] task2] target'] eqn:EPay
  end.
  cbn [fst snd] in Hfields, Hcoll.
  destruct Hfields as [F1 [F2 [F3 [F4 [F5 F6]]]]].
  cbn [r_taskId r_chunkIndex r_status r_itemsCount r_processedItems r_itemResults
       overwriteResult] in F1, F2, F3, F4, F5, F6.
  exists payoutApplied, target'.
  split; [reflexivity|].
  cbn [fst snd]. unfold storedResult.
  cbn [chunkResults setTasks setChunkResults].
  fold same. rewrite findEntry_find.
  rewrite (@findEntry_replaceAt _ same resultsArr resultPos existing target' EResult).
  - cbn. repeat split; try assumption.
    rewrite F5. unfold terminalCount.
    destruct (resolvedItemsCount _ _ _ _); reflexivity.
  - unfold same in *. rewrite F1, F2. exact Hsame.
Qed.

Lemma filter_nonempty_existsb {A : Type} (p : A -> bool) (l : list A) :
  (0 <? List.length (filter p l))%nat = existsb p l.
Proof.
  induction l as [|x l IH]; [reflexivity|].
  cbn. destruct (p x); [reflexivity|exact IH].
Qed.

(** C5, as the code has it.  A terminal update for a bucket that has a
    stored result overwrites the stored status with the status that the
    request carries (the server does not look at the item results for it;
    the worker runner of the repository sends [failed] if an item failed,
    else [completed] if an item completed, else [skipped]); when the items
    count is resolvable from the request it is stored as [itemsCount] and
    installed as [processedItems]; otherwise [itemsCount] stays and
    [processedItems] becomes 0, the number of sanitised items. *)
Theorem terminal_result_overwrites nanoid dbc pfp now db req taskId chunkIndex
    status taskPos task0 existing :
  q_taskId req = Some taskId -> q_chunkIndex req = Some chunkIndex ->
  q_status req = Some status -> taskId <> "" -> status <> "" ->
  findEntry (fun t => (t_id t =? taskId)%string) (tasks db) = Some (taskPos, task0) ->
  storedResult db taskId chunkIndex = Some existing ->
  exists payout target,
    fst (recordChunk nanoid dbc pfp now db req) = ChunkRecorded payout /\
    storedResult (snd (recordChunk nanoid dbc pfp now db req)) taskId chunkIndex
    = Some target /\
    r_status target = status /\
    (forall n,
        resolvedItemsCount (q_itemsCount req) (q_rangeStart req) (q_rangeEnd req)
          (s_items (sanitizeItemResults (q_itemResults req))) = Some n ->
        r_itemsCount target = Some n /\ r_processedItems target = Some n) /\
    (resolvedItemsCount (q_itemsCount req) (q_rangeStart req) (q_rangeEnd req)
       (s_items (sanitizeItemResults (q_itemResults req))) = None ->
     r_itemsCount target = r_itemsCount existing /\
     r_processedItems target = Some 0) /\
    (forall items,
        status = statusToSend (countStatus "failed" items)
                   (countStatus "completed" items) ->
        r_status target
        = if existsb (fun item => js_is (f_status item) "failed") items then "failed"
          else if existsb (fun item => js_is (f_status item) "completed") items
               then "completed"
               else "skipped").
Proof.
  intros Ht Hc Hs Htid Hst Htask Hstored.
  destruct (recordChunk_recorded nanoid dbc pfp now db req Ht Hc Hs Htid Hst
              Htask Hstored)
    as [payout [target [Hreply [Hfind [Hstatus [Hcount [Hprocessed _]]]]]]].
  exists payout, target.
  split; [exact Hreply|]. split; [exact Hfind|]. split; [exact Hstatus|].
  unfold terminalCount in Hprocessed.
  split; [|split].
  - intros n Hn. rewrite Hn in Hcount, Hprocessed. split; assumption.
  - intros Hn. rewrite Hn in Hcount, Hprocessed. split; [exact Hcount|].
    rewrite Hprocessed.
    unfold resolvedItemsCount in Hn.
    destruct (q_itemsCount req); [discriminate|].
    destruct (q_rangeStart req), (q_rangeEnd req); try discriminate;
      destruct (s_items (sanitizeItemResults (q_itemResults req)));
      try discriminate; reflexivity.
  - intros items Hsent. rewrite Hstatus, Hsent.
    unfold statusToSend, countStatus.
    rewrite !filter_nonempty_existsb. reflexivity.
Qed.

Lemma terminal_result_overwrites_witness :
  exists payout target,
    fst (recordChunk sampleNanoid true 10 2000
           (snd (recordProgress sampleNanoid 1000 (sampleDb 2 10)
                   (sampleProgress 0 0 2 2)))
           (sampleChunk 0 "failed" (Some 0) (Some 2) (Some 2) []))
    = ChunkRecorded payout /\
    r_status target = "failed" /\ r_processedItems target = Some 2.
Proof.
  pose (db := snd (recordProgress sampleNanoid 1000 (sampleDb 2 10)
                     (sampleProgress 0 0 2 2))).
  pose (req := sampleChunk 0 "failed" (Some 0) (Some 2) (Some 2) []).
  assert (Htid : "task-1" <> "") by discriminate.
  assert (Hst : "failed" <> "") by discriminate.
  assert (Htask : findEntry (fun t => (t_id t =? "task-1")%string) (tasks db)
                  = Some (O, nth O (tasks db) (sampleTask 2 10)))
    by (vm_compute; reflexivity).
  assert (Hstored : storedResult db "task-1" 0
                    = Some (nth O (chunkResults db) (sampleResult "" false)))
    by (vm_compute; reflexivity).
  destruct (@terminal_result_overwrites sampleNanoid true 10 2000 db req
              "task-1" 0 "failed" O _ _ eq_refl eq_refl eq_refl Htid Hst
              Htask Hstored)
    as [payout [target [Hreply [_ [Hstatus [Hcount _]]]]]].
  exists payout, target.
  split; [exact Hreply|]. split; [exact Hstatus|].
  apply (Hcount 2). reflexivity.
Defined.

(** C5 as stated fails.  A terminal update that carries status [completed]
    and an item result that failed is stored as [completed]. *)
Lemma terminal_status_counterexample :
  option_map r_status
    (storedResult
       (sampleRecorded
          (sampleChunk 0 "completed" (Some 0) (Some 2) (Some 2)
             [sampleItem 0 "failed"; sampleItem 1 "completed"]))
       "task-1" 0)
  = Some "completed" /\
  option_map (fun r => map i_status (r_itemResults r))
    (storedResult
       (sampleRecorded
          (sampleChunk 0 "completed" (Some 0) (Some 2) (Some 2)
             [sampleItem 0 "failed"; sampleItem 1 "completed"]))
       "task-1" 0)
  = Some ["failed"; "completed"] /\
  "completed" <> "failed".
Proof.
  vm_compute. repeat split. discriminate.
Qed.

(** ** Leases released by a terminal result *)





(** ** Progress of a bucket *)

Lemma find_replaceAt_other {A : Type} (p : A -> bool) (l : list A) (i : nat)
    (x x' : A) :
  nth_error l i = Some x -> p x = false -> p x' = false ->
  find p (replaceAt i x' l) = find p l.
Proof.
  revert i. induction l as [|y l IH]; intros [|i] Hnth Hx Hx'; cbn in *;
    try discriminate.
  - inversion Hnth; subst. rewrite Hx, Hx'. reflexivity.
  - destruct (p y); [reflexivity|]. apply (IH i); assumption.
Qed.

Lemma replaceAt_app_last {A : Type} (l : list A) (e x' : A) :
  replaceAt (List.length l) x' (l ++ [e])%list = (l ++ [x'])%list.
Proof.
  induction l as [|y l IH]; cbn; [reflexivity|]. rewrite IH. reflexivity.
Qed.

Lemma find_app_last {A : Type} (p : A -> bool) (l : list A) (e : A) :
  find p (l ++ [e])%list
  = match find p l with
    | Some x => Some x
    | None => if p e then Some e else None
    end.
Proof.
  induction l as [|y l IH]; cbn; [reflexivity|].
  destruct (p y); [reflexivity|exact IH].
Qed.

(** Two buckets are the same, or a result of one is not a result of the
    other. *)
Lemma bucket_same_or_apart (taskId tid : string) (chunkIndex idx : Z) :
  (taskId = tid /\ chunkIndex = idx) \/
  forall r : ChunkResult,
    ((r_taskId r =? taskId)%string && (r_chunkIndex r =? chunkIndex))%bool = true ->
    ((r_taskId r =? tid)%string && (r_chunkIndex r =? idx))%bool = false.
Proof.
  destruct (String.eqb_spec taskId tid) as [->|Hne].
  - destruct (Z.eqb_spec chunkIndex idx) as [->|Hne]; [left; split; reflexivity|].
    right. intros r H. apply andb_prop in H. destruct H as [_ H].
    apply Z.eqb_eq in H. rewrite H.
    destruct (Z.eqb_spec chunkIndex idx); [contradiction|].
    apply andb_false_r.
  - right. intros r H. apply andb_prop in H. destruct H as [H _].
    apply String.eqb_eq in H. rewrite H.
    destruct (String.eqb_spec taskId tid); [contradiction|]. reflexivity.
Qed.

Lemma mergeProgress_fields now req processed total entry :
  let merged := mergeProgress now req processed total entry in
  r_taskId merged = r_taskId entry /\ r_chunkIndex merged = r_chunkIndex entry /\
  r_processedItems merged
  = if match r_processedItems entry with
       | Some n => n
       | None => 0
       end <? processed
    then Some processed else r_processedItems entry.
Proof.
  cbn. repeat split.
Qed.

(** One progress batch never lowers the stored [processedItems] of any
    bucket. *)
Lemma recordProgress_monotone nanoid now db req taskId chunkIndex :
  storedProcessed db taskId chunkIndex
  <= storedProcessed (snd (recordProgress nanoid now db req)) taskId chunkIndex.
Proof.
  unfold recordProgress.
  destruct (p_taskId req) as [tid|]; [|cbn; lia].
  destruct (p_chunkIndex req) as [idx|]; [|cbn; lia].
  destruct (p_itemsProcessed req) as [itemsProcessed|]; [|cbn; lia].
  destruct (negb (truthy (Some tid))); [cbn; lia|].
  destruct (findEntry _ (tasks db)) as [[taskPos task]|]; [|cbn; lia].
  cbv zeta.
  set (total := option_map (Z.max 0) (p_totalItems req)).
  set (processed := match total with
                    | Some t => Z.min (Z.max 0 itemsProcessed) t
                    | None => Z.max 0 itemsProcessed
                    end).
  assert (Hprocessed : 0 <= processed).
  { subst processed total. destruct (p_totalItems req); cbn; lia. }
  set (db1 := setChunkAssignments db _).
  set (same := fun r : ChunkResult =>
                 ((r_taskId r =? tid)%string && (r_chunkIndex r =? idx))%bool).
  set (wanted := fun r : ChunkResult =>
                   ((r_taskId r =? taskId)%string
                    && (r_chunkIndex r =? chunkIndex))%bool).
  change (chunkResults db1) with (chunkResults db).
  unfold storedProcessed, storedResult. fold wanted.
  destruct (findEntry same (chunkResults db)) as [[pos entry]|] eqn:EResult.
  - cbn [snd chunkResults setTasks setChunkResults].
    change (chunkResults db1) with (chunkResults db).
    destruct (mergeProgress_fields now req processed total entry) as [M1 [M2 M3]].
    set (merged := mergeProgress now req processed total entry) in *.
    destruct (findEntry_Some _ _ EResult) as [Hnth [Hsame _]].
    destruct (bucket_same_or_apart tid taskId idx chunkIndex) as [[-> ->]|Hapart].
    + change wanted with same. rewrite !findEntry_find.
      rewrite (@findEntry_replaceAt _ same (chunkResults db) pos entry merged EResult),
        EResult.
      * cbn [option_map snd]. rewrite M3.
        destruct (r_processedItems entry) as [n|];
          destruct (_ <? processed) eqn:E; try apply Z.ltb_lt in E; lia.
      * unfold same. rewrite M1, M2. exact Hsame.
    + rewrite (@find_replaceAt_other _ wanted (chunkResults db) pos entry merged Hnth).
      * lia.
      * apply Hapart. exact Hsame.
      * unfold wanted. rewrite M1, M2. apply Hapart. exact Hsame.
  - destruct (drawId nanoid db1) as [id db'] eqn:EId.
    assert (Hres : chunkResults db' = chunkResults db)
      by (unfold drawId in EId; inversion EId; reflexivity).
    cbn [snd chunkResults setTasks setChunkResults]. rewrite Hres.
    rewrite replaceAt_app_last, find_app_last.
    destruct (find wanted (chunkResults db)) as [r|] eqn:EWanted; [lia|].
    set (fresh := freshResult now id tid idx req processed total).
    destruct (mergeProgress_fields now req processed total fresh) as [M1 [M2 M3]].
    set (merged := mergeProgress now req processed total fresh) in *.
    destruct (wanted merged); [|lia].
    rewrite M3. cbn [r_processedItems fresh freshResult].
    rewrite Z.ltb_irrefl. lia.
Qed.

Lemma runProgress_monotone nanoid batches db taskId chunkIndex :
  storedProcessed db taskId chunkIndex
  <= storedProcessed (runProgress nanoid db batches) taskId chunkIndex.
Proof.
  revert db. induction batches as [|[now req] batches IH]; intros db;
    [apply Z.le_refl|].
  cbn. eapply Z.le_trans; [|apply IH].
  apply recordProgress_monotone.
Qed.

Lemma truthy_nonempty (s : string) : truthy (Some s) = true -> s <> "".
Proof.
  cbn. intros H ->. discriminate.
Qed.

(** A terminal update is refused without touching the store, or it names
    a task of the store. *)
Lemma recordChunk_refused_or_valid nanoid dbc pfp now db req :
  snd (recordChunk nanoid dbc pfp now db req) = db \/
  exists taskId chunkIndex status taskPos task0,
    q_taskId req = Some taskId /\ q_chunkIndex req = Some chunkIndex /\
    q_status req = Some status /\ taskId <> "" /\ status <> "" /\
    findEntry (fun t => (t_id t =? taskId)%string) (tasks db) = Some (taskPos, task0).
Proof.
  unfold recordChunk.
  destruct (q_taskId req) as [taskId|]; [|left; reflexivity].
  destruct (q_chunkIndex req) as [chunkIndex|]; [|left; reflexivity].
  destruct (q_status req) as [status|]; [|left; reflexivity].
  destruct (truthy (Some taskId)) eqn:E1; [|left; reflexivity].
  destruct (truthy (Some status)) eqn:E2; [|left; reflexivity].
  cbn [negb orb].
  destruct (findEntry _ (tasks db)) as [[taskPos task0]|] eqn:Etask;
    [|left; reflexivity].
  right. exists taskId, chunkIndex, status, taskPos, task0.
  repeat split; try reflexivity; try apply truthy_nonempty; assumption.
Qed.

(** Without a stored result the terminal update stops at the object
    literal of lines 1694-1713 and stores none. *)
Lemma recordChunk_threw nanoid dbc pfp now db req taskId chunkIndex status
    taskPos task0 :
  q_taskId req = Some taskId -> q_chunkIndex req = Some chunkIndex ->
  q_status req = Some status -> taskId <> "" -> status <> "" ->
  findEntry (fun t => (t_id t =? taskId)%string) (tasks db) = Some (taskPos, task0) ->
  storedResult db taskId chunkIndex = None ->
  fst (recordChunk nanoid dbc pfp now db req)
  = ChunkThrew "ReferenceError: itemResultsTotal is not defined" /\
  storedResult (snd (recordChunk nanoid dbc pfp now db req)) taskId chunkIndex = None.
Proof.
  intros Ht Hc Hs Htid Hst Htask Hstored.
  unfold recordChunk. rewrite Ht, Hc, Hs.
  rewrite (truthy_Some Htid), (truthy_Some Hst). cbn [negb orb].
  rewrite Htask. cbv zeta.
  set (range := normalizeRange (q_rangeStart req) (q_rangeEnd req)
                  (q_itemsCount req) (Some chunkIndex)).
  pose proof (dedupe_keeps_bucket taskId chunkIndex range (chunkResults db)) as Hkeep.
  unfold storedResult in Hstored. rewrite Hstored in Hkeep.
  match goal with
  | |- context [findEntry ?p ?l] =>
      destruct (findEntry p l) as [[resultPos existing]|] eqn:EResult;
      [discriminate|]
  end.
  split; [reflexivity|].
  unfold storedResult. cbn [snd drawId chunkResults setChunkResults].
  rewrite findEntry_find, EResult. reflexivity.
Qed.

Lemma recordChunk_terminal_monotone nanoid dbc pfp now db req taskId chunkIndex :
  q_taskId req = Some taskId -> q_chunkIndex req = Some chunkIndex ->
  storedProcessed db taskId chunkIndex <= terminalCount req ->
  storedProcessed db taskId chunkIndex
  <= storedProcessed (snd (recordChunk nanoid dbc pfp now db req)) taskId chunkIndex.
Proof.
  intros Ht Hc Hcount.
  destruct (recordChunk_refused_or_valid nanoid dbc pfp now db req)
    as [->|[taskId' [chunkIndex' [status [taskPos [task0
          [Ht' [Hc' [Hs [Htid [Hst Htask]]]]]]]]]]]; [apply Z.le_refl|].
  rewrite Ht in Ht'. rewrite Hc in Hc'. inversion Ht'; inversion Hc'; subst.
  destruct (storedResult db taskId' chunkIndex') as [existing|] eqn:Hstored.
  - destruct (recordChunk_recorded nanoid dbc pfp now db req Ht Hc Hs Htid Hst
                Htask Hstored)
      as [payout [target [_ [Hfind [_ [_ [Hprocessed _]]]]]]].
    unfold storedProcessed at 2. rewrite Hfind, Hprocessed. exact Hcount.
  - destruct (recordChunk_threw nanoid dbc pfp now db req Ht Hc Hs Htid Hst
                Htask Hstored) as [_ Hnone].
    unfold storedProcessed. rewrite Hnone, Hstored. apply Z.le_refl.
Qed.

(** C6, as the code has it.  The stored [processedItems] of a bucket never
    decreases across progress batches, whatever they are.  The terminal
    update of the bucket installs the count it resolves from the request
    (line 1678), so [processedItems] does not decrease there provided that
    count is not below what is stored; nothing in the handler enforces
    this. *)
Theorem processed_items_monotone nanoid dbc pfp (taskId : string) (chunkIndex : Z) :
  (forall now db req,
      storedProcessed db taskId chunkIndex
      <= storedProcessed (snd (recordProgress nanoid now db req)) taskId chunkIndex) /\
  (forall db batches,
      storedProcessed db taskId chunkIndex
      <= storedProcessed (runProgress nanoid db batches) taskId chunkIndex) /\
  (forall now db batches req,
      q_taskId req = Some taskId -> q_chunkIndex req = Some chunkIndex ->
      storedProcessed (runProgress nanoid db batches) taskId chunkIndex
      <= terminalCount req ->
      storedProcessed (runProgress nanoid db batches) taskId chunkIndex
      <= storedProcessed
           (snd (recordChunk nanoid dbc pfp now (runProgress nanoid db batches) req))
           taskId chunkIndex).
Proof.
  split; [|split].
  - intros now db req. apply recordProgress_monotone.
  - intros db batches. apply runProgress_monotone.
  - intros now db batches req Ht Hc Hcount.
    apply recordChunk_terminal_monotone; assumption.
Qed.

Lemma processed_items_monotone_witness :
  storedProcessed
    (runProgress sampleNanoid (sampleDb 2 10)
       [(1000, sampleProgress 0 0 1 2); (1500, sampleProgress 0 0 2 2)])
    "task-1" 0
  <= storedProcessed
       (snd (recordChunk sampleNanoid true 10 2000
               (runProgress sampleNanoid (sampleDb 2 10)
                  [(1000, sampleProgress 0 0 1 2); (1500, sampleProgress 0 0 2 2)])
               (sampleChunk 0 "completed" (Some 0) (Some 2) (Some 2) [])))
       "task-1" 0.
Proof.
  apply (proj2 (proj2 (@processed_items_monotone sampleNanoid true 10 "task-1" 0))).
  - reflexivity.
  - reflexivity.
  - vm_compute. discriminate.
Defined.

(** C6 as stated fails.  Four items of bucket 0 have been streamed; a
    terminal update that reports two items lowers the stored
    [processedItems] from 4 to 2. *)
Lemma processed_items_regress_counterexample :
  storedProcessed sampleStreamed "task-1" 0 = 4 /\
  storedProcessed
    (snd (recordChunk sampleNanoid true 10 2000 sampleStreamed
            (sampleChunk 0 "completed" None None (Some 2) [])))
    "task-1" 0 = 2 /\
  ~ (4 <= 2).
Proof.
  vm_compute. repeat split. intros H. apply H. reflexivity.
Qed.

(** ** Resuming a lease *)

(** What the backward loop of [next-chunk] computes: it removes the leases
    of the pair whose bucket has a terminal result, and among the leases of
    the pair that stay it selects one of least [assignedAt]. *)
Lemma resumeScan_spec taskId workerId results assignments :
  let kept := fst (resumeScan taskId workerId results assignments) in
  kept = filter (fun entry =>
                   negb (isPair taskId workerId entry
                         && hasTerminalResult taskId results entry))
           assignments /\
  match snd (resumeScan taskId workerId results assignments) with
  | None => forall entry, In entry kept -> isPair taskId workerId entry = false
  | Some (pos, existing) =>
      nth_error kept pos = Some existing /\
      isPair taskId workerId existing = true /\
      forall entry, In entry kept -> isPair taskId workerId entry = true ->
                    assignedTime existing <= assignedTime entry
  end.
Proof.
  induction assignments as [|entry rest IH]; [cbn; split; [reflexivity|tauto]|].
  cbn [resumeScan].
  destruct (resumeScan taskId workerId results rest) as [kept chosen].
  cbn [fst snd] in IH. destruct IH as [Hkept Hchosen].
  unfold isPair at 1 2. unfold hasTerminalResult at 1.
  cbn [filter].
  destruct (a_taskId entry =? taskId)%string eqn:Et; cbn [negb andb];
    [destruct (optString_eqb (a_workerId entry) (Some workerId)) eqn:Ew;
     cbn [negb andb]|].
  - (* a lease of the pair *)
    assert (Hpair : isPair taskId workerId entry = true)
      by (unfold isPair; rewrite Et, Ew; reflexivity).
    destruct (match find _ results with
              | Some result => finishedStatus (r_status result)
              | None => false
              end) eqn:Efin; cbn [negb fst snd].
    + split; assumption.
    + destruct chosen as [[pos existing]|]; cbn [fst snd].
      * destruct Hchosen as [Hnth [Hex Hmin]].
        destruct (assignedTime entry <? assignedTime existing) eqn:Elt;
          cbn [fst snd].
        -- apply Z.ltb_lt in Elt. split; [rewrite Hkept; reflexivity|].
           split; [reflexivity|]. split; [exact Hpair|].
           intros e [<-|Hin] He; [lia|]. specialize (Hmin e Hin He). lia.
        -- apply Z.ltb_ge in Elt. split; [rewrite Hkept; reflexivity|].
           split; [exact Hnth|]. split; [exact Hex|].
           intros e [<-|Hin] He; [exact Elt|]. apply Hmin; assumption.
      * split; [rewrite Hkept; reflexivity|].
        split; [reflexivity|]. split; [exact Hpair|].
        intros e [<-|Hin] He; [lia|].
        rewrite (Hchosen e Hin) in He. discriminate.
  - (* another worker's lease *)
    assert (Hpair : isPair taskId workerId entry = false)
      by (unfold isPair; rewrite Et, Ew; reflexivity).
    split; [rewrite Hkept; reflexivity|].
    destruct chosen as [[pos existing]|]; cbn [fst snd].
    + destruct Hchosen as [Hnth [Hex Hmin]].
      split; [exact Hnth|]. split; [exact Hex|].
      intros e [<-|Hin] He; [congruence|]. apply Hmin; assumption.
    + intros e [<-|Hin]; [exact Hpair|]. apply Hchosen. exact Hin.
  - (* another task's lease *)
    assert (Hpair : isPair taskId workerId entry = false)
      by (unfold isPair; rewrite Et; reflexivity).
    split; [rewrite Hkept; reflexivity|].
    destruct chosen as [[pos existing]|]; cbn [fst snd].
    + destruct Hchosen as [Hnth [Hex Hmin]].
      split; [exact Hnth|]. split; [exact Hex|].
      intros e [<-|Hin] He; [congruence|]. apply Hmin; assumption.
    + intros e [<-|Hin]; [exact Hpair|]. apply Hchosen. exact Hin.
Qed.

(** A lease whose range lies within the items is resumed on that range. *)
Lemma resumeBounds_original total entry start stop :
  a_rangeStart entry = Some start -> a_rangeEnd entry = Some stop ->
  0 <= start -> start < stop -> stop <= total ->
  resumeBounds total entry = (start, stop).
Proof.
  intros Hs He H0 Hlt Hle. unfold resumeBounds, assignmentRange, normalizeRange.
  rewrite Hs, He.
  assert (E : (start <? stop) = true) by (apply Z.ltb_lt; exact Hlt).
  rewrite E. cbn [option_map fst snd nullish].
  rewrite (Z.min_l start total), (Z.max_r 0 start), (Z.min_l stop total),
    (Z.max_r start stop) by lia.
  assert (E' : (stop <=? start) = false) by (apply Z.leb_gt; exact Hlt).
  rewrite E'. reflexivity.
Qed.

(** C4, as the code has it.  When, after the sweep of expired leases,
    [next-chunk] finds leases of the pair whose bucket has no terminal
    result, it answers with [resume = true], the bucket index of the one
    that is oldest by [assignedAt], and that lease's range clamped to the
    items (the range itself when it lies within them).  Leases of the pair
    whose bucket has a terminal result are removed; every other lease,
    other leases of the pair included, stays in the collection, and the
    resumed lease has its expiry refreshed. *)
Theorem next_chunk_resumes_oldest nanoid dbc (Item : Type)
    (byteLength : Item -> option Z) now db (dataItems : list Item) req
    taskId workerId taskPos task workers :
  n_taskId req = Some taskId -> n_workerId req = Some workerId ->
  taskId <> "" -> workerId <> "" ->
  findEntry (fun t => (t_id t =? taskId)%string) (tasks db) = Some (taskPos, task) ->
  t_revoked task = false ->
  t_assignedWorkers task = Some workers -> In workerId workers ->
  dataItems <> [] ->
  let kept :=
    filter (fun entry =>
              negb (isPair taskId workerId entry
                    && hasTerminalResult taskId (chunkResults db) entry))
      (chunkAssignments (sweepExpiredAssignments now db taskId)) in
  (exists lease, In lease kept /\ isPair taskId workerId lease = true) ->
  exists pos existing grant,
    fst (nextChunk nanoid dbc byteLength now db dataItems req) = NextGranted grant /\
    nth_error kept pos = Some existing /\
    isPair taskId workerId existing = true /\
    (forall lease, In lease kept -> isPair taskId workerId lease = true ->
                   assignedTime existing <= assignedTime lease) /\
    g_resume grant = true /\
    g_chunkIndex grant = match a_chunkIndex existing with
                         | Some c => c
                         | None => g_rangeStart grant
                         end /\
    (g_rangeStart grant, g_rangeEnd grant)
    = resumeBounds (Z.of_nat (List.length dataItems)) existing /\
    (forall start stop,
        a_rangeStart existing = Some start -> a_rangeEnd existing = Some stop ->
        0 <= start -> start < stop -> stop <= Z.of_nat (List.length dataItems) ->
        g_rangeStart grant = start /\ g_rangeEnd grant = stop) /\
    chunkAssignments (snd (nextChunk nanoid dbc byteLength now db dataItems req))
    = replaceAt pos (refreshLease now workerId existing) kept.
Proof.
  intros Ht Hw Htid Hwid Htask Hrev Hworkers Hin Hitems kept [lease [Hlease Hpair]].
  destruct (findEntry_Some _ _ Htask) as [_ [Hid _]].
  apply String.eqb_eq in Hid.
  pose proof (resumeScan_spec taskId workerId (chunkResults db)
                (chunkAssignments (sweepExpiredAssignments now db taskId)))
    as Hscan.
  cbv zeta in Hscan. fold kept in Hscan.
  unfold nextChunk. rewrite Ht, Hw.
  rewrite (truthy_Some Htid), (truthy_Some Hwid). cbn [negb orb].
  rewrite Htask, Hrev, Hworkers.
  assert (Hassigned : existsb (fun w => (w =? workerId)%string) workers = true).
  { apply existsb_exists. exists workerId. split; [exact Hin|apply String.eqb_refl]. }
  rewrite Hassigned. cbn [negb]. cbv zeta. rewrite Hid.
  change (chunkResults (sweepExpiredAssignments now db taskId))
    with (chunkResults db).
  destruct (resumeScan taskId workerId (chunkResults db)
              (chunkAssignments (sweepExpiredAssignments now db taskId)))
    as [kept' chosen].
  cbn [fst snd] in Hscan. destruct Hscan as [Hkept Hchosen]. subst kept'.
  destruct chosen as [[pos existing]|].
  2:{ rewrite (Hchosen lease Hlease) in Hpair. discriminate. }
  destruct Hchosen as [Hnth [Hex Hmin]].
  destruct dataItems as [|item items]; [contradiction|].
  set (total := Z.of_nat (List.length (item :: items))).
  destruct (resumeBounds total existing) as [safeStart safeEnd] eqn:Ebounds.
  exists pos, existing.
  eexists. split; [reflexivity|].
  cbn [fst snd g_resume g_chunkIndex g_rangeStart g_rangeEnd
       chunkAssignments setTasks setChunkAssignments].
  split; [exact Hnth|]. split; [exact Hex|]. split; [exact Hmin|].
  split; [reflexivity|]. split; [reflexivity|].
  split; [symmetry; exact Ebounds|].
  split; [|reflexivity].
  intros start stop Hs He H0 Hlt Hle.
  rewrite (resumeBounds_original existing Hs He H0 Hlt Hle) in Ebounds.
  inversion Ebounds. split; reflexivity.
Qed.

Lemma next_chunk_resumes_oldest_witness :
  exists grant,
    fst (nextChunk sampleNanoid true sampleByteLength 1300 sampleTwoLeases
           sampleItems (sampleNext "w1")) = NextGranted grant /\
    g_resume grant = true.
Proof.
  assert (Htid : "task-1" <> "") by discriminate.
  assert (Hwid : "w1" <> "") by discriminate.
  assert (Hitems : sampleItems <> []) by discriminate.
  assert (Htask : findEntry (fun t => (t_id t =? "task-1")%string)
                    (tasks sampleTwoLeases)
                  = Some (O, nth O (tasks sampleTwoLeases) (sampleTask 2 10)))
    by (vm_compute; reflexivity).
  destruct (@next_chunk_resumes_oldest sampleNanoid true Z sampleByteLength 1300
              sampleTwoLeases sampleItems (sampleNext "w1") "task-1" "w1" O
              (nth O (tasks sampleTwoLeases) (sampleTask 2 10)) ["w1"; "w2"]
              eq_refl eq_refl Htid Hwid Htask eq_refl eq_refl
              (or_introl eq_refl) Hitems)
    as [pos [existing [grant [Hreply [_ [_ [_ [Hresume _]]]]]]]].
  - exists (nth O (chunkAssignments sampleTwoLeases) (sampleLease "" 0 "" 0 0 0)).
    split; [vm_compute; left; reflexivity|vm_compute; reflexivity].
  - exists grant. split; [exact Hreply|exact Hresume].
Defined.

(** C4 as stated fails.  Worker [w1] holds the leases of buckets 0 and 1
    (the second taken over through a progress batch).  [next-chunk] resumes
    bucket 0, the older one, and the lease of bucket 1 is still in the
    collection afterwards. *)
Lemma resume_keeps_other_lease_counterexample :
  (exists grant,
      fst (nextChunk sampleNanoid true sampleByteLength 1300 sampleTwoLeases
             sampleItems (sampleNext "w1")) = NextGranted grant /\
      g_resume grant = true /\ g_chunkIndex grant = 0) /\
  map (fun entry => (a_chunkIndex entry, a_workerId entry))
    (chunkAssignments
       (snd (nextChunk sampleNanoid true sampleByteLength 1300 sampleTwoLeases
               sampleItems (sampleNext "w1"))))
  = [(Some 0, Some "w1"); (Some 1, Some "w1")].
Proof.
  split.
  - eexists. split; [vm_compute; reflexivity|]. split; reflexivity.
  - vm_compute. reflexivity.
Qed.

(** ** The bucket planner: [calculateBucket] *)

Lemma find_seq_Some (p : nat -> bool) (n a k : nat) :
  find p (seq a n) = Some k ->
  (a <= k < a + n)%nat /\ p k = true /\
  forall j, (a <= j < k)%nat -> p j = false.
Proof.
  revert a. induction n as [|n IH]; intros a H; [discriminate|].
  cbn [seq find] in H. destruct (p a) eqn:Ea.
  - injection H as <-. split; [lia|]. split; [exact Ea|]. intros j Hj; lia.
  - destruct (IH _ H) as [Hr [Hp Hlt]]. split; [lia|]. split; [exact Hp|].
    intros j Hj. destruct (Nat.eq_dec j a) as [->|Hne]; [exact Ea|].
    apply Hlt; lia.
Qed.

Lemma find_seq_None (p : nat -> bool) (n a : nat) :
  find p (seq a n) = None -> forall j, (a <= j < a + n)%nat -> p j = false.
Proof.
  revert a. induction n as [|n IH]; intros a H j Hj; [lia|].
  cbn [seq find] in H. destruct (p a) eqn:Ea; [discriminate|].
  destruct (Nat.eq_dec j a) as [->|Hne]; [exact Ea|].
  apply (IH _ H); lia.
Qed.

Lemma scanBucket_cons covered start size rest st :
  scanBucket covered start (size :: rest) st
  = if covered (k_end st) : bool then st
    else
      let st1 := fitForItem st size in
      if k_limit st1 <? size then
        if k_end st1 =? start
        then {| k_maxBuckets := k_maxBuckets st1;
                k_maxBucketBytes := k_maxBucketBytes st1;
                k_configChanged := k_configChanged st1;
                k_limit := k_limit st1;
                k_bytesUsed := size; k_end := start + 1 |}
        else st1
      else if ((0 <? k_bytesUsed st1)
               && (k_limit st1 <? k_bytesUsed st1 + size))%bool
      then st1
      else
        let st2 := {| k_maxBuckets := k_maxBuckets st1;
                      k_maxBucketBytes := k_maxBucketBytes st1;
                      k_configChanged := k_configChanged st1;
                      k_limit := k_limit st1;
                      k_bytesUsed := k_bytesUsed st1 + size;
                      k_end := k_end st1 + 1 |} in
        if k_limit st2 <=? k_bytesUsed st2 then st2
        else scanBucket covered start rest st2.
Proof. reflexivity. Qed.

Lemma fitForItem_end st size :
  k_end (fitForItem st size) = k_end st /\
  k_bytesUsed (fitForItem st size) = k_bytesUsed st.
Proof.
  unfold fitForItem. destruct (k_limit st <? size); [|split; reflexivity].
  cbv zeta. destruct (f_changed _); split; reflexivity.
Qed.

(** The loop only moves [end] forward, by at most the items it is given,
    and every index it takes is one that nothing covers. *)
Lemma scanBucket_range covered start sizes st :
  k_end st <= k_end (scanBucket covered start sizes st)
           <= k_end st + Z.of_nat (List.length sizes) /\
  (forall i, k_end st <= i < k_end (scanBucket covered start sizes st) ->
             covered i = false).
Proof.
  revert st. induction sizes as [|size rest IH]; intros st.
  - cbn. split; [lia|]. intros; lia.
  - rewrite scanBucket_cons.
    assert (Hlen : Z.of_nat (List.length (size :: rest))
                   = Z.of_nat (List.length rest) + 1)
      by (cbn [List.length]; lia).
    rewrite Hlen.
    destruct (covered (k_end st)) eqn:Ecov; [split; [lia|intros; lia]|].
    cbv zeta. destruct (fitForItem_end st size) as [He Hb].
    set (st1 := fitForItem st size) in *.
    destruct (k_limit st1 <? size).
    + destruct (k_end st1 =? start) eqn:Es.
      * apply Z.eqb_eq in Es. cbn [k_end]. rewrite <- Es, He.
        split; [lia|]. intros i Hi. assert (i = k_end st) as -> by lia.
        exact Ecov.
      * rewrite He. split; [lia|intros; lia].
    + destruct ((0 <? k_bytesUsed st1)
                && (k_limit st1 <? k_bytesUsed st1 + size))%bool.
      * rewrite He. split; [lia|intros; lia].
      * match goal with
        | |- context [scanBucket covered start rest ?s] => set (st2 := s)
        end.
        assert (He2 : k_end st2 = k_end st + 1) by (cbn; lia).
        destruct (k_limit st2 <=? k_bytesUsed st2).
        -- rewrite He2. split; [lia|]. intros i Hi.
           assert (i = k_end st) as -> by lia. exact Ecov.
        -- destruct (IH st2) as [Hr Hc]. rewrite He2 in Hr, Hc.
           split; [lia|]. intros i Hi.
           destruct (Z.eq_dec i (k_end st)) as [->|Hne]; [exact Ecov|].
           apply Hc. lia.
Qed.

Lemma halveLoop_changed size s :
  f_changed (halveLoop size s) = true \/ halveLoop size s = s.
Proof.
  functional induction (halveLoop size s).
  - left. destruct IHf as [H|H]; [exact H|]. rewrite H. reflexivity.
  - right. reflexivity.
Qed.

(** [ensureItemFits] reports a change exactly when the item is larger than
    the capacity it is given. *)
Lemma ensureItemFits_changed n b size :
  b < size -> f_changed (ensureItemFits n b size) = true.
Proof.
  intros H. unfold ensureItemFits, growToFit.
  set (s0 := {| f_maxBuckets := n; f_maxBucketBytes := b; f_changed := false |}).
  destruct (f_maxBucketBytes (halveLoop size s0) <? size) eqn:E; [reflexivity|].
  destruct (halveLoop_changed size s0) as [Hc|Hs]; [exact Hc|].
  rewrite Hs in E. cbn in E. apply Z.ltb_ge in E. lia.
Qed.

Lemma ensureItemFits_unchanged n b size :
  size <= b ->
  ensureItemFits n b size
  = {| f_maxBuckets := n; f_maxBucketBytes := b; f_changed := false |}.
Proof.
  intros H. unfold ensureItemFits. rewrite halveLoop_equation.
  assert (E : (b <? size) = false) by (apply Z.ltb_ge; exact H).
  unfold mustHalve. cbn [f_maxBuckets f_maxBucketBytes]. rewrite E.
  rewrite andb_false_r. unfold growToFit. cbn [f_maxBucketBytes]. rewrite E.
  reflexivity.
Qed.

Lemma fitForItem_fits st size :
  1 <= k_maxBuckets st -> 1 <= k_maxBucketBytes st ->
  k_limit st = k_maxBucketBytes st ->
  1 <= k_maxBuckets (fitForItem st size) <= k_maxBuckets st /\
  k_maxBucketBytes st <= k_maxBucketBytes (fitForItem st size) /\
  k_limit (fitForItem st size) = k_maxBucketBytes (fitForItem st size) /\
  size <= k_limit (fitForItem st size).
Proof.
  intros Hn Hb Hl. unfold fitForItem.
  destruct (k_limit st <? size) eqn:E.
  - apply Z.ltb_lt in E. cbv zeta.
    rewrite (@ensureItemFits_changed (k_maxBuckets st) (k_maxBucketBytes st) size)
      by lia.
    pose proof (ensureItemFits_fits size Hn Hb) as [H1 [H2 H3]].
    cbn [k_maxBuckets k_maxBucketBytes k_limit]. repeat split; lia.
  - apply Z.ltb_ge in E. repeat split; lia.
Qed.

(** With a valid configuration and sizes that are not negative, the bytes
    that the loop has counted are those of the items it took, they fit the
    capacity, which only grows, and the loop stops only for a reason. *)
Lemma scanBucket_capacity covered start sizes st :
  1 <= k_maxBuckets st -> 1 <= k_maxBucketBytes st ->
  k_limit st = k_maxBucketBytes st ->
  Forall (fun s => 0 <= s) sizes ->
  0 <= k_bytesUsed st <= k_limit st ->
  let st' := scanBucket covered start sizes st in
  1 <= k_maxBuckets st' <= k_maxBuckets st /\
  k_maxBucketBytes st <= k_maxBucketBytes st' /\
  k_limit st' = k_maxBucketBytes st' /\
  k_bytesUsed st'
  = k_bytesUsed st + sumZ (firstn (Z.to_nat (k_end st' - k_end st)) sizes) /\
  k_bytesUsed st' <= k_limit st' /\
  (k_end st' = k_end st + Z.of_nat (List.length sizes) \/
   covered (k_end st') = true \/
   k_limit st' <= k_bytesUsed st' \/
   (0 < k_bytesUsed st' /\
    k_limit st'
    < k_bytesUsed st' + nth (Z.to_nat (k_end st' - k_end st)) sizes 0)).
Proof.
  revert st. induction sizes as [|size rest IH]; intros st Hn Hb Hl Hsizes Hbytes.
  - cbn. rewrite Z.sub_diag. cbn. repeat split; lia.
  - cbv zeta. rewrite scanBucket_cons.
    assert (Hlen : Z.of_nat (List.length (size :: rest))
                   = Z.of_nat (List.length rest) + 1)
      by (cbn [List.length]; lia).
    rewrite Hlen.
    inversion Hsizes as [|? ? Hsize Hrest]; subst.
    destruct (covered (k_end st)) eqn:Ecov.
    { rewrite Z.sub_diag. cbn [Z.to_nat firstn sumZ fold_right].
      repeat split; try lia. right. left. exact Ecov. }
    cbv zeta. destruct (fitForItem_end st size) as [He Hbu].
    destruct (@fitForItem_fits st size Hn Hb Hl) as [Hn1 [Hb1 [Hl1 Hfit]]].
    set (st1 := fitForItem st size) in *.
    assert (E : (k_limit st1 <? size) = false) by (apply Z.ltb_ge; exact Hfit).
    rewrite E.
    destruct ((0 <? k_bytesUsed st1)
              && (k_limit st1 <? k_bytesUsed st1 + size))%bool eqn:Ebreak.
    + apply andb_prop in Ebreak. destruct Ebreak as [Hpos Hover].
      apply Z.ltb_lt in Hpos. apply Z.ltb_lt in Hover.
      rewrite He, Z.sub_diag. cbn [Z.to_nat firstn sumZ fold_right nth].
      repeat split; try lia; try (right; right; right; lia).
    + assert (Hroom : k_bytesUsed st1 + size <= k_limit st1).
      { apply andb_false_iff in Ebreak. destruct Ebreak as [Hz|Hr].
        - apply Z.ltb_ge in Hz. lia.
        - apply Z.ltb_ge in Hr. exact Hr. }
      match goal with
      | |- context [scanBucket covered start rest ?s] => set (st2 := s)
      end.
      assert (He2 : k_end st2 = k_end st + 1) by (cbn; lia).
      assert (Hb2 : k_bytesUsed st2 = k_bytesUsed st + size) by (cbn; lia).
      assert (Hone : Z.to_nat (k_end st + 1 - k_end st) = 1%nat) by lia.
      destruct (k_limit st2 <=? k_bytesUsed st2) eqn:Efull.
      * apply Z.leb_le in Efull. rewrite He2, Hone.
        cbn [firstn sumZ fold_right].
        change (k_maxBuckets st2) with (k_maxBuckets st1).
        change (k_maxBucketBytes st2) with (k_maxBucketBytes st1).
        change (k_limit st2) with (k_limit st1) in *.
        repeat split; try lia; try (right; right; left; lia).
      * assert (Hn2 : 1 <= k_maxBuckets st2) by (cbn; lia).
        assert (Hbb2 : 1 <= k_maxBucketBytes st2) by (cbn; lia).
        assert (Hl2 : k_limit st2 = k_maxBucketBytes st2) by (cbn; lia).
        assert (Hby2 : 0 <= k_bytesUsed st2 <= k_limit st2) by (cbn; lia).
        specialize (IH st2 Hn2 Hbb2 Hl2 Hrest Hby2). cbv zeta in IH.
        destruct (scanBucket_range covered start rest st2) as [Hr _].
        set (st' := scanBucket covered start rest st2) in *.
        destruct IH as [I1 [I2 [I3 [I4 [I5 I6]]]]].
        change (k_maxBuckets st2) with (k_maxBuckets st1) in I1.
        change (k_maxBucketBytes st2) with (k_maxBucketBytes st1) in I2.
        rewrite He2 in I4, I6, Hr.
        assert (Hk : Z.to_nat (k_end st' - k_end st)
                     = S (Z.to_nat (k_end st' - (k_end st + 1)))) by lia.
        rewrite Hk. cbn [firstn sumZ fold_right nth].
        fold (sumZ (firstn (Z.to_nat (k_end st' - (k_end st + 1))) rest)).
        repeat split; try lia.
        destruct I6 as [I6|[I6|[I6|I6]]].
        -- left. lia.
        -- right. left. exact I6.
        -- right. right. left. exact I6.
        -- right. right. right. exact I6.
Qed.

(** What [calculateBucket] returns: the first index that nothing covers,
    and from there a non-empty run of uncovered indices within the items. *)
Lemma calculateBucket_Some mb mbb sizes finished assigned bucket cfg :
  calculateBucket mb mbb sizes finished assigned = Some (bucket, cfg) ->
  0 <= bk_rangeStart bucket < bk_rangeEnd bucket /\
  bk_rangeEnd bucket <= Z.of_nat (List.length sizes) /\
  (forall i, 0 <= i < bk_rangeStart bucket ->
             coveredBy finished assigned i = true) /\
  (forall i, bk_rangeStart bucket <= i < bk_rangeEnd bucket ->
             coveredBy finished assigned i = false).
Proof.
  unfold calculateBucket. cbv zeta.
  change (fun i : Z => (indexCovered i finished || indexCovered i assigned)%bool)
    with (coveredBy finished assigned).
  set (covered := coveredBy finished assigned).
  destruct (find _ (seq 0 (List.length sizes))) as [startPos|] eqn:Efind;
    [|discriminate].
  apply find_seq_Some in Efind. destruct Efind as [Hpos [Hfree Hbefore]].
  apply negb_true_iff in Hfree.
  set (start := Z.of_nat startPos) in *.
  match goal with
  | |- context [scanBucket covered start ?l ?s] =>
      destruct (scanBucket_range covered start l s) as [Hr Hc];
      set (st := scanBucket covered start l s) in *
  end.
  cbn [k_end] in Hr, Hc.
  rewrite length_skipn in Hr.
  intros H.
  destruct (k_end st =? start) eqn:Es; injection H as <- _;
    cbn [bk_rangeStart bk_rangeEnd].
  - split; [lia|]. split; [lia|]. split.
    + intros i Hi. specialize (Hbefore (Z.to_nat i) ltac:(lia)).
      apply negb_false_iff in Hbefore. rewrite Z2Nat.id in Hbefore by lia.
      exact Hbefore.
    + intros i Hi. assert (i = start) as -> by lia. exact Hfree.
  - apply Z.eqb_neq in Es. split; [lia|]. split; [lia|]. split.
    + intros i Hi. specialize (Hbefore (Z.to_nat i) ltac:(lia)).
      apply negb_false_iff in Hbefore. rewrite Z2Nat.id in Hbefore by lia.
      exact Hbefore.
    + intros i Hi. apply Hc. lia.
Qed.

Lemma calculateBucket_None mb mbb sizes finished assigned :
  calculateBucket mb mbb sizes finished assigned = None ->
  forall i, 0 <= i < Z.of_nat (List.length sizes) ->
            coveredBy finished assigned i = true.
Proof.
  unfold calculateBucket. cbv zeta.
  change (fun i : Z => (indexCovered i finished || indexCovered i assigned)%bool)
    with (coveredBy finished assigned).
  destruct (find _ (seq 0 (List.length sizes))) as [startPos|] eqn:Efind.
  - destruct (k_end _ =? _); discriminate.
  - intros _ i Hi.
    pose proof (@find_seq_None _ _ _ Efind (Z.to_nat i) ltac:(lia)) as H.
    apply negb_false_iff in H. rewrite Z2Nat.id in H by lia. exact H.
Qed.

Lemma Forall_skipn_keeps {A : Type} (P : A -> Prop) (n : nat) (l : list A) :
  Forall P l -> Forall P (skipn n l).
Proof.
  revert l. induction n as [|n IH]; intros l H; [exact H|].
  destruct l as [|x rest]; [constructor|].
  inversion H; subst. cbn [skipn]. apply IH. assumption.
Qed.

(** Items that fit the capacity leave the configuration alone. *)
Lemma scanBucket_stable covered start sizes st :
  Forall (fun s => s <= k_limit st) sizes ->
  let st' := scanBucket covered start sizes st in
  k_maxBuckets st' = k_maxBuckets st /\
  k_maxBucketBytes st' = k_maxBucketBytes st /\
  k_configChanged st' = k_configChanged st /\
  k_limit st' = k_limit st.
Proof.
  revert st. induction sizes as [|size rest IH]; intros st Hsizes.
  - cbn. repeat split.
  - cbv zeta. rewrite scanBucket_cons.
    inversion Hsizes as [|? ? Hsize Hrest]; subst.
    destruct (covered (k_end st)); [repeat split|].
    assert (E : (k_limit st <? size) = false) by (apply Z.ltb_ge; exact Hsize).
    assert (Hfit : fitForItem st size = st) by (unfold fitForItem; rewrite E; reflexivity).
    cbv zeta. rewrite Hfit, E.
    destruct ((0 <? k_bytesUsed st) && (k_limit st <? k_bytesUsed st + size))%bool;
      [repeat split|].
    match goal with
    | |- context [scanBucket covered start rest ?s] => set (st2 := s)
    end.
    destruct (k_limit st2 <=? k_bytesUsed st2); [repeat split|].
    apply (IH st2). exact Hrest.
Qed.

Lemma calculateBucket_stable mb mbb sizes finished assigned bucket cfg :
  Forall (fun s => s <= mbb) sizes ->
  calculateBucket mb mbb sizes finished assigned = Some (bucket, cfg) ->
  cfg = {| f_maxBuckets := mb; f_maxBucketBytes := mbb; f_changed := false |}.
Proof.
  intros Hsizes. unfold calculateBucket. cbv zeta.
  set (covered := fun i : Z => (indexCovered i finished || indexCovered i assigned)%bool).
  destruct (find _ (seq 0 (List.length sizes))) as [startPos|] eqn:Efind;
    [|discriminate].
  apply find_seq_Some in Efind. destruct Efind as [Hpos _].
  assert (Hfirst : nth startPos sizes 0 <= mbb).
  { rewrite Forall_forall in Hsizes. apply Hsizes. apply nth_In. lia. }
  rewrite (ensureItemFits_unchanged mb Hfirst).
  cbn [f_maxBuckets f_maxBucketBytes f_changed].
  match goal with
  | |- context [scanBucket covered ?start ?l ?s] =>
      pose proof (@scanBucket_stable covered start l s
                    (Forall_skipn_keeps startPos Hsizes)) as Hst;
      set (st := scanBucket covered start l s) in *
  end.
  cbv zeta in Hst. cbn [k_maxBuckets k_maxBucketBytes k_configChanged k_limit] in Hst.
  destruct Hst as [H1 [H2 [H3 _]]].
  intros H. destruct (k_end st =? _); injection H as _ <-;
    rewrite H1, H2, H3; reflexivity.
Qed.

Lemma fitBucketConfig_valid (Item : Type) (byteLength : Item -> option Z)
    (task : Task) (items : list Item) :
  let cfg := fitBucketConfig byteLength task items in
  1 <= f_maxBuckets cfg /\ 1 <= f_maxBucketBytes cfg /\
  largestItemBytes byteLength items <= f_maxBucketBytes cfg.
Proof.
  cbv zeta. unfold fitBucketConfig.
  pose proof (initialBucketBytes_valid task) as [Hbytes _].
  pose proof (desiredMaxBuckets_valid task) as [Hdesired _].
  destruct (initialBucketBytes task) as [bytes0 mutated2]. cbn [fst] in Hbytes.
  set (L := largestItemBytes byteLength items).
  match goal with
  | |- context [halveLoop L ?s] =>
      pose proof (@halveLoop_bounds L s) as Hloop; set (s1 := halveLoop L s) in *
  end.
  cbn [f_maxBuckets f_maxBucketBytes] in Hloop.
  specialize (Hloop ltac:(lia) ltac:(lia)). destruct Hloop as [Hn Hb].
  destruct (@growToFit_fits L s1 ltac:(lia)) as [G1 [_ [G3 G4]]].
  rewrite G1. repeat split; lia.
Qed.

Lemma itemSize_bound (Item : Type) (byteLength : Item -> option Z)
    (items : list Item) (B : Z) :
  0 <= B -> largestItemBytes byteLength items <= B ->
  Forall (fun s => s <= B) (map (itemSize byteLength) items).
Proof.
  intros HB HL. apply Forall_forall. intros s Hin.
  apply in_map_iff in Hin. destruct Hin as [item [<- Hin]].
  unfold itemSize. destruct (byteLength item) as [len|] eqn:E; [|exact HB].
  pose proof (largestItemBytes_bound byteLength items item Hin E). lia.
Qed.

(** X1.  [calculateBucket] answers with the first index that neither a
    stored result nor a lease covers, and from there with a non-empty run
    of such indices that stays within the items; it answers [null] only
    when every index is covered. *)
Theorem planner_picks_first_free_run mb mbb sizes finished assigned :
  match calculateBucket mb mbb sizes finished assigned with
  | Some (bucket, _) =>
      0 <= bk_rangeStart bucket < bk_rangeEnd bucket /\
      bk_rangeEnd bucket <= Z.of_nat (List.length sizes) /\
      (forall i, 0 <= i < bk_rangeStart bucket ->
                 coveredBy finished assigned i = true) /\
      (forall i, bk_rangeStart bucket <= i < bk_rangeEnd bucket ->
                 coveredBy finished assigned i = false)
  | None =>
      forall i, 0 <= i < Z.of_nat (List.length sizes) ->
                coveredBy finished assigned i = true
  end.
Proof.
  destruct (calculateBucket mb mbb sizes finished assigned) as [[bucket cfg]|] eqn:E.
  - exact (calculateBucket_Some _ _ _ _ _ E).
  - exact (calculateBucket_None _ _ _ _ _ E).
Qed.

(** X2.  Given a configuration with at least one bucket and one byte, and
    item sizes that are not negative: [bytesUsed] is the sum of the sizes
    of the bucket's items and does not exceed [maxBucketBytes] as
    [calculateBucket] leaves it; [maxBuckets] only shrinks and stays at
    least 1, [maxBucketBytes] only grows; and the bucket is maximal: it
    ends at the last item, before a covered index, at full capacity, or
    before an item that would exceed the capacity. *)
Theorem planner_bucket_within_capacity mb mbb sizes finished assigned bucket cfg :
  1 <= mb -> 1 <= mbb -> Forall (fun s => 0 <= s) sizes ->
  calculateBucket mb mbb sizes finished assigned = Some (bucket, cfg) ->
  bk_bytesUsed bucket
  = sumZ (slice (bk_rangeStart bucket) (bk_rangeEnd bucket) sizes) /\
  bk_bytesUsed bucket <= f_maxBucketBytes cfg /\
  1 <= f_maxBuckets cfg <= mb /\ mbb <= f_maxBucketBytes cfg /\
  (bk_rangeEnd bucket = Z.of_nat (List.length sizes) \/
   coveredBy finished assigned (bk_rangeEnd bucket) = true \/
   f_maxBucketBytes cfg <= bk_bytesUsed bucket \/
   f_maxBucketBytes cfg
   < bk_bytesUsed bucket + nth (Z.to_nat (bk_rangeEnd bucket)) sizes 0).
Proof.
  intros Hmb Hmbb Hsizes. unfold calculateBucket. cbv zeta.
  change (fun i : Z => (indexCovered i finished || indexCovered i assigned)%bool)
    with (coveredBy finished assigned).
  set (covered := coveredBy finished assigned).
  destruct (find _ (seq 0 (List.length sizes))) as [startPos|] eqn:Efind;
    [|discriminate].
  apply find_seq_Some in Efind. destruct Efind as [Hpos [Hfree _]].
  apply negb_true_iff in Hfree.
  set (start := Z.of_nat startPos) in *.
  set (firstSize := nth startPos sizes 0).
  destruct (@ensureItemFits_fits mb mbb firstSize Hmb Hmbb) as [Hf1 [Hf2 Hf3]].
  set (fit := ensureItemFits mb mbb firstSize) in *.
  match goal with
  | |- context [scanBucket covered start ?l ?s] =>
      destruct (scanBucket_range covered start l s) as [Hr _];
      pose proof (@scanBucket_capacity covered start l s) as Hcap;
      set (st := scanBucket covered start l s) in *
  end.
  cbn [k_end k_maxBuckets k_maxBucketBytes k_limit k_bytesUsed] in Hr, Hcap.
  specialize (Hcap ltac:(lia) ltac:(lia) eq_refl
                (Forall_skipn_keeps startPos Hsizes) ltac:(lia)).
  cbv zeta in Hcap. destruct Hcap as [C1 [C2 [C3 [C4 [C5 C6]]]]].
  rewrite length_skipn in Hr, C6.
  intros H.
  destruct (k_end st =? start) eqn:Es; injection H as <- <-;
    cbn [bk_rangeStart bk_rangeEnd bk_bytesUsed f_maxBuckets f_maxBucketBytes].
  - (* the loop took nothing: excluded by the configuration *)
    apply Z.eqb_eq in Es. exfalso.
    rewrite Es, Z.sub_diag in C4. cbn in C4.
    rewrite Es in C6. destruct C6 as [C6|[C6|[C6|C6]]]; try lia.
    unfold covered, coveredBy in C6. congruence.
  - apply Z.eqb_neq in Es.
    rewrite (Z.min_l (k_end st)) by lia.
    split.
    { rewrite C4. unfold slice, start. rewrite Nat2Z.id. lia. }
    split; [lia|]. split; [lia|]. split; [lia|].
    destruct C6 as [C6|[C6|[C6|C6]]].
    + left. lia.
    + right. left. exact C6.
    + right. right. left. lia.
    + right. right. right. rewrite nth_skipn in C6.
      replace (startPos + Z.to_nat (k_end st - start))%nat
        with (Z.to_nat (k_end st)) in C6 by lia.
      lia.
Qed.

Lemma planner_bucket_within_capacity_witness :
  exists bucket cfg,
    calculateBucket 5 2 (map (itemSize sampleByteLength) sampleItems) [(0, 2)] []
    = Some (bucket, cfg) /\
    bk_bytesUsed bucket
    = sumZ (slice (bk_rangeStart bucket) (bk_rangeEnd bucket)
              (map (itemSize sampleByteLength) sampleItems)) /\
    bk_bytesUsed bucket <= f_maxBucketBytes cfg.
Proof.
  pose (out := calculateBucket 5 2 (map (itemSize sampleByteLength) sampleItems)
                 [(0, 2)] []).
  assert (E : out = Some ({| bk_rangeStart := 2; bk_rangeEnd := 4; bk_bytesUsed := 2 |},
                          {| f_maxBuckets := 5; f_maxBucketBytes := 2;
                             f_changed := false |}))
    by (vm_compute; reflexivity).
  assert (Hsizes : Forall (fun s => 0 <= s)
                     (map (itemSize sampleByteLength) sampleItems))
    by (vm_compute; repeat constructor; discriminate).
  destruct (@planner_bucket_within_capacity 5 2
              (map (itemSize sampleByteLength) sampleItems) [(0, 2)] [] _ _
              ltac:(lia) ltac:(lia) Hsizes E) as [Hsum [Hfit _]].
  eexists. eexists. split; [exact E|]. split; [exact Hsum|exact Hfit].
Defined.

(** X3.  On the configuration that [ensureBucketConfig] computes for the
    task's items, [calculateBucket] never changes [maxBuckets] or
    [maxBucketBytes]: no item is larger than the normalised capacity, so
    [ensureItemFits] reports no change. *)
Theorem planner_keeps_normalised_config (Item : Type)
    (byteLength : Item -> option Z) (task : Task) (items : list Item)
    finished assigned bucket cfg' :
  let cfg := fitBucketConfig byteLength task items in
  calculateBucket (f_maxBuckets cfg) (f_maxBucketBytes cfg)
    (map (itemSize byteLength) items) finished assigned = Some (bucket, cfg') ->
  f_maxBuckets cfg' = f_maxBuckets cfg /\
  f_maxBucketBytes cfg' = f_maxBucketBytes cfg /\
  f_changed cfg' = false /\
  t_bucketConfig (snd (ensureBucketConfig byteLength task items))
  = Some {| maxBuckets := Some (f_maxBuckets cfg');
            maxBucketBytes := Some (f_maxBucketBytes cfg') |}.
Proof.
  intros cfg H.
  destruct (fitBucketConfig_valid byteLength task items) as [_ [Hb HL]].
  fold cfg in Hb, HL.
  assert (Hsizes : Forall (fun s => s <= f_maxBucketBytes cfg)
                     (map (itemSize byteLength) items))
    by (apply itemSize_bound; lia).
  rewrite (calculateBucket_stable _ _ _ Hsizes H).
  cbn [f_maxBuckets f_maxBucketBytes f_changed].
  repeat split.
Qed.

Lemma planner_keeps_normalised_config_witness :
  exists bucket cfg',
    calculateBucket 5 2 (map (itemSize sampleByteLength) sampleItems) [(0, 2)] []
    = Some (bucket, cfg') /\
    f_maxBuckets cfg' = 5 /\ f_maxBucketBytes cfg' = 2 /\ f_changed cfg' = false.
Proof.
  pose (out := calculateBucket 5 2 (map (itemSize sampleByteLength) sampleItems)
                 [(0, 2)] []).
  assert (E : out = Some ({| bk_rangeStart := 2; bk_rangeEnd := 4; bk_bytesUsed := 2 |},
                          {| f_maxBuckets := 5; f_maxBucketBytes := 2;
                             f_changed := false |}))
    by (vm_compute; reflexivity).
  destruct (@planner_keeps_normalised_config Z sampleByteLength (sampleTask 2 10)
              sampleItems [(0, 2)] [] _ _ E) as [H1 [H2 [H3 _]]].
  eexists. eexists. split; [exact E|]. split; [exact H1|].
  split; [exact H2|exact H3].
Defined.

(** ** Bucket configuration: a fixed point *)

Lemma optZ_eqb_Some (a : option Z) (n : Z) : optZ_eqb a (Some n) = true <-> a = Some n.
Proof.
  destruct a as [m|]; cbn; split; intros H; try discriminate.
  - apply Z.eqb_eq in H. congruence.
  - inversion H. apply Z.eqb_refl.
Qed.

(** On a task whose stored configuration is valid and already has room for
    the largest item, lines 604-642 change nothing. *)
Lemma fitBucketConfig_settled (Item : Type) (byteLength : Item -> option Z)
    (task : Task) (items : list Item) (N B : Z) :
  t_bucketConfig task = Some {| maxBuckets := Some N; maxBucketBytes := Some B |} ->
  1 <= N -> 1 <= B -> largestItemBytes byteLength items <= B ->
  fitBucketConfig byteLength task items
  = {| f_maxBuckets := N; f_maxBucketBytes := B; f_changed := false |}.
Proof.
  intros Hcfg HN HB HL.
  assert (Hof : bucketConfigOf task
                = {| maxBuckets := Some N; maxBucketBytes := Some B |})
    by (unfold bucketConfigOf; rewrite Hcfg; reflexivity).
  assert (Hdesired : desiredMaxBuckets task = N).
  { apply (proj2 (desiredMaxBuckets_valid task)); [rewrite Hof; reflexivity|exact HN]. }
  assert (Hinit : initialBucketBytes task = (B, false)).
  { unfold initialBucketBytes. rewrite Hof. cbn [maxBucketBytes].
    assert (E : (0 <? B) = true) by (apply Z.ltb_lt; lia).
    rewrite E. reflexivity. }
  unfold fitBucketConfig. rewrite Hinit, Hdesired, Hof. cbn [maxBuckets].
  assert (E1 : (N <=? 0) = false) by (apply Z.leb_gt; lia).
  rewrite E1, Z.eqb_refl. cbn [negb orb].
  apply (ensureItemFits_unchanged N HL).
Qed.

(** When lines 604-642 report no change, the stored configuration was the
    fitted one. *)
Lemma fitBucketConfig_unchanged (Item : Type) (byteLength : Item -> option Z)
    (task : Task) (items : list Item) :
  f_changed (fitBucketConfig byteLength task items) = false ->
  t_bucketConfig task
  = Some {| maxBuckets := Some (f_maxBuckets (fitBucketConfig byteLength task items));
            maxBucketBytes :=
              Some (f_maxBucketBytes (fitBucketConfig byteLength task items)) |}.
Proof.
  unfold fitBucketConfig.
  destruct (initialBucketBytes task) as [bytes0 mutated2] eqn:Einit.
  set (L := largestItemBytes byteLength items).
  set (s0 := {| f_maxBuckets := desiredMaxBuckets task; f_maxBucketBytes := bytes0;
                f_changed := _ |}).
  intros Hflag.
  assert (Hgrow : growToFit L (halveLoop L s0) = halveLoop L s0).
  { unfold growToFit in *.
    destruct (f_maxBucketBytes (halveLoop L s0) <? L); [discriminate|reflexivity]. }
  rewrite Hgrow in *.
  destruct (halveLoop_changed L s0) as [Hc|Hs]; [congruence|].
  rewrite Hs in *. cbn [f_changed f_maxBuckets f_maxBucketBytes s0] in *.
  apply orb_false_elim in Hflag. destruct Hflag as [H1 H2]. subst mutated2.
  unfold initialBucketBytes in Einit. unfold bucketConfigOf in *.
  destruct (t_bucketConfig task) as [[[n|] b]|]; cbn [maxBuckets maxBucketBytes] in *;
    try discriminate.
  apply orb_false_elim in H1. destruct H1 as [_ Hn].
  apply negb_false_iff, Z.eqb_eq in Hn.
  destruct b as [b|]; [|discriminate].
  destruct (0 <? b); [|discriminate].
  injection Einit as <-. rewrite <- Hn. reflexivity.
Qed.

(** X21.  [ensureBucketConfig] is idempotent and its flag is exact: run on
    its own result with the same items it reports no change and returns the
    task as it is; and it reports no change on a task exactly when it
    leaves that task as it was. *)
Theorem ensureBucketConfig_idempotent (Item : Type) (byteLength : Item -> option Z)
    (task : Task) (items : list Item) :
  let out := ensureBucketConfig byteLength task items in
  ensureBucketConfig byteLength (snd out) items = (false, snd out) /\
  (fst out = false <-> snd out = task).
Proof.
  cbv zeta.
  assert (Hagain :
            ensureBucketConfig byteLength
              (snd (ensureBucketConfig byteLength task items)) items
            = (false, snd (ensureBucketConfig byteLength task items))).
  { destruct (fitBucketConfig_valid byteLength task items) as [HN [HB HL]].
    unfold ensureBucketConfig at 2 3. cbn [snd].
    set (fitted := fitBucketConfig byteLength task items) in *.
    unfold ensureBucketConfig.
    match goal with
    | |- context [fitBucketConfig byteLength ?t items] =>
        rewrite (@fitBucketConfig_settled Item byteLength t items
                   (f_maxBuckets fitted) (f_maxBucketBytes fitted) eq_refl HN HB HL)
    end.
    cbn [f_maxBuckets f_maxBucketBytes f_changed t_totalChunks t_maxBucketBytes
         setBucketConfig optZ_eqb].
    rewrite !Z.eqb_refl. reflexivity. }
  split; [exact Hagain|].
  split.
  - unfold ensureBucketConfig. cbn [fst snd].
    set (fitted := fitBucketConfig byteLength task items).
    intros Hflag.
    apply orb_false_elim in Hflag. destruct Hflag as [Hflag H4].
    apply orb_false_elim in Hflag. destruct Hflag as [Hc H3].
    apply negb_false_iff, optZ_eqb_Some in H3, H4.
    pose proof (fitBucketConfig_unchanged byteLength task items Hc) as Hcfg.
    fold fitted in Hcfg.
    clearbody fitted. destruct task. cbn in *. subst. reflexivity.
  - intros Hsame. rewrite Hsame in Hagain. rewrite Hagain. reflexivity.
Qed.

(** ** The allocator: [next-chunk] *)

Lemma truthy_true (s : string) : truthy (Some s) = true -> s <> "".
Proof.
  unfold truthy. intros H ->. discriminate.
Qed.

Lemma existsb_eqb_In (w : string) (ws : list string) :
  existsb (fun x => (x =? w)%string) ws = true <-> In w ws.
Proof.
  rewrite existsb_exists. split.
  - intros [x [Hin Hx]]. apply String.eqb_eq in Hx. subst. exact Hin.
  - intros Hin. exists w. split; [exact Hin|apply String.eqb_refl].
Qed.

Lemma In_replaceAt {A : Type} (i : nat) (x y : A) (l : list A) :
  In y (replaceAt i x l) -> y = x \/ In y l.
Proof.
  revert i. induction l as [|z rest IH]; intros i H; [destruct i; contradiction|].
  destruct i as [|j]; cbn [replaceAt] in H.
  - destruct H as [<-|H]; [left; reflexivity|right; right; exact H].
  - destruct H as [<-|H]; [right; left; reflexivity|].
    destruct (IH _ H) as [->|Hin]; [left; reflexivity|right; right; exact Hin].
Qed.

Lemma replaceAt_twice {A : Type} (i : nat) (x y : A) (l : list A) :
  replaceAt i x (replaceAt i y l) = replaceAt i x l.
Proof.
  revert i. induction l as [|z rest IH]; intros [|j]; cbn [replaceAt];
    try reflexivity.
  rewrite IH. reflexivity.
Qed.

(** What a grant of [next-chunk] presupposes and writes: either the
    resumption of a lease of the pair, or a new lease at the end of the
    collection for the bucket that [calculateBucket] picked. *)
Lemma nextChunk_granted nanoid dbc (Item : Type) (byteLength : Item -> option Z)
    now db (dataItems : list Item) req grant db' :
  nextChunk nanoid dbc byteLength now db dataItems req = (NextGranted grant, db') ->
  exists taskId workerId taskPos task,
    n_taskId req = Some taskId /\ n_workerId req = Some workerId /\
    taskId <> "" /\ workerId <> "" /\
    findEntry (fun t => (t_id t =? taskId)%string) (tasks db) = Some (taskPos, task) /\
    t_id task = taskId /\
    t_revoked task = false /\
    In workerId (match t_assignedWorkers task with
                 | Some ws => ws
                 | None => []
                 end) /\
    dataItems <> [] /\
    chunkResults db' = chunkResults db /\ ledgerOf db' = ledgerOf db /\
    let kept :=
      filter (fun entry =>
                negb (isPair taskId workerId entry
                      && hasTerminalResult taskId (chunkResults db) entry))
        (chunkAssignments (sweepExpiredAssignments now db taskId)) in
    let total := Z.of_nat (List.length dataItems) in
    let task1 := setTotalItems task total in
    let cfg := fitBucketConfig byteLength task1 dataItems in
    let task2 := snd (ensureBucketConfig byteLength task1 dataItems) in
    (g_resume grant = true /\
     exists pos existing,
       nth_error kept pos = Some existing /\
       isPair taskId workerId existing = true /\
       chunkAssignments db' = replaceAt pos (refreshLease now workerId existing) kept /\
       tasks db' = replaceAt taskPos task2 (tasks db))
    \/
    (g_resume grant = false /\
     (forall entry, In entry kept -> isPair taskId workerId entry = false) /\
     let budget := resolveTaskBudget task in
     let active := filter (fun a => (a_taskId a =? taskId)%string) kept in
     (dbc = false -> 0 < b_maxBillableChunks budget ->
      b_chunksPaid budget + Z.of_nat (List.length active)
      < b_maxBillableChunks budget) /\
     (dbc = false ->
      forall c u, findUserBySessionId db (orElse (t_creatorId task) None) = Some c ->
                  nth_error (users db) c = Some u ->
                  (b_costPerChunk budget <= u_walletBalance u)%Q) /\
     exists bucket cfg',
       calculateBucket (f_maxBuckets cfg) (f_maxBucketBytes cfg)
         (map (itemSize byteLength) dataItems)
         (collectRanges resultRange (resultsOf taskId db))
         (collectRanges assignmentRange active)
       = Some (bucket, cfg') /\
       let chunkIndex := match t_nextChunkIndex task with
                         | Some n => n
                         | None => 0
                         end in
       let lease :=
         {| a_id := nanoid (nanoidCount db); a_taskId := taskId;
            a_chunkIndex := Some chunkIndex;
            a_workerId := Some workerId;
            a_assignedAt := Some now;
            a_expiresAt := Some (now + BUCKET_TIMEOUT_MS);
            a_rangeStart := Some (bk_rangeStart bucket);
            a_rangeEnd := Some (bk_rangeEnd bucket);
            a_itemsCount := Some (bk_rangeEnd bucket - bk_rangeStart bucket);
            a_processedCount := Some 0;
            a_progressRangeEnd := Some (bk_rangeStart bucket);
            a_bytesUsed := Some (bk_bytesUsed bucket);
            a_lastBatchOffset := Some 0;
            a_lastBatchSize := Some 0;
            a_updatedAt := Some now |} in
       grant = {| g_chunkIndex := chunkIndex;
                  g_chunkData :=
                    slice (bk_rangeStart bucket) (bk_rangeEnd bucket) dataItems;
                  g_rangeStart := bk_rangeStart bucket;
                  g_rangeEnd := bk_rangeEnd bucket;
                  g_totalItems := total;
                  g_bucketBytes := Some (bk_bytesUsed bucket);
                  g_maxBucketBytes := f_maxBucketBytes cfg';
                  g_resume := false;
                  g_processedCount := None |} /\
       chunkAssignments db' = (kept ++ [lease])%list /\
       tasks db'
       = replaceAt taskPos
           (leasedTask task2 cfg' (chunkIndex + 1)
              (match t_assignedWorkers task with
               | Some ws => ws
               | None => []
               end))
           (tasks db)).
Proof.
  intros H. unfold nextChunk in H.
  destruct (n_taskId req) as [taskId|] eqn:Et; [|discriminate].
  destruct (n_workerId req) as [workerId|] eqn:Ew; [|discriminate].
  destruct (negb (truthy (Some taskId)) || negb (truthy (Some workerId)))%bool
    eqn:Eguard; [discriminate|].
  apply orb_false_iff in Eguard. destruct Eguard as [Htid Hwid].
  apply negb_false_iff in Htid. apply negb_false_iff in Hwid.
  apply truthy_true in Htid. apply truthy_true in Hwid.
  destruct (findEntry (fun t => (t_id t =? taskId)%string) (tasks db))
    as [[taskPos task]|] eqn:Efind; [|discriminate].
  destruct (findEntry_Some _ _ Efind) as [_ [Hid _]].
  apply String.eqb_eq in Hid.
  destruct (t_revoked task) eqn:Erev; [discriminate|].
  destruct (negb (existsb (fun w => (w =? workerId)%string)
                    match t_assignedWorkers task with
                    | Some ws => ws
                    | None => []
                    end)) eqn:Eassigned; [discriminate|].
  apply negb_false_iff in Eassigned. apply existsb_eqb_In in Eassigned.
  cbv zeta in H. rewrite Hid in H.
  pose proof (resumeScan_spec taskId workerId (chunkResults db)
                (chunkAssignments (sweepExpiredAssignments now db taskId)))
    as Hscan.
  cbv zeta in Hscan.
  change (chunkResults (sweepExpiredAssignments now db taskId))
    with (chunkResults db) in H.
  destruct (resumeScan taskId workerId (chunkResults db)
              (chunkAssignments (sweepExpiredAssignments now db taskId)))
    as [kept chosen].
  cbn [fst snd] in Hscan. destruct Hscan as [Hkept Hchosen].
  destruct dataItems as [|item items] eqn:Eitems; [discriminate|].
  rewrite <- Eitems in *.
  assert (Hne : dataItems <> []) by (rewrite Eitems; discriminate).
  exists taskId, workerId, taskPos, task.
  do 9 (split; [first [reflexivity | assumption]|]).
  destruct chosen as [[pos existing]|].
  - destruct (resumeBounds (Z.of_nat (List.length dataItems)) existing)
      as [safeStart safeEnd].
    injection H as <- <-. split; [reflexivity|]. split; [reflexivity|].
    cbv zeta. rewrite <- Hkept. left.
    split; [reflexivity|]. exists pos, existing.
    destruct Hchosen as [Hnth [Hpair _]].
    split; [exact Hnth|]. split; [exact Hpair|]. split; reflexivity.
  - match type of H with
    | (if ?g then _ else _) = _ => destruct g eqn:Ebudget; [discriminate|]
    end.
    match type of H with
    | (if ?g then _ else _) = _ => destruct g eqn:Efunds; [discriminate|]
    end.
    match type of H with
    | match ?c with Some _ => _ | None => _ end = _ =>
        destruct c as [[bucket cfg']|] eqn:Ebucket; [|discriminate]
    end.
    injection H as <- <-. split; [reflexivity|]. split; [reflexivity|].
    cbv zeta. rewrite <- Hkept. right.
    split; [reflexivity|]. split; [exact Hchosen|].
    split.
    { intros -> Hmax. cbn [negb andb] in Ebudget.
      apply Z.ltb_lt in Hmax. rewrite Hmax in Ebudget. cbn [andb] in Ebudget.
      apply Z.leb_gt in Ebudget. exact Ebudget. }
    split.
    { intros -> c u Hc Hu. rewrite Hc, Hu in Efunds. cbn [negb andb] in Efunds.
      apply Qltb_ge in Efunds. exact Efunds. }
    exists bucket, cfg'. split; [exact Ebucket|].
    cbv zeta. split; [reflexivity|]. split; [reflexivity|].
    cbn [tasks setTasks setChunkAssignments drawId snd].
    apply replaceAt_twice.
Qed.






Lemma filter_filter_implied {A : Type} (p q : A -> bool) (l : list A) :
  (forall x, p x = true -> q x = true) ->
  filter p (filter q l) = filter p l.
Proof.
  intros H. induction l as [|x rest IH]; [reflexivity|].
  cbn [filter]. destruct (q x) eqn:Eq.
  - cbn [filter]. rewrite IH. reflexivity.
  - destruct (p x) eqn:Ep; [rewrite (H x Ep) in Eq; discriminate|exact IH].
Qed.

Lemma storedTask_replaceAt db taskId taskPos task task' :
  findEntry (fun t => (t_id t =? taskId)%string) (tasks db) = Some (taskPos, task) ->
  t_id task' = taskId ->
  find (fun t => (t_id t =? taskId)%string) (replaceAt taskPos task' (tasks db))
  = Some task'.
Proof.
  intros Hfind Hid. rewrite findEntry_find.
  rewrite (@findEntry_replaceAt _ _ _ _ task task' Hfind).
  - reflexivity.
  - rewrite Hid. apply String.eqb_refl.
Qed.

Lemma storedTask_findEntry db taskId taskPos task :
  findEntry (fun t => (t_id t =? taskId)%string) (tasks db) = Some (taskPos, task) ->
  storedTask db taskId = Some task.
Proof.
  intros H. unfold storedTask. rewrite findEntry_find, H. reflexivity.
Qed.



(** X5.  [next-chunk] grants only on a stored task that is not revoked, to
    a worker on the task's [assignedWorkers], and only when the task has
    data items; a grant writes no result and moves no money.  With budget
    checks enabled, a new lease is granted only while [chunksPaid] plus the
    task's leases stays within [maxBillableChunks] (the new lease
    included) and the customer, when found, holds at least the cost of one
    bucket. *)
Theorem next_chunk_grant_preconditions nanoid dbc (Item : Type)
    (byteLength : Item -> option Z) now db (dataItems : list Item) req grant db' :
  nextChunk nanoid dbc byteLength now db dataItems req = (NextGranted grant, db') ->
  exists taskId workerId task workers,
    n_taskId req = Some taskId /\ n_workerId req = Some workerId /\
    storedTask db taskId = Some task /\ t_revoked task = false /\
    t_assignedWorkers task = Some workers /\ In workerId workers /\
    dataItems <> [] /\
    chunkResults db' = chunkResults db /\ ledgerOf db' = ledgerOf db /\
    (g_resume grant = false -> dbc = false ->
     let budget := resolveTaskBudget task in
     (0 < b_maxBillableChunks budget ->
      b_chunksPaid budget + Z.of_nat (List.length (leasesOf taskId db'))
      <= b_maxBillableChunks budget) /\
     (forall c u,
         findUserBySessionId db (orElse (t_creatorId task) None) = Some c ->
         nth_error (users db) c = Some u ->
         (b_costPerChunk budget <= u_walletBalance u)%Q)).
Proof.
  intros H.
  destruct (nextChunk_granted _ _ _ _ _ _ _ H)
    as (taskId & workerId & taskPos & task & Et & Ew & Htid & Hwid & Hfind & Hid
        & Hrev & Hassigned & Hitems & Hresults & Hledger & Hcases).
  cbv zeta in Hcases.
  destruct (t_assignedWorkers task) as [workers|] eqn:Eworkers; [|contradiction].
  exists taskId, workerId, task, workers.
  split; [exact Et|]. split; [exact Ew|].
  split; [exact (storedTask_findEntry _ _ Hfind)|].
  split; [exact Hrev|]. split; [exact Eworkers|]. split; [exact Hassigned|].
  split; [exact Hitems|]. split; [exact Hresults|]. split; [exact Hledger|].
  intros Hfresh Hdbc.
  destruct Hcases as [[Hres _]|[_ [_ [Hbudget [Hfunds Hbucket]]]]]; [congruence|].
  destruct Hbucket as (bucket & cfg' & _ & _ & Hleases & _).
  cbv zeta. split; [|exact (Hfunds Hdbc)].
  intros Hmax. specialize (Hbudget Hdbc Hmax).
  unfold leasesOf. rewrite Hleases, filter_app, length_app.
  cbn [filter a_taskId]. rewrite String.eqb_refl. cbn [List.length]. lia.
Qed.

Lemma next_chunk_grant_preconditions_witness :
  exists task workers,
    storedTask (sampleDb 2 10) "task-1" = Some task /\ t_revoked task = false /\
    t_assignedWorkers task = Some workers /\ In "w1" workers.
Proof.
  pose (out := nextChunk sampleNanoid true sampleByteLength 1000 (sampleDb 2 10)
                 sampleItems (sampleNext "w1")).
  assert (E : out = (NextGranted
                       match fst out with
                       | NextGranted grant => grant
                       | _ => {| g_chunkIndex := 0; g_chunkData := [];
                                 g_rangeStart := 0; g_rangeEnd := 0;
                                 g_totalItems := 0; g_bucketBytes := None;
                                 g_maxBucketBytes := 0; g_resume := false;
                                 g_processedCount := None |}
                       end, snd out))
    by (vm_compute; reflexivity).
  destruct (@next_chunk_grant_preconditions sampleNanoid true Z sampleByteLength
              1000 (sampleDb 2 10) sampleItems (sampleNext "w1") _ _ E)
    as (taskId & workerId & task & workers & Et & Ew & Htask & Hrev & Hws & Hin & _).
  injection Et as <-. injection Ew as <-.
  exists task, workers. repeat split; assumption.
Defined.

(** X6.  After a grant of [next-chunk] no lease of the task in the
    collection is past its expiry, and the leases of every other task are
    what they were. *)
Theorem next_chunk_leaves_no_expired_lease nanoid dbc (Item : Type)
    (byteLength : Item -> option Z) now db (dataItems : list Item) req grant db'
    taskId :
  nextChunk nanoid dbc byteLength now db dataItems req = (NextGranted grant, db') ->
  n_taskId req = Some taskId ->
  (forall a, In a (chunkAssignments db') -> a_taskId a = taskId ->
             expired now a = false) /\
  (forall other, other <> taskId -> leasesOf other db' = leasesOf other db).
Proof.
  intros H Et0.
  destruct (nextChunk_granted _ _ _ _ _ _ _ H)
    as (taskId' & workerId & taskPos & task & Et & Ew & Htid & Hwid & Hfind & Hid
        & Hrev & Hassigned & Hitems & Hresults & Hledger & Hcases).
  rewrite Et in Et0. injection Et0 as ->.
  cbv zeta in Hcases.
  set (kept := filter _ (chunkAssignments (sweepExpiredAssignments now db taskId)))
    in *.
  assert (Hkept : forall a, In a kept -> a_taskId a = taskId -> expired now a = false).
  { intros a Hin Ha. unfold kept in Hin. apply filter_In in Hin.
    destruct Hin as [Hin _]. cbn in Hin. apply filter_In in Hin.
    destruct Hin as [_ Hlive]. rewrite Ha, String.eqb_refl in Hlive.
    cbn [andb] in Hlive. apply negb_true_iff in Hlive. exact Hlive. }
  assert (Hfresh : forall t, expired now
                     {| a_id := a_id t; a_taskId := a_taskId t;
                        a_chunkIndex := a_chunkIndex t; a_workerId := a_workerId t;
                        a_assignedAt := a_assignedAt t;
                        a_expiresAt := Some (now + BUCKET_TIMEOUT_MS);
                        a_rangeStart := a_rangeStart t; a_rangeEnd := a_rangeEnd t;
                        a_itemsCount := a_itemsCount t;
                        a_processedCount := a_processedCount t;
                        a_progressRangeEnd := a_progressRangeEnd t;
                        a_bytesUsed := a_bytesUsed t;
                        a_lastBatchOffset := a_lastBatchOffset t;
                        a_lastBatchSize := a_lastBatchSize t;
                        a_updatedAt := a_updatedAt t |} = false).
  { intros t. unfold expired. cbn [a_expiresAt]. apply Z.ltb_ge.
    unfold BUCKET_TIMEOUT_MS. lia. }
  assert (Hother : forall other, other <> taskId ->
            filter (fun a => (a_taskId a =? other)%string) kept = leasesOf other db).
  { intros other Hne. unfold kept, leasesOf, sweepExpiredAssignments.
    cbn [chunkAssignments setChunkAssignments].
    rewrite filter_filter_implied.
    - apply filter_filter_implied. intros a Ha. apply String.eqb_eq in Ha.
      assert (E : (a_taskId a =? taskId)%string = false)
        by (apply String.eqb_neq; congruence).
      rewrite E. reflexivity.
    - intros a Ha. apply String.eqb_eq in Ha.
      assert (E : isPair taskId workerId a = false).
      { unfold isPair.
        assert (E : (a_taskId a =? taskId)%string = false)
          by (apply String.eqb_neq; congruence).
        rewrite E. reflexivity. }
      rewrite E. reflexivity. }
  destruct Hcases as [[_ Hresume]|[_ [_ [_ [_ Hbucket]]]]].
  - destruct Hresume as (pos & existing & Hnth & Hpair & Hleases & _).
    split.
    + intros a Hin Ha. rewrite Hleases in Hin.
      destruct (In_replaceAt _ _ _ _ Hin) as [->|Hin'];
        [|exact (Hkept a Hin' Ha)].
      unfold expired, refreshLease. cbn [a_expiresAt a_assignedAt].
      apply Z.ltb_ge. unfold BUCKET_TIMEOUT_MS. lia.
    + intros other Hne. rewrite <- (Hother other Hne). unfold leasesOf.
      rewrite Hleases. clear - Hnth Hpair Hne.
      assert (Hex : (a_taskId existing =? other)%string = false).
      { unfold isPair in Hpair. apply andb_prop in Hpair.
        destruct Hpair as [Hp _]. apply String.eqb_eq in Hp.
        apply String.eqb_neq. congruence. }
      revert pos Hnth. induction kept as [|x rest IH]; intros pos Hnth;
        [destruct pos; discriminate|].
      destruct pos as [|pos]; cbn [replaceAt filter nth_error] in *.
      * injection Hnth as ->. cbn [refreshLease a_taskId]. rewrite Hex.
        reflexivity.
      * rewrite (IH pos Hnth). reflexivity.
  - destruct Hbucket as (bucket & cfg' & _ & _ & Hleases & _).
    split.
    + intros a Hin Ha. rewrite Hleases in Hin. apply in_app_or in Hin.
      destruct Hin as [Hin|[<-|[]]]; [exact (Hkept a Hin Ha)|].
      unfold expired. cbn [a_expiresAt]. apply Z.ltb_ge.
      unfold BUCKET_TIMEOUT_MS. lia.
    + intros other Hne. rewrite <- (Hother other Hne). unfold leasesOf.
      rewrite Hleases, filter_app. cbn [filter a_taskId].
      assert (E : (taskId =? other)%string = false)
        by (apply String.eqb_neq; congruence).
      rewrite E. apply app_nil_r.
Qed.

Lemma next_chunk_leaves_no_expired_lease_witness :
  Forall (fun a => a_taskId a = "task-1" -> expired 1000 a = false)
    (chunkAssignments
       (snd (nextChunk sampleNanoid true sampleByteLength 1000 (sampleDb 2 10)
               sampleItems (sampleNext "w1")))).
Proof.
  pose (out := nextChunk sampleNanoid true sampleByteLength 1000 (sampleDb 2 10)
                 sampleItems (sampleNext "w1")).
  assert (E : out = (NextGranted
                       match fst out with
                       | NextGranted grant => grant
                       | _ => {| g_chunkIndex := 0; g_chunkData := [];
                                 g_rangeStart := 0; g_rangeEnd := 0;
                                 g_totalItems := 0; g_bucketBytes := None;
                                 g_maxBucketBytes := 0; g_resume := false;
                                 g_processedCount := None |}
                       end, snd out))
    by (vm_compute; reflexivity).
  apply Forall_forall.
  exact (proj1 (@next_chunk_leaves_no_expired_lease sampleNanoid true Z
                  sampleByteLength 1000 (sampleDb 2 10) sampleItems
                  (sampleNext "w1") _ _ "task-1" E eq_refl)).
Defined.

Lemma filter_length_le {A : Type} (p : A -> bool) (l : list A) :
  (List.length (filter p l) <= List.length l)%nat.
Proof.
  induction l as [|x rest IH]; [apply Nat.le_refl|].
  cbn [filter]. destruct (p x); cbn [List.length]; lia.
Qed.

(** X7.  A worker that repeats its request gets the same bucket back.
    When [next-chunk] has granted a new lease and the worker asks again
    before the lease expires, while the bucket has no terminal result, the
    answer is a resumption ([resume = true]) of that lease: the same bucket
    index, the same range and the same items, and no lease is added. *)
Theorem next_chunk_repeat_resumes_bucket nanoid dbc (Item : Type)
    (byteLength : Item -> option Z) now now' db (dataItems : list Item) req
    grant db' taskId :
  nextChunk nanoid dbc byteLength now db dataItems req = (NextGranted grant, db') ->
  g_resume grant = false ->
  n_taskId req = Some taskId ->
  now' <= now + BUCKET_TIMEOUT_MS ->
  (forall r, storedResult db taskId (g_chunkIndex grant) = Some r ->
             finishedStatus (r_status r) = false) ->
  exists grant' db'',
    nextChunk nanoid dbc byteLength now' db' dataItems req
    = (NextGranted grant', db'') /\
    g_resume grant' = true /\
    g_chunkIndex grant' = g_chunkIndex grant /\
    g_rangeStart grant' = g_rangeStart grant /\
    g_rangeEnd grant' = g_rangeEnd grant /\
    g_chunkData grant' = g_chunkData grant /\
    (List.length (chunkAssignments db'') <= List.length (chunkAssignments db'))%nat.
Proof.
  intros H Hfresh Et0 Hnow Hopen.
  destruct (nextChunk_granted _ _ _ _ _ _ _ H)
    as (taskId' & workerId & taskPos & task & Et & Ew & Htid & Hwid & Hfind & Hid
        & Hrev & Hassigned & Hitems & Hresults & Hledger & Hcases).
  rewrite Et in Et0. injection Et0 as ->.
  cbv zeta in Hcases.
  destruct Hcases as [[Hres _]|[_ [Hnone [_ [_ Hbucket]]]]]; [congruence|].
  destruct Hbucket as (bucket & cfg' & Hcalc & Hgrant & Hleases & Htasks).
  destruct (calculateBucket_Some _ _ _ _ _ Hcalc) as [Hrange [Hstop _]].
  rewrite length_map in Hstop.
  set (kept := filter _ (chunkAssignments (sweepExpiredAssignments now db taskId)))
    in *.
  set (chunkIndex := match t_nextChunkIndex task with
                     | Some n => n
                     | None => 0
                     end) in *.
  match type of Hleases with
  | _ = (_ ++ [?l])%list => set (lease := l) in *
  end.
  match type of Htasks with
  | _ = replaceAt _ ?t _ => set (task3 := t) in *
  end.
  assert (Hid3 : t_id task3 = taskId) by exact Hid.
  assert (Hrev3 : t_revoked task3 = false) by exact Hrev.
  assert (Hpair : isPair taskId workerId lease = true).
  { unfold isPair, lease. cbn [a_taskId a_workerId optString_eqb].
    rewrite !String.eqb_refl. reflexivity. }
  assert (Hlive : expired now' lease = false).
  { unfold expired, lease. cbn [a_expiresAt]. apply Z.ltb_ge. exact Hnow. }
  assert (Hterminal : hasTerminalResult taskId (chunkResults db) lease = false).
  { unfold hasTerminalResult, lease. cbn [a_chunkIndex optZ_eqb].
    rewrite Hgrant in Hopen. cbn [g_chunkIndex] in Hopen.
    unfold storedResult in Hopen.
    destruct (find _ (chunkResults db)) as [r|]; [|reflexivity].
    apply Hopen. reflexivity. }
  (* the second request *)
  unfold nextChunk. rewrite Et, Ew.
  rewrite (truthy_Some Htid), (truthy_Some Hwid). cbn [negb orb].
  rewrite Htasks.
  rewrite (@findEntry_replaceAt _ _ _ _ task task3 Hfind)
    by (rewrite Hid3; apply String.eqb_refl).
  rewrite Hrev3.
  assert (Hworkers3 : existsb (fun w => (w =? workerId)%string)
                        match t_assignedWorkers task3 with
                        | Some ws => ws
                        | None => []
                        end = true).
  { apply existsb_eqb_In. exact Hassigned. }
  rewrite Hworkers3. cbn [negb]. cbv zeta. rewrite Hid3.
  change (chunkResults (sweepExpiredAssignments now' db' taskId))
    with (chunkResults db').
  rewrite Hresults.
  assert (Hswept : chunkAssignments (sweepExpiredAssignments now' db' taskId)
                   = (filter (fun entry =>
                                negb ((a_taskId entry =? taskId)%string
                                      && expired now' entry))
                        kept ++ [lease])%list).
  { unfold sweepExpiredAssignments. cbn [chunkAssignments setChunkAssignments].
    rewrite Hleases, filter_app. cbn [filter]. rewrite Hlive, andb_false_r.
    reflexivity. }
  rewrite Hswept.
  match goal with
  | |- context [resumeScan taskId workerId (chunkResults db) ?l] =>
      pose proof (resumeScan_spec taskId workerId (chunkResults db) l) as Hscan;
      destruct (resumeScan taskId workerId (chunkResults db) l) as [kept2 chosen]
  end.
  cbv zeta in Hscan. cbn [fst snd] in Hscan. destruct Hscan as [Hkept2 Hchosen].
  rewrite filter_app in Hkept2. cbn [filter] in Hkept2.
  rewrite Hpair, Hterminal in Hkept2. cbn [andb negb] in Hkept2.
  assert (Hin2 : In lease kept2).
  { rewrite Hkept2. apply in_or_app. right. left. reflexivity. }
  destruct chosen as [[pos existing]|];
    [|rewrite (Hchosen lease Hin2) in Hpair; discriminate].
  destruct Hchosen as [Hnth [Hex _]].
  assert (Heq : existing = lease).
  { apply nth_error_In in Hnth. rewrite Hkept2 in Hnth.
    apply in_app_or in Hnth. destruct Hnth as [Hold|[<-|[]]]; [|reflexivity].
    apply filter_In in Hold. destruct Hold as [Hold _].
    apply filter_In in Hold. destruct Hold as [Hold _].
    rewrite (Hnone existing Hold) in Hex. discriminate. }
  subst existing.
  destruct dataItems as [|item items] eqn:Eitems; [contradiction|].
  rewrite <- Eitems in *.
  assert (Hbounds : resumeBounds (Z.of_nat (List.length dataItems)) lease
                    = (bk_rangeStart bucket, bk_rangeEnd bucket)).
  { apply resumeBounds_original; try reflexivity; lia. }
  rewrite Hbounds.
  eexists. eexists. split; [reflexivity|].
  rewrite Hgrant.
  cbn [g_resume g_chunkIndex g_rangeStart g_rangeEnd g_chunkData
       chunkAssignments setTasks setChunkAssignments].
  do 5 (split; [reflexivity|]).
  rewrite replaceAt_length, Hleases, Hkept2, !length_app.
  cbn [List.length].
  pose proof (filter_length_le
                (fun entry =>
                   negb (isPair taskId workerId entry
                         && hasTerminalResult taskId (chunkResults db) entry))
                (filter (fun entry =>
                           negb ((a_taskId entry =? taskId)%string
                                 && expired now' entry)) kept)).
  pose proof (filter_length_le
                (fun entry =>
                   negb ((a_taskId entry =? taskId)%string
                         && expired now' entry)) kept).
  lia.
Qed.

Lemma next_chunk_repeat_resumes_bucket_witness :
  exists grant,
    fst (nextChunk sampleNanoid true sampleByteLength 2000
           (snd (nextChunk sampleNanoid true sampleByteLength 1000 (sampleDb 2 10)
                   sampleItems (sampleNext "w1")))
           sampleItems (sampleNext "w1"))
    = NextGranted grant /\
    g_resume grant = true /\ g_chunkIndex grant = 0.
Proof.
  pose (out := nextChunk sampleNanoid true sampleByteLength 1000 (sampleDb 2 10)
                 sampleItems (sampleNext "w1")).
  assert (E : out = (NextGranted
                       match fst out with
                       | NextGranted grant => grant
                       | _ => {| g_chunkIndex := 0; g_chunkData := [];
                                 g_rangeStart := 0; g_rangeEnd := 0;
                                 g_totalItems := 0; g_bucketBytes := None;
                                 g_maxBucketBytes := 0; g_resume := false;
                                 g_processedCount := None |}
                       end, snd out))
    by (vm_compute; reflexivity).
  assert (Hnow : 2000 <= 1000 + BUCKET_TIMEOUT_MS) by (vm_compute; discriminate).
  destruct (@next_chunk_repeat_resumes_bucket sampleNanoid true Z sampleByteLength
              1000 2000 (sampleDb 2 10) sampleItems (sampleNext "w1") _ _ "task-1"
              E eq_refl eq_refl Hnow)
    as (grant' & db'' & Hreply & Hresume & Hindex & _).
  - intros r Hr. vm_compute in Hr. discriminate.
  - exists grant'. split; [|split; [exact Hresume|exact Hindex]].
    change (snd out) with
      (snd (nextChunk sampleNanoid true sampleByteLength 1000 (sampleDb 2 10)
              sampleItems (sampleNext "w1"))) in Hreply.
    rewrite Hreply. reflexivity.
Defined.

(** ** Task lifecycle *)

Lemma findEntry_of_find {A : Type} (p : A -> bool) (l : list A) (x : A) :
  find p l = Some x -> exists i, findEntry p l = Some (i, x).
Proof.
  rewrite findEntry_find. destruct (findEntry p l) as [[i y]|]; [|discriminate].
  intros H. injection H as <-. exists i. reflexivity.
Qed.

Lemma findEntry_id db taskId taskPos task :
  findEntry (fun t => (t_id t =? taskId)%string) (tasks db) = Some (taskPos, task) ->
  t_id task = taskId.
Proof.
  intros H. destruct (findEntry_Some _ _ H) as [_ [Hid _]].
  apply String.eqb_eq in Hid. exact Hid.
Qed.

Lemma findTask_replaceAt (l : list Task) taskId taskPos task task' :
  findEntry (fun t => (t_id t =? taskId)%string) l = Some (taskPos, task) ->
  t_id task' = taskId ->
  findEntry (fun t => (t_id t =? taskId)%string) (replaceAt taskPos task' l)
  = Some (taskPos, task').
Proof.
  intros Hfind Hid.
  apply (@findEntry_replaceAt _ _ _ _ task task' Hfind).
  rewrite Hid. apply String.eqb_refl.
Qed.

Lemma nextChunk_revoked nanoid dbc (Item : Type) (byteLength : Item -> option Z)
    now db (dataItems : list Item) taskId workerId task :
  taskId <> "" -> workerId <> "" ->
  storedTask db taskId = Some task -> t_revoked task = true ->
  nextChunk nanoid dbc byteLength now db dataItems
    {| n_taskId := Some taskId; n_workerId := Some workerId |}
  = (NextRefused Item "revoked", db).
Proof.
  intros Htid Hwid Htask Hrev.
  destruct (findEntry_of_find _ _ Htask) as [taskPos Hfind].
  unfold nextChunk. cbn [n_taskId n_workerId].
  rewrite (truthy_Some Htid), (truthy_Some Hwid). cbn [negb orb].
  rewrite Hfind, Hrev. reflexivity.
Qed.

Lemma nextChunk_not_assigned nanoid dbc (Item : Type)
    (byteLength : Item -> option Z) now db (dataItems : list Item) taskId workerId
    task :
  taskId <> "" -> workerId <> "" ->
  storedTask db taskId = Some task -> t_revoked task = false ->
  ~ In workerId (match t_assignedWorkers task with
                 | Some ws => ws
                 | None => []
                 end) ->
  nextChunk nanoid dbc byteLength now db dataItems
    {| n_taskId := Some taskId; n_workerId := Some workerId |}
  = (NextRefused Item "not-assigned", db).
Proof.
  intros Htid Hwid Htask Hrev Hout.
  destruct (findEntry_of_find _ _ Htask) as [taskPos Hfind].
  unfold nextChunk. cbn [n_taskId n_workerId].
  rewrite (truthy_Some Htid), (truthy_Some Hwid). cbn [negb orb].
  rewrite Hfind, Hrev.
  destruct (existsb (fun w => (w =? workerId)%string)
              match t_assignedWorkers task with
              | Some ws => ws
              | None => []
              end) eqn:E; [|reflexivity].
  apply existsb_eqb_In in E. contradiction.
Qed.

Lemma filter_none {A : Type} (p : A -> bool) (l : list A) :
  (forall x, In x l -> p x = false) -> filter p l = [].
Proof.
  intros H. induction l as [|x rest IH]; [reflexivity|].
  cbn [filter]. rewrite (H x (or_introl eq_refl)). apply IH.
  intros y Hy. apply H. right. exact Hy.
Qed.

Lemma filter_other_task {A : Type} (taskIdOf : A -> string) (taskId other : string)
    (l : list A) :
  other <> taskId ->
  filter (fun a => (taskIdOf a =? other)%string)
    (filter (fun a => negb (taskIdOf a =? taskId)%string) l)
  = filter (fun a => (taskIdOf a =? other)%string) l.
Proof.
  intros Hne. apply filter_filter_implied. intros a Ha.
  apply String.eqb_eq in Ha. apply negb_true_iff. apply String.eqb_neq. congruence.
Qed.

Lemma filter_same_task {A : Type} (taskIdOf : A -> string) (taskId : string)
    (l : list A) :
  filter (fun a => (taskIdOf a =? taskId)%string)
    (filter (fun a => negb (taskIdOf a =? taskId)%string) l) = [].
Proof.
  apply filter_none. intros a Ha. apply filter_In in Ha. destruct Ha as [_ Ha].
  apply negb_true_iff in Ha. exact Ha.
Qed.

(** X8.  Revoking a stored task marks it revoked, empties its
    [assignedWorkers] and removes every lease of the task, and nothing
    else: leases of other tasks, stored results and the ledger stay.  From
    then on [next-chunk] answers every worker with [revoked], and [claim]
    answers [revoked], both without touching the store. *)
Theorem revoke_stops_dispatch nanoid dbc (Item : Type)
    (byteLength : Item -> option Z) db taskId task :
  storedTask db taskId = Some task -> taskId <> "" ->
  let db' := snd (revokeTask db taskId) in
  let task' := setParticipation task (t_status task) (Some []) true in
  fst (revokeTask db taskId) = TaskOk task' /\
  storedTask db' taskId = Some task' /\
  leasesOf taskId db' = [] /\
  (forall other, other <> taskId -> leasesOf other db' = leasesOf other db) /\
  chunkResults db' = chunkResults db /\ ledgerOf db' = ledgerOf db /\
  (forall now (dataItems : list Item) workerId, workerId <> "" ->
      nextChunk nanoid dbc byteLength now db' dataItems
        {| n_taskId := Some taskId; n_workerId := Some workerId |}
      = (NextRefused Item "revoked", db')) /\
  (forall now workerId,
      claimTask nanoid now db' taskId workerId = (TaskRefused "revoked", db')).
Proof.
  intros Htask Htid. cbv zeta.
  destruct (findEntry_of_find _ _ Htask) as [taskPos Hfind].
  pose proof (findEntry_id _ _ Hfind) as Hid.
  unfold revokeTask. rewrite Hfind. cbn [fst snd]. rewrite Hid.
  set (task' := setParticipation task (t_status task) (Some []) true).
  set (db' := setChunkAssignments _ _).
  assert (Hstored : storedTask db' taskId = Some task').
  { unfold storedTask, db'. cbn [tasks setChunkAssignments setTasks].
    apply (storedTask_replaceAt _ _ Hfind). exact Hid. }
  split; [reflexivity|]. split; [exact Hstored|].
  split; [apply (filter_same_task a_taskId)|].
  split; [intros other Hne; apply (filter_other_task a_taskId _ Hne)|].
  split; [reflexivity|]. split; [reflexivity|].
  split.
  - intros now dataItems workerId Hwid.
    apply (@nextChunk_revoked nanoid dbc Item byteLength now db' dataItems
             taskId workerId task' Htid Hwid Hstored).
    reflexivity.
  - intros now workerId. unfold claimTask.
    destruct (findEntry_of_find _ _ Hstored) as [pos' Hfind'].
    rewrite Hfind'. reflexivity.
Qed.

Lemma revoke_stops_dispatch_witness :
  nextChunk sampleNanoid true sampleByteLength 3000
    (snd (revokeTask sampleTwoLeases "task-1")) sampleItems (sampleNext "w1")
  = (NextRefused Z "revoked", snd (revokeTask sampleTwoLeases "task-1")) /\
  leasesOf "task-1" (snd (revokeTask sampleTwoLeases "task-1")) = [].
Proof.
  assert (Htid : "task-1" <> "") by discriminate.
  assert (Hwid : "w1" <> "") by discriminate.
  assert (Htask : storedTask sampleTwoLeases "task-1"
                  = Some (nth O (tasks sampleTwoLeases) (sampleTask 2 10)))
    by (vm_compute; reflexivity).
  destruct (@revoke_stops_dispatch sampleNanoid true Z sampleByteLength
              sampleTwoLeases "task-1" _ Htask Htid)
    as (_ & _ & Hleases & _ & _ & _ & Hnext & _).
  split; [exact (Hnext 3000 sampleItems "w1" Hwid)|exact Hleases].
Defined.

(** X9.  Reinvoking a task after a revoke clears the [revoked] mark but
    does not bring the workers back: the task's [assignedWorkers] stays
    empty, so [next-chunk] answers every worker with [not-assigned] until
    the worker claims the task again, and a claim then lists exactly that
    worker. *)
Theorem reinvoke_requires_new_claim nanoid dbc (Item : Type)
    (byteLength : Item -> option Z) db taskId task :
  storedTask db taskId = Some task -> taskId <> "" ->
  let db2 := snd (reinvokeTask (snd (revokeTask db taskId)) taskId) in
  let task2 := setParticipation task (t_status task) (Some []) false in
  storedTask db2 taskId = Some task2 /\
  leasesOf taskId db2 = [] /\
  (forall now (dataItems : list Item) workerId, workerId <> "" ->
      nextChunk nanoid dbc byteLength now db2 dataItems
        {| n_taskId := Some taskId; n_workerId := Some workerId |}
      = (NextRefused Item "not-assigned", db2)) /\
  (forall now workerId, workerId <> "" ->
      exists task3,
        fst (claimTask nanoid now db2 taskId (Some workerId)) = TaskClaimed task3 /\
        storedTask (snd (claimTask nanoid now db2 taskId (Some workerId))) taskId
        = Some task3 /\
        t_assignedWorkers task3 = Some [workerId] /\ t_revoked task3 = false).
Proof.
  intros Htask Htid. cbv zeta.
  destruct (findEntry_of_find _ _ Htask) as [taskPos Hfind].
  pose proof (findEntry_id _ _ Hfind) as Hid.
  unfold revokeTask. rewrite Hfind. cbn [snd]. rewrite Hid.
  set (task1 := setParticipation task (t_status task) (Some []) true).
  set (db1 := setChunkAssignments _ _).
  assert (Hfind1 : findEntry (fun t => (t_id t =? taskId)%string) (tasks db1)
                   = Some (taskPos, task1)).
  { unfold db1. cbn [tasks setChunkAssignments setTasks].
    eapply findTask_replaceAt; [exact Hfind|exact Hid]. }
  unfold reinvokeTask. rewrite Hfind1. cbn [snd].
  change (setParticipation task1 (t_status task1) (t_assignedWorkers task1) false)
    with (setParticipation task (t_status task) (Some []) false).
  set (task2 := setParticipation task (t_status task) (Some []) false).
  set (db2 := setTasks db1 _).
  assert (Hfind2 : findEntry (fun t => (t_id t =? taskId)%string) (tasks db2)
                   = Some (taskPos, task2)).
  { unfold db2. cbn [tasks setTasks].
    eapply findTask_replaceAt; [exact Hfind1|exact Hid]. }
  pose proof (storedTask_findEntry _ _ Hfind2) as Hstored.
  split; [exact Hstored|].
  split; [apply (filter_same_task a_taskId)|].
  split.
  - intros now dataItems workerId Hwid.
    apply (@nextChunk_not_assigned nanoid dbc Item byteLength now db2 dataItems
             taskId workerId task2 Htid Hwid Hstored); [reflexivity|].
    intros [].
  - intros now workerId Hwid. unfold claimTask. rewrite Hfind2.
    cbn [t_revoked task2 setParticipation t_assignedWorkers existsb negb].
    rewrite (truthy_Some Hwid). cbn [andb app fst snd].
    eexists. split; [reflexivity|]. split; [|split; reflexivity].
    unfold storedTask. cbn [tasks setTasks].
    destruct (ensureWorkerUser_collections nanoid now db2 (Some workerId))
      as [Htasks _].
    cbv zeta in Htasks. rewrite Htasks.
    apply (@storedTask_replaceAt db2 _ _ _ _ Hfind2). cbn. exact Hid.
Qed.

Lemma reinvoke_requires_new_claim_witness :
  nextChunk sampleNanoid true sampleByteLength 3000
    (snd (reinvokeTask (snd (revokeTask sampleTwoLeases "task-1")) "task-1"))
    sampleItems (sampleNext "w1")
  = (NextRefused Z "not-assigned",
     snd (reinvokeTask (snd (revokeTask sampleTwoLeases "task-1")) "task-1")).
Proof.
  assert (Htid : "task-1" <> "") by discriminate.
  assert (Hwid : "w1" <> "") by discriminate.
  assert (Htask : storedTask sampleTwoLeases "task-1"
                  = Some (nth O (tasks sampleTwoLeases) (sampleTask 2 10)))
    by (vm_compute; reflexivity).
  destruct (@reinvoke_requires_new_claim sampleNanoid true Z sampleByteLength
              sampleTwoLeases "task-1" _ Htask Htid)
    as (_ & _ & Hnext & _).
  exact (Hnext 3000 sampleItems "w1" Hwid).
Defined.

(** X10.  Dropping a worker from a stored task removes that worker from
    [assignedWorkers] (the others stay, in order) and removes exactly the
    leases of that worker on that task; stored results, partial ones
    included, and the ledger stay.  Afterwards [next-chunk] refuses the
    worker: [not-assigned], or [revoked] when the task is revoked. *)
Theorem drop_releases_worker nanoid dbc (Item : Type)
    (byteLength : Item -> option Z) db taskId workerId task :
  storedTask db taskId = Some task -> taskId <> "" -> workerId <> "" ->
  let db' := snd (dropTask db taskId (Some workerId)) in
  let task' :=
    setParticipation task (t_status task)
      (Some (filter (fun w => negb (w =? workerId)%string)
               match t_assignedWorkers task with
               | Some ws => ws
               | None => []
               end))
      (t_revoked task) in
  fst (dropTask db taskId (Some workerId)) = TaskOk task' /\
  storedTask db' taskId = Some task' /\
  chunkAssignments db'
  = filter (fun a => negb (isPair taskId workerId a)) (chunkAssignments db) /\
  chunkResults db' = chunkResults db /\ ledgerOf db' = ledgerOf db /\
  (forall now (dataItems : list Item),
      nextChunk nanoid dbc byteLength now db' dataItems
        {| n_taskId := Some taskId; n_workerId := Some workerId |}
      = (NextRefused Item (if t_revoked task then "revoked" else "not-assigned"), db')).
Proof.
  intros Htask Htid Hwid. cbv zeta.
  destruct (findEntry_of_find _ _ Htask) as [taskPos Hfind].
  pose proof (findEntry_id _ _ Hfind) as Hid.
  unfold dropTask. rewrite (truthy_Some Hwid). cbn [negb].
  rewrite Hfind. cbn [fst snd]. rewrite Hid.
  assert (Hworkers :
            match t_assignedWorkers task with
            | Some ws => filter (fun x => negb (x =? workerId)%string) ws
            | None => []
            end
            = filter (fun w => negb (w =? workerId)%string)
                match t_assignedWorkers task with
                | Some ws => ws
                | None => []
                end)
    by (destruct (t_assignedWorkers task); reflexivity).
  rewrite Hworkers.
  match goal with
  | |- TaskOk ?t = _ /\ _ => set (task' := t)
  end.
  set (db' := setChunkAssignments _ _).
  assert (Hstored : storedTask db' taskId = Some task').
  { unfold storedTask, db'. cbn [tasks setChunkAssignments setTasks].
    apply (storedTask_replaceAt _ _ Hfind). exact Hid. }
  split; [reflexivity|]. split; [exact Hstored|].
  split; [reflexivity|]. split; [reflexivity|]. split; [reflexivity|].
  intros now dataItems.
  destruct (t_revoked task) eqn:Erev.
  - apply (@nextChunk_revoked nanoid dbc Item byteLength now db' dataItems
             taskId workerId task' Htid Hwid Hstored).
    reflexivity.
  - apply (@nextChunk_not_assigned nanoid dbc Item byteLength now db' dataItems
             taskId workerId task' Htid Hwid Hstored); [reflexivity|].
    cbn [task' setParticipation t_assignedWorkers]. intros Hin.
    apply filter_In in Hin. destruct Hin as [_ Hin].
    rewrite String.eqb_refl in Hin. discriminate.
Qed.

Lemma drop_releases_worker_witness :
  map (fun a => (a_chunkIndex a, a_workerId a))
    (chunkAssignments
       (snd (dropTask
               (snd (nextChunk sampleNanoid true sampleByteLength 1100
                       (snd (nextChunk sampleNanoid true sampleByteLength 1000
                               (sampleDb 2 10) sampleItems (sampleNext "w1")))
                       sampleItems (sampleNext "w2")))
               "task-1" (Some "w1"))))
  = [(Some 1, Some "w2")].
Proof.
  assert (Htid : "task-1" <> "") by discriminate.
  assert (Hwid : "w1" <> "") by discriminate.
  set (db := snd (nextChunk sampleNanoid true sampleByteLength 1100
                    (snd (nextChunk sampleNanoid true sampleByteLength 1000
                            (sampleDb 2 10) sampleItems (sampleNext "w1")))
                    sampleItems (sampleNext "w2"))).
  assert (Htask : storedTask db "task-1" = Some (nth O (tasks db) (sampleTask 2 10)))
    by (vm_compute; reflexivity).
  destruct (@drop_releases_worker sampleNanoid true Z sampleByteLength db "task-1"
              "w1" _ Htask Htid Hwid)
    as (_ & _ & Hleases & _).
  rewrite Hleases. vm_compute. reflexivity.
Defined.

Lemma NoDup_app_one {A : Type} (l : list A) (x : A) :
  NoDup l -> ~ In x l -> NoDup (l ++ [x]).
Proof.
  intros Hl Hx. induction l as [|y rest IH]; cbn [app].
  - constructor; [intros []|constructor].
  - inversion Hl as [|? ? Hy Hrest]; subst. constructor.
    + intros Hin. apply in_app_or in Hin. destruct Hin as [Hin|[<-|[]]].
      * contradiction.
      * apply Hx. left. reflexivity.
    + apply IH; [exact Hrest|]. intros Hin. apply Hx. right. exact Hin.
Qed.

(** X11.  Claiming is idempotent: a second claim of the same task by the
    same worker gives the same answer and leaves the store as the first
    claim left it.  A claim of a stored task that is not revoked lists the
    worker in [assignedWorkers] without duplicating anyone, turns [queued]
    into [processing], and writes no lease, no result and no
    transaction. *)
Theorem claim_is_idempotent nanoid now now' db taskId workerId :
  let first := claimTask nanoid now db taskId workerId in
  claimTask nanoid now' (snd first) taskId workerId = first /\
  chunkAssignments (snd first) = chunkAssignments db /\
  chunkResults (snd first) = chunkResults db /\
  walletTransactions (snd first) = walletTransactions db /\
  platformLedger (snd first) = platformLedger db /\
  (forall task w,
      storedTask db taskId = Some task -> t_revoked task = false ->
      workerId = Some w -> w <> "" ->
      let workers := match t_assignedWorkers task with
                     | Some ws => ws
                     | None => []
                     end in
      exists workers',
        let task' :=
          setParticipation task
            (if (t_status task =? "queued")%string then "processing"
             else t_status task)
            (Some workers') false in
        fst first = TaskClaimed task' /\
        storedTask (snd first) taskId = Some task' /\
        workers' = (if existsb (fun x => (x =? w)%string) workers
                    then workers else workers ++ [w])%list /\
        In w workers' /\ (NoDup workers -> NoDup workers')).
Proof.
  cbv zeta.
  destruct (claimTask nanoid now db taskId workerId) as [reply dbF] eqn:Efirst.
  cbn [fst snd]. unfold claimTask in Efirst.
  destruct (findEntry (fun t => (t_id t =? taskId)%string) (tasks db))
    as [[taskPos task]|] eqn:Hfind.
  2:{ injection Efirst as <- <-. unfold claimTask. rewrite Hfind.
      repeat (split; [reflexivity|]).
      intros task w Htask. unfold storedTask in Htask.
      rewrite findEntry_find, Hfind in Htask. discriminate. }
  pose proof (findEntry_id _ _ Hfind) as Hid.
  destruct (t_revoked task) eqn:Erev.
  { injection Efirst as <- <-. unfold claimTask. rewrite Hfind, Erev.
    repeat (split; [reflexivity|]).
    intros task0 w Htask Hrev0. unfold storedTask in Htask.
    rewrite findEntry_find, Hfind in Htask. injection Htask as <-. congruence. }
  set (workers := match t_assignedWorkers task with
                  | Some ws => ws
                  | None => []
                  end) in *.
  set (status' := if (t_status task =? "queued")%string then "processing"
                  else t_status task) in *.
  assert (Hstatus : (if (status' =? "queued")%string then "processing" else status')
                    = status').
  { unfold status'. destruct (t_status task =? "queued")%string eqn:E;
      [reflexivity|rewrite E; reflexivity]. }
  assert (Hjoined :
            forall (db1 : Db) (workers' : list string),
              tasks db1 = tasks db ->
              (forall w, workerId = Some w -> truthy (Some w) = true ->
                         In w workers') ->
              let task' := setParticipation task status' (Some workers') false in
              let db' := setTasks db1 (replaceAt taskPos task' (tasks db1)) in
              claimTask nanoid now' db' taskId workerId = (TaskClaimed task', db')).
  { intros db1 workers' Htasks Hjoin. cbv zeta. unfold claimTask.
    cbn [tasks setTasks]. rewrite Htasks.
    rewrite (@findTask_replaceAt (tasks db) taskId taskPos task
               (setParticipation task status' (Some workers') false) Hfind Hid).
    cbn [t_revoked setParticipation t_assignedWorkers t_status].
    rewrite Hstatus.
    destruct workerId as [w|].
    - destruct (truthy (Some w)) eqn:Etruthy; cbn [andb].
      + specialize (Hjoin w eq_refl Etruthy). apply existsb_eqb_In in Hjoin.
        rewrite Hjoin. cbn [negb tasks setTasks]. rewrite replaceAt_twice.
        reflexivity.
      + cbn [tasks setTasks]. rewrite replaceAt_twice. reflexivity.
    - cbn [tasks setTasks]. rewrite replaceAt_twice. reflexivity. }
  assert (Hstore : forall (db1 : Db) (task' : Task),
            tasks db1 = tasks db -> t_id task' = taskId ->
            storedTask (setTasks db1 (replaceAt taskPos task' (tasks db1))) taskId
            = Some task').
  { intros db1 task' Htasks Hid'. unfold storedTask. cbn [tasks setTasks].
    rewrite Htasks. apply (storedTask_replaceAt _ _ Hfind). exact Hid'. }
  destruct workerId as [w|].
  - destruct (truthy (Some w)) eqn:Etruthy; cbn [andb] in Efirst.
    + destruct (existsb (fun x => (x =? w)%string) workers) eqn:Ein;
        cbn [negb] in Efirst; injection Efirst as <- <-.
      * split.
        { apply (Hjoined db workers eq_refl). intros w0 Hw _.
          injection Hw as <-. apply existsb_eqb_In. exact Ein. }
        repeat (split; [reflexivity|]).
        intros task0 w0 Htask Hrev0 Hw Hne. injection Hw as <-.
        unfold storedTask in Htask. rewrite findEntry_find, Hfind in Htask.
        injection Htask as <-. fold workers. rewrite Ein.
        exists workers. cbv zeta. split; [reflexivity|].
        split; [apply (Hstore db _ eq_refl); exact Hid|].
        split; [reflexivity|].
        split; [apply existsb_eqb_In; exact Ein|intros H; exact H].
      * destruct (ensureWorkerUser_collections nanoid now db (Some w))
          as [Htasks [Hresults Hleases]].
        cbv zeta in Htasks, Hresults, Hleases.
        assert (Hin : In w (workers ++ [w])%list)
          by (apply in_or_app; right; left; reflexivity).
        split.
        { apply (Hjoined _ (workers ++ [w])%list Htasks). intros w0 Hw _.
          injection Hw as <-. exact Hin. }
        split; [exact Hleases|]. split; [exact Hresults|].
        destruct (@ensureWorkerUser_valid nanoid now db (Some w) Etruthy)
          as (worker & u & _ & _ & Htxs & Hplatform & _).
        split; [exact Htxs|]. split; [exact Hplatform|].
        intros task0 w0 Htask Hrev0 Hw Hne. injection Hw as <-.
        unfold storedTask in Htask. rewrite findEntry_find, Hfind in Htask.
        injection Htask as <-. fold workers. rewrite Ein.
        exists (workers ++ [w])%list. cbv zeta. split; [reflexivity|].
        split; [apply (Hstore _ _ Htasks); exact Hid|].
        split; [reflexivity|]. split; [exact Hin|].
        intros Hnodup. apply NoDup_app_one; [exact Hnodup|].
        intros Hold. apply existsb_eqb_In in Hold. congruence.
    + injection Efirst as <- <-.
      split.
      { apply (Hjoined db workers eq_refl). intros w0 Hw Ht.
        injection Hw as <-. congruence. }
      repeat (split; [reflexivity|]).
      intros task0 w0 _ _ Hw Hne. injection Hw as <-.
      rewrite (truthy_Some Hne) in Etruthy. discriminate.
  - injection Efirst as <- <-.
    split; [apply (Hjoined db workers eq_refl); intros w0 Hw; discriminate|].
    repeat (split; [reflexivity|]).
    intros task0 w0 _ _ Hw. discriminate.
Qed.

Lemma claim_is_idempotent_witness :
  exists task',
    fst (claimTask sampleNanoid 500 (sampleDb 2 10) "task-1" (Some "w3"))
    = TaskClaimed task' /\
    t_assignedWorkers task' = Some ["w1"; "w2"; "w3"].
Proof.
  assert (Hwid : "w3" <> "") by discriminate.
  destruct (@claim_is_idempotent sampleNanoid 500 600 (sampleDb 2 10) "task-1"
              (Some "w3"))
    as (_ & _ & _ & _ & _ & Hclaim).
  destruct (Hclaim (sampleTask 2 10) "w3" eq_refl eq_refl eq_refl Hwid)
    as (workers' & Hreply & _ & Hworkers & _).
  eexists. split; [exact Hreply|]. cbn [t_assignedWorkers setParticipation].
  rewrite Hworkers. reflexivity.
Defined.

Lemma find_removeAt_other {A : Type} (p q : A -> bool) (l : list A) (i : nat) :
  findIndex p l = Some i -> (forall x, q x = true -> p x = false) ->
  find q (removeAt i l) = find q l.
Proof.
  revert i. induction l as [|x rest IH]; intros i Hi Hq; [discriminate|].
  cbn [findIndex] in Hi. destruct (p x) eqn:Ep.
  - injection Hi as <-. cbn [removeAt find].
    destruct (q x) eqn:Eq; [rewrite (Hq x Eq) in Ep; discriminate|reflexivity].
  - destruct (findIndex p rest) as [j|] eqn:Ej; [|discriminate].
    injection Hi as <-. cbn [removeAt find]. rewrite (IH j eq_refl Hq).
    reflexivity.
Qed.

Lemma find_removeAt_unique (taskId : string) (l : list Task) (i : nat) :
  NoDup (map t_id l) ->
  findIndex (fun t => (t_id t =? taskId)%string) l = Some i ->
  find (fun t => (t_id t =? taskId)%string) (removeAt i l) = None.
Proof.
  revert i. induction l as [|x rest IH]; intros i Hnodup Hi; [discriminate|].
  cbn [map] in Hnodup. inversion Hnodup as [|? ? Hx Hrest]; subst.
  cbn [findIndex] in Hi. destruct (t_id x =? taskId)%string eqn:Ep.
  - injection Hi as <-. cbn [removeAt]. apply String.eqb_eq in Ep.
    destruct (find (fun t => (t_id t =? taskId)%string) rest) as [y|] eqn:Ey;
      [|reflexivity].
    apply find_some in Ey. destruct Ey as [Hin Hy]. apply String.eqb_eq in Hy.
    exfalso. apply Hx. rewrite Ep, <- Hy. apply in_map. exact Hin.
  - destruct (findIndex _ rest) as [j|] eqn:Ej; [|discriminate].
    injection Hi as <-. cbn [removeAt find]. rewrite Ep. apply (IH j Hrest eq_refl).
Qed.

Lemma removeAt_length {A : Type} (p : A -> bool) (l : list A) (i : nat) :
  findIndex p l = Some i -> S (List.length (removeAt i l)) = List.length l.
Proof.
  revert i. induction l as [|x rest IH]; intros i Hi; [discriminate|].
  cbn [findIndex] in Hi. destruct (p x).
  - injection Hi as <-. reflexivity.
  - destruct (findIndex p rest) as [j|] eqn:Ej; [|discriminate].
    injection Hi as <-. cbn [removeAt List.length]. rewrite (IH j eq_refl).
    reflexivity.
Qed.

Lemma findIndex_of_find {A : Type} (p : A -> bool) (l : list A) (x : A) :
  find p l = Some x -> exists i, findIndex p l = Some i.
Proof.
  induction l as [|y rest IH]; [discriminate|].
  cbn [find findIndex]. destruct (p y); [intros _; exists O; reflexivity|].
  intros H. destruct (IH H) as [i Hi]. rewrite Hi. exists (S i). reflexivity.
Qed.

(** X12.  Deleting a stored task removes one task record and every stored
    result and lease of that task, and nothing of any other task; when
    task ids are unique the id is no longer stored.  The ledger is not
    touched: what was paid for the task stays paid. *)
Theorem delete_cascades db taskId task :
  storedTask db taskId = Some task ->
  let db' := snd (deleteTask db taskId) in
  fst (deleteTask db taskId) = TaskDeleted /\
  S (List.length (tasks db')) = List.length (tasks db) /\
  resultsOf taskId db' = [] /\ leasesOf taskId db' = [] /\
  (forall other, other <> taskId ->
      storedTask db' other = storedTask db other /\
      resultsOf other db' = resultsOf other db /\
      leasesOf other db' = leasesOf other db) /\
  (NoDup (map t_id (tasks db)) -> storedTask db' taskId = None) /\
  ledgerOf db' = ledgerOf db.
Proof.
  intros Htask. cbv zeta.
  destruct (findIndex_of_find _ _ Htask) as [taskIndex Hindex].
  unfold deleteTask. rewrite Hindex. cbn [fst snd].
  split; [reflexivity|].
  split; [eapply removeAt_length; exact Hindex|].
  split; [apply (filter_same_task r_taskId)|].
  split; [apply (filter_same_task a_taskId)|].
  split.
  - intros other Hne. split; [|split].
    + unfold storedTask. cbn [tasks setChunkAssignments setChunkResults setTasks].
      eapply find_removeAt_other; [exact Hindex|]. intros t Ht.
      apply String.eqb_eq in Ht. apply String.eqb_neq. congruence.
    + apply (filter_other_task r_taskId _ Hne).
    + apply (filter_other_task a_taskId _ Hne).
  - split; [|reflexivity].
    intros Hnodup. unfold storedTask.
    cbn [tasks setChunkAssignments setChunkResults setTasks].
    eapply find_removeAt_unique; [exact Hnodup|exact Hindex].
Qed.

Lemma delete_cascades_witness :
  resultsOf "task-1" (snd (deleteTask (sampleSettled 2 10) "task-1")) = [] /\
  ledgerOf (snd (deleteTask (sampleSettled 2 10) "task-1"))
  = ledgerOf (sampleSettled 2 10).
Proof.
  assert (Htask : storedTask (sampleSettled 2 10) "task-1"
                  = Some (nth O (tasks (sampleSettled 2 10)) (sampleTask 2 10)))
    by (vm_compute; reflexivity).
  destruct (@delete_cascades (sampleSettled 2 10) "task-1" _ Htask)
    as (_ & _ & Hresults & _ & _ & _ & Hledger).
  split; [exact Hresults|exact Hledger].
Defined.

(** ** Worker liveness *)

Lemma find_filter_keeps {A : Type} (p q : A -> bool) (l : list A) :
  (forall x, In x l -> p x = true -> q x = true) ->
  find p (filter q l) = find p l.
Proof.
  induction l as [|x rest IH]; intros H; [reflexivity|].
  cbn [filter find]. destruct (p x) eqn:Ep.
  - rewrite (H x (or_introl eq_refl) Ep). cbn [find]. rewrite Ep. reflexivity.
  - destruct (q x); cbn [find]; rewrite ?Ep; apply IH;
      intros y Hy; apply H; right; exact Hy.
Qed.

Lemma find_filter_drops {A : Type} (p q : A -> bool) (l : list A) :
  (forall x, In x l -> p x = true -> q x = false) ->
  find p (filter q l) = None.
Proof.
  induction l as [|x rest IH]; intros H; [reflexivity|].
  cbn [filter]. destruct (q x) eqn:Eq.
  - cbn [find]. destruct (p x) eqn:Ep.
    + rewrite (H x (or_introl eq_refl) Ep) in Eq. discriminate.
    + apply IH. intros y Hy. apply H. right. exact Hy.
  - apply IH. intros y Hy. apply H. right. exact Hy.
Qed.

(** After [map.set(key, value)] every entry under [key] holds [value]. *)
Lemma Map_set_entries m key value e :
  In e (Map_set m key value) -> fst e = key -> snd e = value.
Proof.
  unfold Map_set.
  destruct (existsb (fun e => (fst e =? key)%string) m) eqn:Ehas.
  - intros Hin Hkey. apply in_map_iff in Hin. destruct Hin as [e0 [He0 _]].
    destruct (fst e0 =? key)%string eqn:E0.
    + subst e. reflexivity.
    + subst e. apply String.eqb_neq in E0. contradiction.
  - intros Hin Hkey. apply in_app_or in Hin. destruct Hin as [Hin|[<-|[]]];
      [|reflexivity].
    exfalso.
    assert (Hex : existsb (fun e => (fst e =? key)%string) m = true).
    { apply existsb_exists. exists e. split; [exact Hin|].
      rewrite Hkey. apply String.eqb_refl. }
    congruence.
Qed.

Lemma Map_get_set_same m key value : Map_get (Map_set m key value) key = Some value.
Proof.
  unfold Map_get.
  destruct (find (fun e => (fst e =? key)%string) (Map_set m key value))
    as [e|] eqn:Efind.
  - apply find_some in Efind. destruct Efind as [Hin Hkey].
    apply String.eqb_eq in Hkey. cbn [option_map].
    rewrite (@Map_set_entries _ _ _ _ Hin Hkey). reflexivity.
  - exfalso. unfold Map_set in Efind.
    destruct (existsb (fun e => (fst e =? key)%string) m) eqn:Ehas.
    + apply existsb_exists in Ehas. destruct Ehas as [e [Hin Hkey]].
      assert (Hin' : In (key, value)
                       (map (fun e => if (fst e =? key)%string then (key, value)
                                      else e) m)).
      { apply in_map_iff. exists e. split; [rewrite Hkey; reflexivity|exact Hin]. }
      pose proof (find_none _ _ Efind _ Hin') as Hno. cbn [fst] in Hno.
      rewrite String.eqb_refl in Hno. discriminate.
    + assert (Hin : In (key, value) (m ++ [(key, value)])%list)
        by (apply in_or_app; right; left; reflexivity).
      pose proof (find_none _ _ Efind _ Hin) as Hno. cbn [fst] in Hno.
      rewrite String.eqb_refl in Hno. discriminate.
Qed.

Lemma Map_get_set_other m key other value :
  other <> key -> Map_get (Map_set m key value) other = Map_get m other.
Proof.
  intros Hne. unfold Map_get, Map_set. f_equal.
  assert (Ekey : (key =? other)%string = false)
    by (apply String.eqb_neq; congruence).
  destruct (existsb (fun e => (fst e =? key)%string) m).
  - induction m as [|e rest IH]; [reflexivity|].
    cbn [map find]. destruct (fst e =? key)%string eqn:Ee.
    + cbn [fst]. rewrite Ekey. apply String.eqb_eq in Ee.
      assert (Eo : (fst e =? other)%string = false)
        by (apply String.eqb_neq; congruence).
      rewrite Eo. exact IH.
    + destruct (fst e =? other)%string; [reflexivity|exact IH].
  - induction m as [|e rest IH]; cbn [app find fst].
    + rewrite Ekey. reflexivity.
    + destruct (fst e =? other)%string; [reflexivity|exact IH].
Qed.

Lemma Map_get_delete_same m key : Map_get (Map_delete m key) key = None.
Proof.
  unfold Map_get, Map_delete. rewrite find_filter_drops; [reflexivity|].
  intros e _ He. rewrite He. reflexivity.
Qed.

(** X13.  A heartbeat records the worker's time and leaves the other
    workers' entries alone.  Up to [WORKER_TIMEOUT_MS] after it, [online]
    answers online with the age of the heartbeat and the periodic sweep
    keeps the entry; later than that, [online] answers offline and forgets
    the worker, who stays offline until the next heartbeat; and the sweep
    removes the entry once it is older than twice the timeout. *)
Theorem heartbeat_liveness_window hb workerId t t' :
  workerId <> "" -> t <> 0 ->
  let hb1 := snd (workerHeartbeat t hb (Some workerId)) in
  fst (workerHeartbeat t hb (Some workerId)) = HeartbeatOk t /\
  (forall other, other <> workerId -> Map_get hb1 other = Map_get hb other) /\
  (t' - t <= WORKER_TIMEOUT_MS ->
   workerOnline t' hb1 workerId = (Online t (t' - t), hb1) /\
   Map_get (sweepHeartbeats t' hb1) workerId = Some t) /\
  (WORKER_TIMEOUT_MS < t' - t ->
   workerOnline t' hb1 workerId = (Offline, Map_delete hb1 workerId) /\
   forall t'',
     workerOnline t'' (Map_delete hb1 workerId) workerId
     = (Offline, Map_delete hb1 workerId)) /\
  (WORKER_TIMEOUT_MS * 2 < t' - t ->
   Map_get (sweepHeartbeats t' hb1) workerId = None).
Proof.
  intros Hwid Ht. cbv zeta. unfold workerHeartbeat.
  rewrite (truthy_Some Hwid). cbn [negb fst snd].
  set (hb1 := Map_set hb workerId t).
  assert (Hget : Map_get hb1 workerId = Some t) by apply Map_get_set_same.
  assert (Hne : (workerId =? "")%string = false)
    by (apply String.eqb_neq; exact Hwid).
  assert (Hzero : (t =? 0) = false) by (apply Z.eqb_neq; exact Ht).
  split; [reflexivity|].
  split; [intros other Ho; apply Map_get_set_other; exact Ho|].
  split; [|split].
  - intros Hlive. split.
    + unfold workerOnline. rewrite Hne, Hget, Hzero. cbv zeta.
      assert (E : (WORKER_TIMEOUT_MS <? t' - t) = false)
        by (apply Z.ltb_ge; exact Hlive).
      rewrite E. reflexivity.
    + rewrite <- Hget. unfold Map_get, sweepHeartbeats. cbv zeta. f_equal.
      apply find_filter_keeps. intros e Hin He. apply String.eqb_eq in He.
      rewrite (@Map_set_entries _ _ _ _ Hin He).
      apply negb_true_iff. apply Z.ltb_ge.
      unfold WORKER_TIMEOUT_MS in *. lia.
  - intros Hstale. split.
    + unfold workerOnline. rewrite Hne, Hget, Hzero. cbv zeta.
      assert (E : (WORKER_TIMEOUT_MS <? t' - t) = true)
        by (apply Z.ltb_lt; exact Hstale).
      rewrite E. reflexivity.
    + intros t''. unfold workerOnline.
      rewrite Hne, Map_get_delete_same. reflexivity.
  - intros Hold. unfold Map_get, sweepHeartbeats. cbv zeta.
    rewrite find_filter_drops; [reflexivity|].
    intros e Hin He. apply String.eqb_eq in He.
    rewrite (@Map_set_entries _ _ _ _ Hin He).
    apply negb_false_iff. apply Z.ltb_lt. lia.
Qed.

Lemma heartbeat_liveness_window_witness :
  workerOnline 1600000 (snd (workerHeartbeat 500000 [("w2", 100)] (Some "w1"))) "w1"
  = (Online 500000 1100000, [("w2", 100); ("w1", 500000)]).
Proof.
  assert (Hwid : "w1" <> "") by discriminate.
  assert (Ht : 500000 <> 0) by discriminate.
  destruct (@heartbeat_liveness_window [("w2", 100)] "w1" 500000 1600000 Hwid Ht)
    as (_ & _ & Hlive & _).
  assert (Hwindow : 1600000 - 500000 <= WORKER_TIMEOUT_MS)
    by (vm_compute; discriminate).
  exact (proj1 (Hlive Hwindow)).
Defined.

(** ** Wallet and ledger *)





Lemma totalBalance_app (l l' : list User) :
  (totalBalance (l ++ l') == totalBalance l + totalBalance l')%Q.
Proof.
  induction l as [|x rest IH]; cbn [app].
  - unfold totalBalance at 2. cbn [fold_right]. ring.
  - unfold totalBalance in *. cbn [fold_right]. rewrite IH. ring.
Qed.








(** X16.  A wallet request that is answered with an error leaves the store
    exactly as it was, and with the sandbox disabled every deposit and
    every withdrawal is answered with an error. *)
Theorem wallet_errors_change_nothing nanoid sandbox now db sessionId amount reason :
  (forall status error db',
      walletDeposit nanoid sandbox now db sessionId amount reason
      = (WalletError status error, db') -> db' = db) /\
  (forall status error db',
      walletWithdraw nanoid sandbox now db sessionId amount reason
      = (WalletError status error, db') -> db' = db) /\
  (sandbox = false ->
   (exists status error,
       walletDeposit nanoid sandbox now db sessionId amount reason
       = (WalletError status error, db)) /\
   (exists status error,
       walletWithdraw nanoid sandbox now db sessionId amount reason
       = (WalletError status error, db))).
Proof.
  unfold walletDeposit, walletWithdraw.
  destruct (normalizeCurrencyAmount amount) as [n|].
  2:{ split; [intros ? ? ? H; injection H as _ _ <-; reflexivity|].
      split; [intros ? ? ? H; injection H as _ _ <-; reflexivity|].
      intros _. split; eexists; eexists; reflexivity. }
  destruct (Qle_bool n 0).
  { split; [intros ? ? ? H; injection H as _ _ <-; reflexivity|].
    split; [intros ? ? ? H; injection H as _ _ <-; reflexivity|].
    intros _. split; eexists; eexists; reflexivity. }
  destruct (Qltb 1000000 n).
  { split; [intros ? ? ? H; injection H as _ _ <-; reflexivity|].
    split; [intros ? ? ? H; injection H as _ _ <-; reflexivity|].
    intros _. split; eexists; eexists; reflexivity. }
  destruct sandbox; cbn [negb].
  2:{ split; [intros ? ? ? H; injection H as _ _ <-; reflexivity|].
      split; [intros ? ? ? H; injection H as _ _ <-; reflexivity|].
      intros _. split; eexists; eexists; reflexivity. }
  destruct (findUserBySessionId db sessionId) as [pos|].
  2:{ split; [intros ? ? ? H; injection H as _ _ <-; reflexivity|].
      split; [intros ? ? ? H; injection H as _ _ <-; reflexivity|].
      intros H; discriminate. }
  split; [|split; [|intros H; discriminate]].
  - intros status error db' H.
    destruct (adjustUserBalance nanoid now db pos n wallet_deposit _).
    discriminate.
  - intros status error db' H.
    destruct (Qltb _ n); [injection H as _ _ <-; reflexivity|].
    destruct (adjustUserBalance nanoid now db pos (- n)%Q wallet_withdrawal _).
    discriminate.
Qed.






(** ** Progress *)







(** ** Item results: what is stored *)

Lemma mapi_from_length {A B : Type} (f : nat -> A -> B) (start : nat) (l : list A) :
  List.length (mapi_from f start l) = List.length l.
Proof.
  revert start. induction l as [|x rest IH]; intros start; cbn; [reflexivity|].
  rewrite IH. reflexivity.
Qed.

Lemma In_mapi_from {A B : Type} (f : nat -> A -> B) (start : nat) (l : list A) (y : B) :
  In y (mapi_from f start l) -> exists idx x, y = f idx x /\ In x l.
Proof.
  revert start. induction l as [|x rest IH]; intros start; cbn; [intros []|].
  intros [<-|Hin].
  - exists start, x. split; [reflexivity|left; reflexivity].
  - destruct (IH _ Hin) as [idx [x' [Hy Hx]]].
    exists idx, x'. split; [exact Hy|right; exact Hx].
Qed.

Lemma coerceStatus_cases (status : jsval) : itemStatus (coerceStatus status).
Proof.
  unfold coerceStatus, itemStatus.
  destruct (js_is status "failed"); [right; left; reflexivity|].
  destruct (js_is status "skipped"); [right; right; reflexivity|].
  left; reflexivity.
Qed.

Lemma nth_error_firstn_ge {A : Type} (n i : nat) (l : list A) :
  (n <= i)%nat -> nth_error (firstn n l) i = None.
Proof.
  intros H. apply nth_error_None. rewrite length_firstn. lia.
Qed.

(** X22.  [sanitizeItemResults] stores at most [MAX_ITEM_RESULTS_STORED]
    items: the first ones submitted, in their order, each sanitised at its
    own position.  [total] is the number submitted (0 for a value that is
    not an array), [truncated] is set exactly when more were submitted than
    are stored, and every stored item has one of the three statuses and a
    [localIndex]. *)
Theorem sanitizeItemResults_bounded (raw : option (list RawItem)) :
  let safe := sanitizeItemResults raw in
  let submitted := match raw with
                   | Some l => l
                   | None => []
                   end in
  s_total safe = List.length submitted /\
  List.length (s_items safe)
  = Nat.min MAX_ITEM_RESULTS_STORED (List.length submitted) /\
  (s_truncated safe = true
   <-> (MAX_ITEM_RESULTS_STORED < List.length submitted)%nat) /\
  (forall idx,
      nth_error (s_items safe) idx
      = if (idx <? MAX_ITEM_RESULTS_STORED)%nat
        then option_map (sanitizeItem idx) (nth_error submitted idx)
        else None) /\
  Forall (fun item => itemStatus (i_status item) /\ i_localIndex item <> None)
    (s_items safe).
Proof.
  cbv zeta.
  destruct raw as [[|x rest]|].
  1, 3: cbn [sanitizeItemResults s_total s_items s_truncated List.length];
    split; [reflexivity|]; split; [rewrite Nat.min_0_r; reflexivity|];
    split; [split; [discriminate|lia]|];
    split; [intros idx; destruct (idx <? MAX_ITEM_RESULTS_STORED)%nat;
            destruct idx; reflexivity|constructor].
  unfold sanitizeItemResults. cbn [s_total s_items s_truncated].
  set (l := x :: rest). unfold mapi.
  rewrite mapi_from_length, length_firstn.
  split; [reflexivity|]. split; [reflexivity|].
  split; [rewrite Nat.ltb_lt; lia|].
  split.
  - intros idx. rewrite nth_error_mapi_from. cbn [Nat.add].
    destruct (idx <? MAX_ITEM_RESULTS_STORED)%nat eqn:E.
    + apply Nat.ltb_lt in E. rewrite nth_error_firstn_lt by exact E. reflexivity.
    + apply Nat.ltb_ge in E. rewrite nth_error_firstn_ge by exact E. reflexivity.
  - apply Forall_forall. intros item Hin.
    apply In_mapi_from in Hin. destruct Hin as [idx [rawItem [-> _]]].
    cbn [sanitizeItem i_status i_localIndex].
    split; [apply coerceStatus_cases|discriminate].
Qed.

(** ** Progress batches: the stored items *)

















(** ** Progress batches: lease and result *)

Lemma filter_replaceAt_out {A : Type} (q : A -> bool) (l : list A) (i : nat) (x x' : A) :
  nth_error l i = Some x -> q x = false -> q x' = false ->
  filter q (replaceAt i x' l) = filter q l.
Proof.
  revert i. induction l as [|y rest IH]; intros [|i] Hnth Hx Hx'; cbn in *;
    try discriminate.
  - inversion Hnth; subst. rewrite Hx, Hx'. reflexivity.
  - rewrite (IH i Hnth Hx Hx'). reflexivity.
Qed.

Lemma map_replaceAt_same {A B : Type} (f : A -> B) (l : list A) (i : nat) (x x' : A) :
  nth_error l i = Some x -> f x' = f x -> map f (replaceAt i x' l) = map f l.
Proof.
  revert i. induction l as [|y rest IH]; intros [|i] Hnth Hf; cbn in *;
    try discriminate.
  - inversion Hnth; subst. rewrite Hf. reflexivity.
  - rewrite (IH i Hnth Hf). reflexivity.
Qed.

(** X24.  A progress batch for a stored task moves no credits and pays
    nothing: users, wallet transactions and platform earnings stay as they
    are.  Afterwards the bucket has a stored result, created if there was
    none, whose status is [processing] unless it was [completed] or
    [failed] before, and whose payout flag is what it was.  No lease is
    created or removed and the leases of other buckets are untouched; the
    lease of the bucket, if there is one, keeps its id and range and expires
    [BUCKET_TIMEOUT_MS] after the batch, so a sweep up to that time keeps
    it. *)
Theorem progress_batch_renews_lease nanoid now db req taskId chunkIndex
    itemsProcessed task :
  p_taskId req = Some taskId -> p_chunkIndex req = Some chunkIndex ->
  p_itemsProcessed req = Some itemsProcessed -> taskId <> "" ->
  storedTask db taskId = Some task ->
  let db' := snd (recordProgress nanoid now db req) in
  ledgerOf db' = ledgerOf db /\
  (exists merged,
      storedResult db' taskId chunkIndex = Some merged /\
      r_status merged = statusAfterProgress (storedResult db taskId chunkIndex) /\
      r_payoutIssued merged
      = match storedResult db taskId chunkIndex with
        | Some entry => r_payoutIssued entry
        | None => false
        end) /\
  map a_id (chunkAssignments db') = map a_id (chunkAssignments db) /\
  filter (fun entry => negb (leaseOfBucket taskId chunkIndex entry)) (chunkAssignments db')
  = filter (fun entry => negb (leaseOfBucket taskId chunkIndex entry)) (chunkAssignments db) /\
  (forall lease,
      find (leaseOfBucket taskId chunkIndex) (chunkAssignments db) = Some lease ->
      exists lease',
        find (leaseOfBucket taskId chunkIndex) (chunkAssignments db') = Some lease' /\
        a_id lease' = a_id lease /\
        assignmentRange lease' = assignmentRange lease /\
        a_expiresAt lease' = Some (now + BUCKET_TIMEOUT_MS) /\
        forall t, t <= now + BUCKET_TIMEOUT_MS -> expired t lease' = false).
Proof.
  intros Ht Hc Hn Htid Htask. cbv zeta.
  destruct (findEntry_of_find _ _ Htask) as [taskPos Hentry].
  unfold recordProgress. rewrite Ht, Hc, Hn, (truthy_Some Htid). cbn [negb].
  rewrite Hentry. cbv zeta.
  set (total := option_map (Z.max 0) (p_totalItems req)).
  set (processed := match total with
                    | Some t => Z.min (Z.max 0 itemsProcessed) t
                    | None => Z.max 0 itemsProcessed
                    end).
  change (fun entry : Assignment =>
            ((a_taskId entry =? taskId)%string
             && optZ_eqb (a_chunkIndex entry) (Some chunkIndex))%bool)
    with (leaseOfBucket taskId chunkIndex).
  set (assignments := match findEntry (leaseOfBucket taskId chunkIndex)
                              (chunkAssignments db) with
                      | Some (pos, assignment) =>
                          replaceAt pos (touchAssignment now req processed assignment)
                            (chunkAssignments db)
                      | None => chunkAssignments db
                      end).
  set (db1 := setChunkAssignments db assignments).
  set (same := fun r : ChunkResult =>
                 ((r_taskId r =? taskId)%string && (r_chunkIndex r =? chunkIndex))%bool).
  change (chunkResults db1) with (chunkResults db).
  assert (Hleases :
            map a_id assignments = map a_id (chunkAssignments db) /\
            filter (fun entry => negb (leaseOfBucket taskId chunkIndex entry)) assignments
            = filter (fun entry => negb (leaseOfBucket taskId chunkIndex entry))
                (chunkAssignments db) /\
            forall lease,
              find (leaseOfBucket taskId chunkIndex) (chunkAssignments db) = Some lease ->
              exists lease',
                find (leaseOfBucket taskId chunkIndex) assignments = Some lease' /\
                a_id lease' = a_id lease /\
                assignmentRange lease' = assignmentRange lease /\
                a_expiresAt lease' = Some (now + BUCKET_TIMEOUT_MS) /\
                forall t, t <= now + BUCKET_TIMEOUT_MS -> expired t lease' = false).
  { subst assignments.
    destruct (findEntry (leaseOfBucket taskId chunkIndex) (chunkAssignments db))
      as [[pos assignment]|] eqn:ELease.
    - destruct (findEntry_Some _ _ ELease) as [Hnth [Hsame _]].
      set (touched := touchAssignment now req processed assignment).
      assert (Htouched : leaseOfBucket taskId chunkIndex touched = true)
        by exact Hsame.
      split; [apply (@map_replaceAt_same _ _ a_id _ _ _ _ Hnth); reflexivity|].
      split.
      + apply (@filter_replaceAt_out _ _ _ _ _ _ Hnth);
          [rewrite Hsame|rewrite Htouched]; reflexivity.
      + intros lease Hfind. rewrite findEntry_find, ELease in Hfind.
        cbn in Hfind. inversion Hfind; subst lease.
        exists touched. rewrite findEntry_find.
        rewrite (@findEntry_replaceAt _ (leaseOfBucket taskId chunkIndex)
                   (chunkAssignments db) pos assignment touched ELease Htouched).
        split; [reflexivity|]. split; [reflexivity|]. split; [reflexivity|].
        split; [reflexivity|].
        intros t Hle. unfold expired. cbn [a_expiresAt touched touchAssignment].
        apply Z.ltb_ge. exact Hle.
    - split; [reflexivity|]. split; [reflexivity|].
      intros lease Hfind. rewrite findEntry_find, ELease in Hfind. discriminate. }
  destruct Hleases as [Hids [Hothers Hlease]].
  unfold storedResult. fold same.
  destruct (findEntry same (chunkResults db)) as [[pos entry]|] eqn:EResult.
  - cbn [snd chunkResults chunkAssignments setTasks setChunkResults ledgerOf
         users walletTransactions platformLedger].
    change (chunkResults db1) with (chunkResults db).
    change (chunkAssignments db1) with assignments.
    split; [reflexivity|].
    split; [|split; [exact Hids|split; [exact Hothers|exact Hlease]]].
    set (merged := mergeProgress now req processed total entry).
    destruct (findEntry_Some _ _ EResult) as [_ [Hsame _]].
    exists merged. rewrite !findEntry_find.
    rewrite (@findEntry_replaceAt _ same (chunkResults db) pos entry merged EResult Hsame),
      EResult.
    cbn [option_map snd statusAfterProgress].
    split; [reflexivity|]. split; [|reflexivity].
    cbn [r_status merged mergeProgress].
    destruct (r_status entry =? "completed")%string;
      destruct (r_status entry =? "failed")%string; reflexivity.
  - destruct (drawId nanoid db1) as [id db2] eqn:EId.
    assert (Hdb2 : chunkResults db2 = chunkResults db /\
                   chunkAssignments db2 = assignments /\
                   ledgerOf db2 = ledgerOf db)
      by (unfold drawId in EId; inversion EId; repeat split).
    destruct Hdb2 as [Hres [Hassign Hledger]].
    cbn [snd chunkResults chunkAssignments setTasks setChunkResults].
    rewrite Hres, Hassign.
    split; [exact Hledger|].
    split; [|split; [exact Hids|split; [exact Hothers|exact Hlease]]].
    set (fresh := freshResult now id taskId chunkIndex req processed total).
    set (merged := mergeProgress now req processed total fresh).
    exists merged. rewrite replaceAt_app_last, find_app_last, !findEntry_find, EResult.
    cbn [option_map statusAfterProgress].
    assert (Hsame : same merged = true).
    { unfold same. cbn [r_taskId r_chunkIndex merged mergeProgress fresh freshResult].
      rewrite String.eqb_refl, Z.eqb_refl. reflexivity. }
    rewrite Hsame. repeat split.
Qed.

Lemma progress_batch_renews_lease_witness :
  exists lease',
    find (leaseOfBucket "task-1" 0)
      (chunkAssignments
         (snd (recordProgress sampleNanoid 5000
                 (withLeases (sampleDb 2 10) [sampleLease "a-0" 0 "w1" 1000 0 2])
                 (sampleProgress 0 0 1 2))))
    = Some lease' /\
    a_id lease' = "a-0" /\
    a_expiresAt lease' = Some (5000 + BUCKET_TIMEOUT_MS).
Proof.
  assert (Htid : "task-1" <> "") by discriminate.
  destruct (@progress_batch_renews_lease sampleNanoid 5000
              (withLeases (sampleDb 2 10) [sampleLease "a-0" 0 "w1" 1000 0 2])
              (sampleProgress 0 0 1 2) "task-1" 0 1 (sampleTask 2 10)
              eq_refl eq_refl eq_refl Htid eq_refl)
    as (_ & _ & _ & _ & Hlease).
  destruct (Hlease (sampleLease "a-0" 0 "w1" 1000 0 2) eq_refl)
    as (lease' & Hfind & Hid & _ & Hexpires & _).
  exists lease'. split; [exact Hfind|]. split; [exact Hid|exact Hexpires].
Defined.

(** ** Terminal results: overlapping results of other buckets *)

Lemma In_replaceAt_other {A : Type} (p : A -> bool) (l : list A) (i : nat) (e x r : A) :
  nth_error l i = Some e -> p e = true -> p r = false -> In r l ->
  In r (replaceAt i x l).
Proof.
  revert i. induction l as [|y rest IH]; intros [|i] Hnth He Hr Hin; cbn in *;
    try discriminate; try contradiction.
  - inversion Hnth; subst y. destruct Hin as [->|Hin]; [congruence|right; exact Hin].
  - destruct Hin as [->|Hin]; [left; reflexivity|right; apply (IH i); assumption].
Qed.

Lemma overlapsOther_apart taskId chunkIndex start stop r rStart rStop :
  overlapsOther taskId chunkIndex (Some (start, stop)) r = false ->
  r_taskId r = taskId -> r_chunkIndex r <> chunkIndex ->
  resultRange r = Some (rStart, rStop) ->
  Z.min stop rStop <= Z.max start rStart.
Proof.
  unfold overlapsOther. intros H Htask Hchunk Hrange.
  rewrite Htask, String.eqb_refl, Hrange in H. cbn [negb] in H.
  apply Z.eqb_neq in Hchunk. rewrite Hchunk in H.
  apply Z.ltb_ge in H. lia.
Qed.

(** X25.  A terminal result for a stored task leaves no stored result of
    another bucket of that task whose range overlaps the range of the
    request: such results are removed and only those; the results of other
    tasks are untouched, and no result is added. *)
Theorem terminal_result_clears_overlaps nanoid dbc pfp now db req taskId chunkIndex
    status task :
  q_taskId req = Some taskId -> q_chunkIndex req = Some chunkIndex ->
  q_status req = Some status -> taskId <> "" -> status <> "" ->
  storedTask db taskId = Some task ->
  let db' := snd (recordChunk nanoid dbc pfp now db req) in
  let range := normalizeRange (q_rangeStart req) (q_rangeEnd req)
                 (q_itemsCount req) (Some chunkIndex) in
  (forall r start stop rStart rStop,
      In r (chunkResults db') -> r_taskId r = taskId -> r_chunkIndex r <> chunkIndex ->
      range = Some (start, stop) -> resultRange r = Some (rStart, rStop) ->
      Z.min stop rStop <= Z.max start rStart) /\
  (forall r,
      In r (chunkResults db) -> overlapsOther taskId chunkIndex range r = true ->
      ~ In r (chunkResults db')) /\
  (forall r,
      In r (chunkResults db) -> overlapsOther taskId chunkIndex range r = false ->
      r_taskId r <> taskId \/ r_chunkIndex r <> chunkIndex ->
      In r (chunkResults db')) /\
  (forall other, other <> taskId -> resultsOf other db' = resultsOf other db) /\
  (List.length (chunkResults db') <= List.length (chunkResults db))%nat.
Proof.
  intros Ht Hc Hs Htid Hst Htask. cbv zeta.
  destruct (findEntry_of_find _ _ Htask) as [taskPos Hentry].
  unfold recordChunk. rewrite Ht, Hc, Hs.
  rewrite (truthy_Some Htid), (truthy_Some Hst). cbn [negb orb].
  rewrite Hentry. cbv zeta.
  set (range := normalizeRange (q_rangeStart req) (q_rangeEnd req)
                  (q_itemsCount req) (Some chunkIndex)).
  set (same := fun r : ChunkResult =>
                 ((r_taskId r =? taskId)%string && (r_chunkIndex r =? chunkIndex))%bool).
  set (resultsArr := filter (fun r => negb (overlapsOther taskId chunkIndex range r))
                       (chunkResults db)).
  assert (Hclean : forall r, In r resultsArr ->
                             overlapsOther taskId chunkIndex range r = false).
  { intros r Hin. apply filter_In in Hin. destruct Hin as [_ Hkeep].
    apply negb_true_iff in Hkeep. exact Hkeep. }
  assert (Hkept : forall r, In r (chunkResults db) ->
                            overlapsOther taskId chunkIndex range r = false ->
                            In r resultsArr).
  { intros r Hin Hno. apply filter_In. split; [exact Hin|]. rewrite Hno. reflexivity. }
  assert (Hsame_clean : forall r, same r = true ->
                                  overlapsOther taskId chunkIndex range r = false).
  { intros r Hr. unfold same in Hr. apply andb_prop in Hr. destruct Hr as [H1 H2].
    unfold overlapsOther. rewrite H1, H2. reflexivity. }
  assert (Hother_clean : forall other r, other <> taskId ->
                           (r_taskId r =? other)%string = true ->
                           negb (overlapsOther taskId chunkIndex range r) = true).
  { intros other r Hne Hr. apply String.eqb_eq in Hr. unfold overlapsOther.
    assert (E : (r_taskId r =? taskId)%string = false)
      by (apply String.eqb_neq; congruence).
    rewrite E. reflexivity. }
  assert (Hlen : (List.length resultsArr <= List.length (chunkResults db))%nat)
    by apply filter_length_le.
  destruct (findEntry same resultsArr) as [[resultPos existing]|] eqn:EResult.
  - destruct (findEntry_Some _ _ EResult) as [Hnth [Hsame _]].
    match goal with
    | |- context [issueChunkPayout nanoid dbc pfp now ?d ?t ?r ?w] =>
        pose proof (issueChunkPayout_fields nanoid dbc pfp now d t r w) as Hfields;
        destruct (issueChunkPayout nanoid dbc pfp now d t r w)
          as [[[payoutApplied db2] task2] target'] eqn:EPay
    end.
    cbn [fst snd] in Hfields. destruct Hfields as [F1 [F2 _]].
    cbn [r_taskId r_chunkIndex overwriteResult] in F1, F2.
    assert (Htarget : same target' = true)
      by (unfold same in *; rewrite F1, F2; exact Hsame).
    cbn [snd chunkResults setTasks setChunkResults]. unfold resultsOf.
    cbn [chunkResults setTasks setChunkResults].
    split; [|split; [|split; [|split]]].
    + intros r start stop rStart rStop Hin Htaskr Hchunk Hrange Hr.
      apply In_replaceAt in Hin. destruct Hin as [->|Hin].
      * exfalso. apply Hchunk. unfold same in Htarget.
        apply andb_prop in Htarget. apply Z.eqb_eq. apply Htarget.
      * apply (@overlapsOther_apart taskId chunkIndex start stop r rStart rStop);
          try assumption.
        rewrite <- Hrange. apply Hclean. exact Hin.
    + intros r _ Hover Hin. apply In_replaceAt in Hin. destruct Hin as [->|Hin].
      * rewrite (Hsame_clean _ Htarget) in Hover. discriminate.
      * rewrite (Hclean _ Hin) in Hover. discriminate.
    + intros r Hin Hno Hapart.
      apply (@In_replaceAt_other _ same resultsArr resultPos existing target' r Hnth Hsame);
        [|apply Hkept; assumption].
      unfold same. destruct Hapart as [Hne|Hne].
      * apply String.eqb_neq in Hne. rewrite Hne. reflexivity.
      * apply Z.eqb_neq in Hne. rewrite Hne. apply andb_false_r.
    + intros other Hne.
      assert (Eother : forall r, same r = true -> (r_taskId r =? other)%string = false).
      { intros r Hr. unfold same in Hr. apply andb_prop in Hr. destruct Hr as [Hr _].
        apply String.eqb_eq in Hr. apply String.eqb_neq. congruence. }
      rewrite (@filter_replaceAt_out _ (fun r => (r_taskId r =? other)%string)
                 resultsArr resultPos existing target' Hnth
                 (Eother _ Hsame) (Eother _ Htarget)).
      apply filter_filter_implied. intros r Hr. apply (Hother_clean other r Hne Hr).
    + rewrite replaceAt_length. exact Hlen.
  - cbn [snd drawId chunkResults setTasks setChunkResults setChunkAssignments].
    unfold resultsOf. cbn [chunkResults].
    split; [|split; [|split; [|split]]].
    + intros r start stop rStart rStop Hin Htaskr Hchunk Hrange Hr.
      apply (@overlapsOther_apart taskId chunkIndex start stop r rStart rStop);
        try assumption.
      rewrite <- Hrange. apply Hclean. exact Hin.
    + intros r _ Hover Hin. rewrite (Hclean _ Hin) in Hover. discriminate.
    + intros r Hin Hno _. apply Hkept; assumption.
    + intros other Hne. apply filter_filter_implied.
      intros r Hr. apply (Hother_clean other r Hne Hr).
    + exact Hlen.
Qed.

Lemma terminal_result_clears_overlaps_witness :
  exists r,
    nth_error (chunkResults sampleOverlappingResults) 1 = Some r /\
    r_chunkIndex r = 1 /\
    ~ In r (chunkResults
              (snd (recordChunk sampleNanoid true 10 2000 sampleOverlappingResults
                      (sampleChunk 0 "completed" (Some 0) (Some 2) (Some 2) [])))).
Proof.
  assert (Htid : "task-1" <> "") by discriminate.
  assert (Hst : "completed" <> "") by discriminate.
  destruct (nth_error (chunkResults sampleOverlappingResults) 1) as [r|] eqn:Hnth;
    [|vm_compute in Hnth; discriminate].
  assert (Hchunk : r_chunkIndex r = 1)
    by (vm_compute in Hnth; inversion Hnth; reflexivity).
  assert (Hover : overlapsOther "task-1" 0
                    (normalizeRange (Some 0) (Some 2) (Some 2) (Some 0)) r = true)
    by (vm_compute in Hnth; inversion Hnth; reflexivity).
  destruct (storedTask sampleOverlappingResults "task-1") as [task|] eqn:Htask;
    [|vm_compute in Htask; discriminate].
  destruct (@terminal_result_clears_overlaps sampleNanoid true 10 2000
              sampleOverlappingResults
              (sampleChunk 0 "completed" (Some 0) (Some 2) (Some 2) [])
              "task-1" 0 "completed" task eq_refl eq_refl eq_refl Htid Hst Htask)
    as (_ & Hgone & _).
  exists r. split; [reflexivity|]. split; [exact Hchunk|].
  apply Hgone; [eapply nth_error_In; exact Hnth|exact Hover].
Defined.

(** ** Session middleware *)




(** What [createUser] leaves in the store. *)
Lemma createUser_effect nanoid now db sessionId initialBalance roles :
  exists u db',
    createUser nanoid now db sessionId initialBalance roles
    = (List.length (users db), db') /\
    users db' = (users db ++ [u])%list /\
    u_walletBalance u = initialBalance /\ u_roles u = roles /\
    (truthy sessionId = true -> sessionId = Some (u_sessionId u)) /\
    tasks db' = tasks db /\ chunkResults db' = chunkResults db /\
    chunkAssignments db' = chunkAssignments db /\
    walletTransactions db' = walletTransactions db /\
    platformLedger db' = platformLedger db.
Proof.
  unfold createUser. cbn [drawId].
  destruct sessionId as [s|]; [destruct (truthy (Some s)) eqn:Et|];
    cbn [drawId users setUsers List.length];
    eexists; eexists; (split; [reflexivity|]);
    cbn; repeat split; try discriminate; try reflexivity.
Qed.



(** ** Stripe webhook *)





(** ** Second revision: the bucket plan *)

Lemma sumZ_app (a b : list Z) : sumZ (a ++ b) = sumZ a + sumZ b.
Proof.
  unfold sumZ. induction a as [|x rest IH]; cbn [app fold_right]; [reflexivity|].
  rewrite IH. lia.
Qed.

Lemma slice_middle {A : Type} (done cur rest : list A) :
  slice (Z.of_nat (List.length done)) (Z.of_nat (List.length done + List.length cur))
    (done ++ cur ++ rest)
  = cur.
Proof.
  unfold slice. rewrite Nat2Z.id.
  replace (Z.to_nat (Z.of_nat (List.length done + List.length cur)
                     - Z.of_nat (List.length done)))
    with (List.length cur) by lia.
  rewrite skipn_app, skipn_all, Nat.sub_diag. cbn [skipn app].
  rewrite firstn_app, firstn_all, Nat.sub_diag. cbn [firstn]. apply app_nil_r.
Qed.

Lemma tiles_cons from to bucket rest :
  Revision2.b_start bucket = from ->
  Revision2.tiles (Revision2.b_end bucket) to rest ->
  Revision2.tiles from to (bucket :: rest).
Proof.
  intros Hstart Hrest. destruct rest as [|next rest]; [destruct Hrest|].
  split; [exact Hstart|exact Hrest].
Qed.

(** The first loop leaves a capacity that every item fits in. *)
Lemma fitLoop_spec itemSizes allowedBuckets bucketSize :
  1 <= allowedBuckets ->
  1 <= fst (Revision2.fitLoop itemSizes allowedBuckets bucketSize) <= allowedBuckets /\
  Z.pos bucketSize <= Z.pos (snd (Revision2.fitLoop itemSizes allowedBuckets bucketSize)) /\
  Forall (fun size => size <= Z.pos (snd (Revision2.fitLoop itemSizes allowedBuckets
                                            bucketSize))) itemSizes.
Proof.
  functional induction (Revision2.fitLoop itemSizes allowedBuckets bucketSize)
    as [allowedBuckets bucketSize Hguard IH|allowedBuckets bucketSize Hguard];
    intros Hallowed.
  - assert (Hhalf : allowedBuckets / 2 <= allowedBuckets)
      by (apply Z.div_le_upper_bound; lia).
    destruct IH as [H1 [H2 H3]]; [lia|].
    split; [lia|]. split; [|exact H3].
    rewrite Pos2Z.inj_mul in H2. lia.
  - cbn [fst snd]. split; [lia|]. split; [lia|].
    apply Forall_forall. intros size Hin.
    destruct (Z.pos bucketSize <? size) eqn:E; [|apply Z.ltb_ge in E; exact E].
    assert (Hex : existsb (fun size => Z.pos bucketSize <? size) itemSizes = true)
      by (apply existsb_exists; exists size; split; assumption).
    congruence.
Qed.

(** The buckets that the [for] loop pushes: [done] are the items of the
    buckets pushed so far, [cur] those of the bucket being filled. *)
Lemma packFrom_spec bucketSize rest :
  forall done cur i currentStart currentBytes,
    i = Z.of_nat (List.length done + List.length cur) ->
    currentStart = Z.of_nat (List.length done) ->
    currentBytes = sumZ cur ->
    sumZ cur <= bucketSize -> Forall (fun size => size <= bucketSize) rest ->
    let all := (done ++ cur ++ rest)%list in
    let out := Revision2.packFrom bucketSize i rest currentStart currentBytes in
    Revision2.tiles currentStart (Z.of_nat (List.length all)) out /\
    Forall (fun b =>
              Z.of_nat (List.length done) <= Revision2.b_start b /\
              Revision2.b_start b <= Revision2.b_end b /\
              Revision2.b_end b <= Z.of_nat (List.length all) /\
              Revision2.b_byteSize b
              = sumZ (slice (Revision2.b_start b) (Revision2.b_end b) all) /\
              Revision2.b_byteSize b <= bucketSize /\
              (Revision2.b_end b < Z.of_nat (List.length all) ->
               exists size,
                 nth_error all (Z.to_nat (Revision2.b_end b)) = Some size /\
                 bucketSize < Revision2.b_byteSize b + size)) out /\
    (cur <> [] \/ rest <> [] ->
     Forall (fun b => Revision2.b_start b < Revision2.b_end b) out).
Proof.
  induction rest as [|size rest IH];
    intros done cur i currentStart currentBytes Hi Hstart Hbytes Hcur Hrest;
    cbv zeta; cbn [Revision2.packFrom].
  - rewrite !length_app. cbn [List.length]. subst i currentStart currentBytes.
    split; [cbn [Revision2.tiles Revision2.b_start Revision2.b_end];
            split; [reflexivity|lia]|].
    split.
    + constructor; [|constructor].
      cbn [Revision2.b_start Revision2.b_end Revision2.b_byteSize].
      rewrite slice_middle. repeat split; lia.
    + intros [Hne|Hne]; [|contradiction]. constructor; [|constructor].
      cbn [Revision2.b_start Revision2.b_end].
      destruct cur; [contradiction|]. cbn [List.length]. lia.
  - inversion Hrest as [|? ? Hsize Hrest']; subst.
    assert (Hall : Z.of_nat (List.length (done ++ cur ++ size :: rest))
                   = Z.of_nat (List.length done + List.length cur) + 1
                     + Z.of_nat (List.length rest))
      by (rewrite !length_app; cbn [List.length]; lia).
    destruct ((0 <? sumZ cur) && (bucketSize <? sumZ cur + size))%bool eqn:Epush.
    + apply andb_prop in Epush. destruct Epush as [Epos Efull].
      apply Z.ltb_lt in Epos. apply Z.ltb_lt in Efull.
      assert (Hnonempty : (0 < List.length cur)%nat).
      { destruct cur; [cbn in Epos; lia|cbn; lia]. }
      destruct (IH (done ++ cur)%list [size]
                  (Z.of_nat (List.length done + List.length cur) + 1)
                  (Z.of_nat (List.length done + List.length cur)) (0 + size))
        as [Htiles [Hall' Hne]].
      * rewrite length_app. cbn [List.length]. lia.
      * rewrite length_app. reflexivity.
      * cbn. lia.
      * cbn. lia.
      * exact Hrest'.
      * replace ((done ++ cur) ++ [size] ++ rest)%list
          with (done ++ cur ++ size :: rest)%list in *
          by (rewrite <- app_assoc; reflexivity).
        split; [apply tiles_cons; [reflexivity|exact Htiles]|].
        split.
        -- constructor.
           ++ cbn [Revision2.b_start Revision2.b_end Revision2.b_byteSize].
              rewrite slice_middle. repeat split; try lia.
              intros _. exists size. split; [|exact Efull].
              rewrite Nat2Z.id, app_assoc, nth_error_app2 by (rewrite length_app; lia).
              rewrite length_app, Nat.sub_diag. reflexivity.
           ++ eapply Forall_impl; [|exact Hall'].
              intros b [H1 H2]. rewrite length_app in H1. split; [lia|exact H2].
        -- intros _. constructor.
           ++ cbn [Revision2.b_start Revision2.b_end]. lia.
           ++ apply Hne. left. discriminate.
    + destruct (IH done (cur ++ [size])%list
                  (Z.of_nat (List.length done + List.length cur) + 1)
                  (Z.of_nat (List.length done)) (sumZ cur + size))
        as [Htiles [Hall' Hne]].
      * rewrite length_app. cbn [List.length]. lia.
      * reflexivity.
      * rewrite sumZ_app. cbn. lia.
      * rewrite sumZ_app. cbn.
        apply andb_false_iff in Epush. destruct Epush as [E|E];
          [apply Z.ltb_ge in E|apply Z.ltb_ge in E]; lia.
      * exact Hrest'.
      * replace (done ++ (cur ++ [size]) ++ rest)%list
          with (done ++ cur ++ size :: rest)%list in *
          by (rewrite <- (app_assoc cur); reflexivity).
        split; [exact Htiles|]. split; [exact Hall'|].
        intros _. apply Hne. left. destruct cur; discriminate.
Qed.

(** The second loop returns the plan of its last turn. *)
Lemma planLoop_spec itemSizes allowedBuckets bucketSize :
  1 <= allowedBuckets -> 0 < bucketSize ->
  let plan := Revision2.planLoop itemSizes allowedBuckets bucketSize in
  1 <= Revision2.allowedBuckets plan <= allowedBuckets /\
  bucketSize <= Revision2.bucketSizeBytes plan /\
  Revision2.buckets plan
  = Revision2.packFrom (Revision2.bucketSizeBytes plan) 0 itemSizes 0 0 /\
  (Z.of_nat (List.length (Revision2.buckets plan)) <= Revision2.allowedBuckets plan \/
   Revision2.allowedBuckets plan = 1).
Proof.
  cbv zeta.
  functional induction (Revision2.planLoop itemSizes allowedBuckets bucketSize)
    as [allowedBuckets bucketSize Hdone|allowedBuckets bucketSize Hmore IH];
    intros Hallowed Hsize.
  - cbn [Revision2.allowedBuckets Revision2.bucketSizeBytes Revision2.buckets].
    split; [lia|]. split; [lia|]. split; [reflexivity|].
    apply orb_prop in Hdone. destruct Hdone as [H|H]; apply Z.leb_le in H;
      [left; exact H|right; lia].
  - assert (Hhalf : allowedBuckets / 2 <= allowedBuckets)
      by (apply Z.div_le_upper_bound; lia).
    destruct IH as [H1 [H2 [H3 H4]]]; [lia|lia|].
    split; [lia|]. split; [lia|]. split; [exact H3|exact H4].
Qed.

(** X26.  [computeBucketPlan] always returns a plan, with at least one
    allowed bucket and a capacity of at least 256 bytes that every item
    fits in.  Its buckets cover the items [0, n) in order, without gap or
    overlap; each bucket records the bytes of its items, which do not
    exceed the capacity, while the first item of the next bucket would have
    exceeded it; no bucket is empty unless there are no items; and
    there are at most [allowedBuckets] buckets unless [allowedBuckets] has
    come down to 1. *)
Theorem bucket_plan_partitions (DEFAULT_MAX_BUCKETS DEFAULT_BUCKET_SIZE_BYTES : Z)
    (itemSizes : list Z) (maxBuckets initialSize : option Q) :
  let plan := Revision2.computeBucketPlan DEFAULT_MAX_BUCKETS DEFAULT_BUCKET_SIZE_BYTES
                itemSizes maxBuckets initialSize in
  let total := Z.of_nat (List.length itemSizes) in
  1 <= Revision2.allowedBuckets plan /\
  256 <= Revision2.bucketSizeBytes plan /\
  Forall (fun size => size <= Revision2.bucketSizeBytes plan) itemSizes /\
  Revision2.tiles 0 total (Revision2.buckets plan) /\
  Forall (fun b =>
            0 <= Revision2.b_start b /\ Revision2.b_start b <= Revision2.b_end b /\
            Revision2.b_end b <= total /\
            Revision2.b_byteSize b
            = sumZ (slice (Revision2.b_start b) (Revision2.b_end b) itemSizes) /\
            Revision2.b_byteSize b <= Revision2.bucketSizeBytes plan /\
            (Revision2.b_end b < total ->
             exists size,
               nth_error itemSizes (Z.to_nat (Revision2.b_end b)) = Some size /\
               Revision2.bucketSizeBytes plan < Revision2.b_byteSize b + size))
    (Revision2.buckets plan) /\
  (itemSizes <> [] ->
   Forall (fun b => Revision2.b_start b < Revision2.b_end b) (Revision2.buckets plan)) /\
  (Z.of_nat (List.length (Revision2.buckets plan)) <= Revision2.allowedBuckets plan \/
   Revision2.allowedBuckets plan = 1).
Proof.
  cbv zeta. unfold Revision2.computeBucketPlan.
  set (sanitizedMax := Z.max 1 (Revision2.positiveOr maxBuckets DEFAULT_MAX_BUCKETS)).
  set (bucketSize :=
         Z.max 256 (Revision2.positiveOr initialSize DEFAULT_BUCKET_SIZE_BYTES)).
  assert (Hmax : 1 <= sanitizedMax) by (unfold sanitizedMax; lia).
  assert (Hsize : 256 <= bucketSize) by (unfold bucketSize; lia).
  destruct itemSizes as [|first more].
  - cbn [Revision2.allowedBuckets Revision2.bucketSizeBytes Revision2.buckets
         List.length Revision2.tiles].
    split; [exact Hmax|]. split; [exact Hsize|]. split; [constructor|].
    split; [split; reflexivity|].
    split; [constructor; [cbn; repeat split; lia|constructor]|].
    split; [intros H; contradiction|].
    left. cbn. lia.
  - set (itemSizes := first :: more).
    destruct (@fitLoop_spec itemSizes sanitizedMax (Z.to_pos bucketSize) Hmax)
      as [Hallowed [Hgrown Hfit]].
    rewrite Z2Pos.id in Hgrown by lia.
    destruct (Revision2.fitLoop itemSizes sanitizedMax (Z.to_pos bucketSize))
      as [allowed fitted].
    cbn [fst snd] in Hallowed, Hgrown, Hfit.
    destruct (@planLoop_spec itemSizes allowed (Z.pos fitted))
      as [Hplan [Hbytes [Hbuckets Hcount]]]; [lia|lia|].
    set (plan := Revision2.planLoop itemSizes allowed (Z.pos fitted)) in *.
    assert (Hfit' : Forall (fun size => size <= Revision2.bucketSizeBytes plan) itemSizes).
    { eapply Forall_impl; [|exact Hfit]. cbv beta. intros size H. lia. }
    destruct (@packFrom_spec (Revision2.bucketSizeBytes plan) itemSizes [] [] 0 0 0)
      as [Htiles [Hall Hne]];
      [reflexivity|reflexivity|reflexivity|cbn; lia|exact Hfit'|].
    cbn [app List.length] in Htiles, Hall, Hne. rewrite <- Hbuckets in *.
    split; [lia|]. split; [lia|]. split; [exact Hfit'|].
    split; [exact Htiles|].
    split; [|split; [intros _; apply Hne; right; discriminate|exact Hcount]].
    eapply Forall_impl; [|exact Hall]. cbv beta.
    intros b (H1 & H2 & H3 & H4 & H5 & H6). repeat split; try assumption; lia.
Qed.

(** ** Second revision: dispatch by index *)

Lemma find_map {A B : Type} (f : A -> B) (p : B -> bool) (l : list A) :
  find p (map f l) = option_map f (find (fun x => p (f x)) l).
Proof.
  induction l as [|x rest IH]; [reflexivity|].
  cbn [map find]. destruct (p (f x)); [reflexivity|exact IH].
Qed.

Lemma existsb_eqb_Z (i : Z) (l : list Z) : existsb (Z.eqb i) l = true <-> In i l.
Proof.
  rewrite existsb_exists. split.
  - intros [x [Hin Hx]]. apply Z.eqb_eq in Hx. subst. exact Hin.
  - intros Hin. exists i. split; [exact Hin|apply Z.eqb_refl].
Qed.

Lemma existsb_eqb_Z_false (i : Z) (l : list Z) :
  existsb (Z.eqb i) l = false <-> ~ In i l.
Proof.
  rewrite <- existsb_eqb_Z. destruct (existsb (Z.eqb i) l); split; intros H.
  - discriminate.
  - exfalso. apply H. reflexivity.
  - intros H'. discriminate.
  - reflexivity.
Qed.

(** The index chosen is the least one below [totalChunks] that is in
    neither set. *)
Lemma firstFree_spec completed assigned totalChunks chosen :
  Revision2.firstFree completed assigned totalChunks = Some chosen ->
  0 <= chosen < totalChunks /\
  ~ In chosen completed /\ ~ In chosen assigned /\
  forall i, 0 <= i < chosen -> In i completed \/ In i assigned.
Proof.
  unfold Revision2.firstFree. rewrite find_map.
  destruct (find _ (seq 0 (Z.to_nat totalChunks))) as [k|] eqn:Efind; [|discriminate].
  cbn [option_map]. intros H. injection H as <-.
  apply find_seq_Some in Efind. destruct Efind as [Hrange [Hfree Hbefore]].
  apply andb_prop in Hfree. destruct Hfree as [Hc Ha].
  apply negb_true_iff in Hc, Ha.
  split; [lia|]. split; [apply existsb_eqb_Z_false; exact Hc|].
  split; [apply existsb_eqb_Z_false; exact Ha|].
  intros i Hi. specialize (Hbefore (Z.to_nat i) ltac:(lia)).
  rewrite Z2Nat.id in Hbefore by lia.
  apply andb_false_iff in Hbefore. destruct Hbefore as [H|H];
    apply negb_false_iff, existsb_eqb_Z in H; [left|right]; exact H.
Qed.

Lemma firstFree_none completed assigned totalChunks :
  Revision2.firstFree completed assigned totalChunks = None ->
  forall i, 0 <= i < totalChunks -> In i completed \/ In i assigned.
Proof.
  unfold Revision2.firstFree. rewrite find_map.
  destruct (find _ (seq 0 (Z.to_nat totalChunks))) as [k|] eqn:Efind; [discriminate|].
  intros _ i Hi.
  pose proof (@find_seq_None _ _ _ Efind (Z.to_nat i) ltac:(lia)) as H.
  cbv beta in H. rewrite Z2Nat.id in H by lia.
  apply andb_false_iff in H. destruct H as [H|H];
    apply negb_false_iff, existsb_eqb_Z in H; [left|right]; exact H.
Qed.

(** The slices of consecutive indexes tile the items. *)
Lemma sliceBounds_spec chosen total totalChunks :
  0 <= total -> 0 <= chosen < totalChunks ->
  0 <= fst (Revision2.sliceBounds chosen total totalChunks) /\
  fst (Revision2.sliceBounds chosen total totalChunks)
  <= snd (Revision2.sliceBounds chosen total totalChunks) /\
  snd (Revision2.sliceBounds chosen total totalChunks) <= total /\
  fst (Revision2.sliceBounds 0 total totalChunks) = 0 /\
  snd (Revision2.sliceBounds (totalChunks - 1) total totalChunks) = total /\
  snd (Revision2.sliceBounds chosen total totalChunks)
  = fst (Revision2.sliceBounds (chosen + 1) total totalChunks).
Proof.
  intros Htotal Hchosen. unfold Revision2.sliceBounds. cbn [fst snd].
  split; [apply Z.div_pos; nia|].
  split; [apply Z.div_le_mono; nia|].
  split; [apply Z.div_le_upper_bound; nia|].
  split; [reflexivity|].
  split; [|reflexivity].
  replace (totalChunks - 1 + 1) with totalChunks by lia.
  rewrite Z.mul_comm. apply Z.div_mul. lia.
Qed.

(** What a granted request of the second revision found and wrote. *)
Lemma indexChunk_granted (Item : Type) now store (dataItems : option (list Item))
    taskId workerId chosen chunkData store' :
  Revision2.nextChunk now store dataItems (Some taskId) (Some workerId)
  = (Revision2.Chunk chosen chunkData, store') ->
  exists pos task total workers,
    findEntry (fun t => (Revision2.id t =? taskId)%string) (Revision2.tasks store)
    = Some (pos, task) /\
    0 < total /\
    Revision2.firstFree
      (map Revision2.r_chunkIndex
         (filter (fun r => ((Revision2.r_taskId r =? taskId)%string
                            && finishedStatus (Revision2.r_status r))%bool)
            (Revision2.chunkResults store)))
      (map Revision2.l_chunkIndex
         (filter (fun a => (Revision2.l_taskId a =? taskId)%string)
            (Revision2.chunkAssignments store)))
      total
    = Some chosen /\
    In workerId workers /\
    store'
    = {| Revision2.tasks :=
           replaceAt pos
             {| Revision2.id := Revision2.id task; Revision2.status := "processing";
                Revision2.totalChunks := Some total;
                Revision2.assignedWorkers := Some workers |}
             (Revision2.tasks store);
         Revision2.chunkResults := Revision2.chunkResults store;
         Revision2.chunkAssignments :=
           (Revision2.chunkAssignments store
            ++ [{| Revision2.l_taskId := taskId; Revision2.l_chunkIndex := chosen;
                   Revision2.l_workerId := workerId;
                   Revision2.l_assignedAt := now |}])%list |} /\
    chunkData
    = match dataItems with
      | Some parsed =>
          Some (slice
                  (fst (Revision2.sliceBounds chosen (Z.of_nat (List.length parsed)) total))
                  (snd (Revision2.sliceBounds chosen (Z.of_nat (List.length parsed)) total))
                  parsed)
      | None => None
      end.
Proof.
  unfold Revision2.nextChunk.
  destruct (negb (truthy (Some taskId)) || negb (truthy (Some workerId)))%bool;
    [discriminate|].
  destruct (findEntry _ (Revision2.tasks store)) as [[pos task]|] eqn:Efind;
    [|discriminate].
  cbv zeta.
  set (task1 := Revision2.learnTotalChunks task dataItems).
  assert (Hid : Revision2.id task1 = Revision2.id task).
  { unfold task1, Revision2.learnTotalChunks.
    destruct dataItems as [parsed|]; [|reflexivity].
    destruct (match Revision2.totalChunks task with
              | Some n => negb (n =? 0)
              | None => false
              end); reflexivity. }
  destruct (Revision2.totalChunks task1) as [total|] eqn:Etotal; [|discriminate].
  destruct ((total =? 0) || (total <=? 0))%bool eqn:Epos; [discriminate|].
  apply orb_false_elim in Epos. destruct Epos as [_ Epos]. apply Z.leb_gt in Epos.
  destruct (Revision2.firstFree _ _ total) as [c|] eqn:Efree; [|discriminate].
  intros H. injection H as <- <- <-.
  set (workers := match Revision2.assignedWorkers task1 with
                  | Some ws => ws
                  | None => []
                  end).
  exists pos, task, total,
    (if existsb (String.eqb workerId) workers then workers
     else (workers ++ [workerId])%list).
  split; [reflexivity|]. split; [exact Epos|]. split; [exact Efree|].
  split.
  - destruct (existsb (String.eqb workerId) workers) eqn:Ehas.
    + apply existsb_exists in Ehas. destruct Ehas as [w [Hin Hw]].
      apply String.eqb_eq in Hw. subst w. exact Hin.
    + apply in_or_app. right. left. reflexivity.
  - rewrite Hid. split; reflexivity.
Qed.

(** X29.  When [next-chunk] of the second revision hands out an index, it is
    the least index below [totalChunks] for which the task has neither a
    finished result nor a lease; the lease for it is appended, results are
    untouched, the task is [processing] and lists the worker.  The data
    sent are the items of the slice of that index, and the slices of
    consecutive indexes tile the items from the first to the last.  As long
    as the lease is there, no later request for the task is handed the same
    index. *)
Theorem index_dispatch_first_free (Item : Type) now store
    (dataItems : option (list Item)) taskId workerId chosen chunkData store' :
  Revision2.nextChunk now store dataItems (Some taskId) (Some workerId)
  = (Revision2.Chunk chosen chunkData, store') ->
  exists task total workers,
    find (fun t => (Revision2.id t =? taskId)%string) (Revision2.tasks store')
    = Some task /\
    Revision2.totalChunks task = Some total /\
    Revision2.status task = "processing" /\
    Revision2.assignedWorkers task = Some workers /\ In workerId workers /\
    0 <= chosen < total /\
    (forall r, In r (Revision2.chunkResults store) ->
               Revision2.r_taskId r = taskId ->
               finishedStatus (Revision2.r_status r) = true ->
               Revision2.r_chunkIndex r <> chosen) /\
    (forall a, In a (Revision2.chunkAssignments store) ->
               Revision2.l_taskId a = taskId -> Revision2.l_chunkIndex a <> chosen) /\
    (forall i, 0 <= i < chosen ->
               (exists r, In r (Revision2.chunkResults store) /\
                          Revision2.r_taskId r = taskId /\
                          finishedStatus (Revision2.r_status r) = true /\
                          Revision2.r_chunkIndex r = i) \/
               (exists a, In a (Revision2.chunkAssignments store) /\
                          Revision2.l_taskId a = taskId /\
                          Revision2.l_chunkIndex a = i)) /\
    Revision2.chunkResults store' = Revision2.chunkResults store /\
    Revision2.chunkAssignments store'
    = (Revision2.chunkAssignments store
       ++ [{| Revision2.l_taskId := taskId; Revision2.l_chunkIndex := chosen;
              Revision2.l_workerId := workerId;
              Revision2.l_assignedAt := now |}])%list /\
    (forall parsed,
        dataItems = Some parsed ->
        let n := Z.of_nat (List.length parsed) in
        let bounds := Revision2.sliceBounds chosen n total in
        chunkData = Some (slice (fst bounds) (snd bounds) parsed) /\
        0 <= fst bounds /\ fst bounds <= snd bounds /\ snd bounds <= n /\
        fst (Revision2.sliceBounds 0 n total) = 0 /\
        snd (Revision2.sliceBounds (total - 1) n total) = n /\
        snd bounds = fst (Revision2.sliceBounds (chosen + 1) n total)) /\
    (forall now' (dataItems' : option (list Item)) workerId' chosen' chunkData' store'',
        Revision2.nextChunk now' store' dataItems' (Some taskId) (Some workerId')
        = (Revision2.Chunk chosen' chunkData', store'') ->
        chosen' <> chosen).
Proof.
  intros Hgrant.
  destruct (indexChunk_granted _ _ _ _ _ Hgrant)
    as (pos & task & total & workers & Hfind & Hpos & Hfree & Hworker & Hstore & Hdata).
  destruct (firstFree_spec _ _ _ Hfree) as (Hrange & Hnc & Hna & Hleast).
  exists {| Revision2.id := Revision2.id task; Revision2.status := "processing";
            Revision2.totalChunks := Some total;
            Revision2.assignedWorkers := Some workers |}, total, workers.
  destruct (findEntry_Some _ _ Hfind) as [_ [Hid _]].
  split.
  { rewrite Hstore. cbn [Revision2.tasks]. rewrite findEntry_find.
    rewrite (@findEntry_replaceAt _ _ (Revision2.tasks store) pos task _ Hfind);
      [reflexivity|exact Hid]. }
  split; [reflexivity|]. split; [reflexivity|]. split; [reflexivity|].
  split; [exact Hworker|]. split; [exact Hrange|].
  split.
  { intros r Hin Htask Hfin Heq. apply Hnc. apply in_map_iff. exists r.
    split; [exact Heq|]. apply filter_In. split; [exact Hin|].
    rewrite Htask, String.eqb_refl, Hfin. reflexivity. }
  split.
  { intros a Hin Htask Heq. apply Hna. apply in_map_iff. exists a.
    split; [exact Heq|]. apply filter_In. split; [exact Hin|].
    rewrite Htask. apply String.eqb_refl. }
  split.
  { intros i Hi. destruct (Hleast i Hi) as [H|H]; apply in_map_iff in H;
      destruct H as [x [Hx Hin]]; apply filter_In in Hin; destruct Hin as [Hin Hp].
    - left. apply andb_prop in Hp. destruct Hp as [Ht Hf]. apply String.eqb_eq in Ht.
      exists x. repeat split; assumption.
    - right. apply String.eqb_eq in Hp. exists x. repeat split; assumption. }
  split; [rewrite Hstore; reflexivity|].
  split; [rewrite Hstore; reflexivity|].
  split.
  { intros parsed Hparsed. cbv zeta. rewrite Hparsed in Hdata.
    split; [exact Hdata|].
    apply sliceBounds_spec; lia. }
  intros now' dataItems' workerId' chosen' chunkData' store'' Hagain Heq.
  destruct (indexChunk_granted _ _ _ _ _ Hagain)
    as (_ & _ & total' & _ & _ & _ & Hfree' & _).
  destruct (firstFree_spec _ _ _ Hfree') as (_ & _ & Hna' & _).
  apply Hna'. rewrite Hstore. cbn [Revision2.chunkAssignments].
  apply in_map_iff.
  exists {| Revision2.l_taskId := taskId; Revision2.l_chunkIndex := chosen;
            Revision2.l_workerId := workerId; Revision2.l_assignedAt := now |}.
  split; [cbn; congruence|].
  apply filter_In. split; [apply in_or_app; right; left; reflexivity|].
  cbn. apply String.eqb_refl.
Qed.

Lemma index_dispatch_first_free_witness :
  exists store',
    Revision2.nextChunk 2000 sampleIndexStore (Some [1; 2; 3; 4; 5; 6])
      (Some "task-1") (Some "w2")
    = (Revision2.Chunk 2 (Some [5; 6]), store') /\
    List.length (Revision2.chunkAssignments store') = 2%nat /\
    Revision2.chunkResults store' = Revision2.chunkResults sampleIndexStore.
Proof.
  destruct (Revision2.nextChunk 2000 sampleIndexStore (Some [1; 2; 3; 4; 5; 6])
              (Some "task-1") (Some "w2")) as [reply store'] eqn:Eout.
  assert (Hreply : reply = Revision2.Chunk 2 (Some [5; 6]))
    by (vm_compute in Eout; injection Eout as <- _; reflexivity).
  subst reply.
  destruct (@index_dispatch_first_free Z 2000 sampleIndexStore
              (Some [1; 2; 3; 4; 5; 6]) "task-1" "w2" 2 (Some [5; 6]) store' Eout)
    as (task & total & workers & _ & _ & _ & _ & _ & _ & _ & _ & _ & Hresults
        & Hleases & _).
  exists store'. split; [reflexivity|]. split; [rewrite Hleases; reflexivity|].
  exact Hresults.
Defined.

(** ** Sequences of dispatch operations *)

Lemma nextChunk_ledger nanoid dbc (Item : Type) (byteLength : Item -> option Z)
    now db (dataItems : list Item) req :
  ledgerOf (snd (nextChunk nanoid dbc byteLength now db dataItems req)) = ledgerOf db.
Proof.
  unfold nextChunk, drawId.
  repeat match goal with
         | |- context [match ?x with _ => _ end] => destruct x
         | |- context [if ?x then _ else _] => destruct x
         end; reflexivity.
Qed.

Lemma recordProgress_ledger nanoid now db req :
  ledgerOf (snd (recordProgress nanoid now db req)) = ledgerOf db.
Proof.
  unfold recordProgress, drawId.
  repeat match goal with
         | |- context [findEntry ?p ?l] => destruct (findEntry p l) as [[? ?]|]
         | |- context [match ?x with _ => _ end] => destruct x
         | |- context [if ?x then _ else _] => destruct x
         end; reflexivity.
Qed.

Lemma ensureWorkerUser_ledger nanoid now db workerId :
  let db' := snd (ensureWorkerUser nanoid now db workerId) in
  walletTransactions db' = walletTransactions db /\
  platformLedger db' = platformLedger db /\
  (users db' = users db \/
   exists u, users db' = (users db ++ [u])%list /\
             u_walletBalance u = 0%Q /\ u_roles u = ["worker"]).
Proof.
  cbv zeta. unfold ensureWorkerUser.
  destruct (negb (truthy workerId)); [repeat split; left; reflexivity|].
  destruct (findUserBySessionId db workerId); [repeat split; left; reflexivity|].
  destruct (createUser_effect nanoid now db workerId 0%Q ["worker"])
    as (u & db' & Hcreate & Husers & Hbalance & Hroles & _ & _ & _ & _ & W & L).
  rewrite Hcreate. cbn [snd]. split; [exact W|]. split; [exact L|].
  right. exists u. repeat split; assumption.
Qed.

(** One request moves no credits; at most it adds a user without
    credits. *)
Lemma runOp_ledger nanoid dbc (Item : Type) (byteLength : Item -> option Z)
    now db (op : EngineOp Item) :
  let db' := runOp nanoid dbc byteLength now db op in
  walletTransactions db' = walletTransactions db /\
  platformLedger db' = platformLedger db /\
  exists newcomers,
    users db' = (users db ++ newcomers)%list /\
    Forall (fun u => u_walletBalance u = 0%Q /\ u_roles u = ["worker"]) newcomers.
Proof.
  assert (Hsame : forall db' : Db,
             ledgerOf db' = ledgerOf db ->
             walletTransactions db' = walletTransactions db /\
             platformLedger db' = platformLedger db /\
             exists newcomers,
               users db' = (users db ++ newcomers)%list /\
               Forall (fun u => u_walletBalance u = 0%Q /\ u_roles u = ["worker"])
                 newcomers).
  { intros db' H. unfold ledgerOf in H. injection H as Hu Hw Hl.
    split; [exact Hw|]. split; [exact Hl|].
    exists []. rewrite app_nil_r. split; [exact Hu|constructor]. }
  cbv zeta. destruct op as [taskId workerId|taskId workerId|taskId|taskId|taskId
                           |dataItems req|req]; cbn [runOp].
  - unfold claimTask.
    destruct (findEntry _ (tasks db)) as [[taskPos task]|]; [|apply Hsame; reflexivity].
    destruct (t_revoked task); [apply Hsame; reflexivity|].
    cbv zeta.
    destruct workerId as [w|]; [|apply Hsame; reflexivity].
    destruct (truthy (Some w) && _)%bool; [|apply Hsame; reflexivity].
    destruct (ensureWorkerUser_ledger nanoid now db (Some w)) as [W [L U]].
    cbv zeta in W, L, U. cbn [snd walletTransactions platformLedger users setTasks].
    split; [exact W|]. split; [exact L|].
    destruct U as [U|[u [U [Hb Hr]]]].
    + exists []. rewrite app_nil_r. split; [exact U|constructor].
    + exists [u]. split; [exact U|]. constructor; [split; assumption|constructor].
  - apply Hsame. unfold dropTask.
    destruct workerId as [w|]; [|reflexivity].
    destruct (negb (truthy (Some w))); [reflexivity|].
    destruct (findEntry _ (tasks db)) as [[taskPos task]|]; reflexivity.
  - apply Hsame. unfold revokeTask.
    destruct (findEntry _ (tasks db)) as [[taskPos task]|]; reflexivity.
  - apply Hsame. unfold reinvokeTask.
    destruct (findEntry _ (tasks db)) as [[taskPos task]|]; reflexivity.
  - apply Hsame. unfold deleteTask.
    destruct (findIndex _ (tasks db)); reflexivity.
  - apply Hsame. apply nextChunk_ledger.
  - apply Hsame. apply recordProgress_ledger.
Qed.

Lemma totalBalance_newcomers (newcomers : list User) :
  Forall (fun u => u_walletBalance u = 0%Q /\ u_roles u = ["worker"]) newcomers ->
  (totalBalance newcomers == 0)%Q.
Proof.
  induction 1 as [|u rest [Hb _] _ IH]; [reflexivity|].
  unfold totalBalance in *. cbn [fold_right]. rewrite Hb, IH. reflexivity.
Qed.

(** X30.  No sequence of lifecycle, [next-chunk] and [record-progress]
    requests, whatever their order, arguments and times, moves credits:
    wallet transactions and platform earnings stay as they are, the users
    stored before keep their place and their balance, the only users added
    are workers without credits (a first [claim] by an unknown worker), and
    the credits in the system are unchanged. *)
Theorem dispatch_moves_no_credits nanoid dbc (Item : Type)
    (byteLength : Item -> option Z) (ops : list (Z * EngineOp Item)) db :
  let db' := runOps nanoid dbc byteLength db ops in
  walletTransactions db' = walletTransactions db /\
  platformLedger db' = platformLedger db /\
  (exists newcomers,
      users db' = (users db ++ newcomers)%list /\
      Forall (fun u => u_walletBalance u = 0%Q /\ u_roles u = ["worker"]) newcomers) /\
  (moneyInSystem db' == moneyInSystem db)%Q.
Proof.
  cbv zeta. unfold runOps.
  assert (Hrun : forall ops db,
             let db' := fold_left (fun db op =>
                                     runOp nanoid dbc byteLength (fst op) db (snd op))
                          ops db in
             walletTransactions db' = walletTransactions db /\
             platformLedger db' = platformLedger db /\
             exists newcomers,
               users db' = (users db ++ newcomers)%list /\
               Forall (fun u => u_walletBalance u = 0%Q /\ u_roles u = ["worker"])
                 newcomers).
  { clear ops db. induction ops as [|[now op] rest IH]; intros db; cbv zeta.
    - cbn [fold_left]. split; [reflexivity|]. split; [reflexivity|].
      exists []. rewrite app_nil_r. split; [reflexivity|constructor].
    - cbn [fold_left fst snd].
      destruct (runOp_ledger nanoid dbc byteLength now db op)
        as (W1 & L1 & fresh1 & U1 & F1).
      cbv zeta in W1, L1, U1.
      destruct (IH (runOp nanoid dbc byteLength now db op))
        as (W2 & L2 & fresh2 & U2 & F2).
      cbv zeta in W2, L2, U2.
      split; [congruence|]. split; [congruence|].
      exists (fresh1 ++ fresh2)%list. split.
      + rewrite U2, U1, app_assoc. reflexivity.
      + apply Forall_app. split; assumption. }
  destruct (Hrun ops db) as (W & L & newcomers & U & F). cbv zeta in W, L, U.
  split; [exact W|]. split; [exact L|].
  split; [exists newcomers; split; assumption|].
  unfold moneyInSystem. rewrite L, U, totalBalance_app.
  rewrite (totalBalance_newcomers F). ring.
Qed.
